(** * Sales chatbot over a vector store: a shallow embedding of its core

    The development embeds, function by function, the parts of
    [src/main.py] and [embed.py] that carry the engineering content of
    the repository:

    - the month-range helper [iso_month_range],
    - the cursor pagination generator [scroll_query_with_filter],
    - the two month aggregators [aggregate_sales] and [aggregate_volume],
    - the search shim [http_search_collection],
    - the date extraction [parse_year_month_from_text] and the routing
      done by [chat],
    - the schema-driven [normalize_metadata].

    Python values are modelled by inductive types, exceptions by [option]
    or by explicit outcomes, dictionaries by [gmap], the network by the
    replies it gives.  Text is a [string] read as a sequence of code points
    below 256 (the Latin-1 range), with the classification Python gives to
    those code points. *)

From Stdlib Require Import ZArith String Ascii List Bool Lia.
From Stdlib Require Import Floats.SpecFloat.
From stdpp Require Import gmap strings list fin_maps pretty.

Set Warnings "-register-all".
Local Open Scope string_scope.
Local Open Scope Z_scope.

(** ** Characters and strings, as Python sees them *)

Module Text.

Definition code (c : ascii) : Z := Z.of_N (N_of_ascii c).

Definition between (lo hi : Z) (c : ascii) : bool :=
  (lo <=? code c) && (code c <=? hi).

(** [\d] and [str.isdecimal]: below 256 only the ASCII digits. *)
Definition is_digit (c : ascii) : bool := between 48 57 c.

(** [\s] and [str.isspace]: TAB..CR, FS..US, SPACE, NEL, NBSP. *)
Definition is_space (c : ascii) : bool :=
  between 9 13 c || between 28 32 c || (code c =? 133) || (code c =? 160).

(** [\w] of [re] on [str] patterns: alphanumeric code points and [_]. *)
Definition is_word (c : ascii) : bool :=
  between 48 57 c || between 65 90 c || between 97 122 c || (code c =? 95)
  || (code c =? 170) || (code c =? 178) || (code c =? 179) || (code c =? 181)
  || (code c =? 185) || (code c =? 186) || between 188 190 c
  || between 192 214 c || between 216 246 c || between 248 255 c.

(** [str.lower] on one code point. *)
Definition lower_char (c : ascii) : ascii :=
  if between 65 90 c || (between 192 222 c && negb (code c =? 215))
  then ascii_of_N (N_of_ascii c + 32) else c.

Fixpoint lower (s : string) : string :=
  match s with
  | EmptyString => EmptyString
  | String c s' => String (lower_char c) (lower s')
  end.

Fixpoint is_prefix (p s : string) : bool :=
  match p, s with
  | EmptyString, _ => true
  | String a p', String b s' => if Ascii.eqb a b then is_prefix p' s' else false
  | String _ _, EmptyString => false
  end.

(** [k in t] for strings. *)
Fixpoint contains (k t : string) : bool :=
  is_prefix k t ||
  match t with
  | EmptyString => false
  | String _ t' => contains k t'
  end.

(** [s.replace(old, new)] for a non-empty [old]: occurrences are replaced
    from left to right and do not overlap; [skip] counts the characters
    of an occurrence that are still to be dropped. *)
Fixpoint replace_from (old new : string) (skip : nat) (s : string) : string :=
  match s with
  | EmptyString => EmptyString
  | String c s' =>
      match skip with
      | S n => replace_from old new n s'
      | O =>
          if is_prefix old s
          then new +:+ replace_from old new (Nat.pred (String.length old)) s'
          else String c (replace_from old new O s')
      end
  end.

Definition replace (old new s : string) : string := replace_from old new O s.

(** The white space [float] and [int] drop around a number: TAB..CR and
    SPACE, and of the code points from 128 those [str.isspace] accepts,
    NEL and NBSP.  FS..US are white space for [str.isspace] and [\s], not
    here. *)
Definition is_number_space (c : ascii) : bool :=
  between 9 13 c || (code c =? 32) || (code c =? 133) || (code c =? 160).

Fixpoint lstrip (s : string) : string :=
  match s with
  | String c s' => if is_number_space c then lstrip s' else s
  | EmptyString => EmptyString
  end.

Fixpoint rstrip (s : string) : string :=
  match s with
  | EmptyString => EmptyString
  | String c s' =>
      match rstrip s' with
      | EmptyString => if is_number_space c then EmptyString else String c EmptyString
      | r => String c r
      end
  end.

(** The text of a number as [float] and [int] read it, without the white
    space before and after. *)
Definition strip (s : string) : string := rstrip (lstrip s).

(** Longest prefix of decimal digits, and what follows it. *)
Fixpoint span_digits (s : string) : string * string :=
  match s with
  | String c s' =>
      if is_digit c
      then let '(d, r) := span_digits s' in (String c d, r)
      else (EmptyString, s)
  | EmptyString => (EmptyString, EmptyString)
  end.

Definition digit_val (c : ascii) : Z := code c - 48.

Fixpoint digits_val_from (acc : Z) (s : string) : Z :=
  match s with
  | EmptyString => acc
  | String c s' => digits_val_from (10 * acc + digit_val c) s'
  end.

(** [int(s)] on a string of decimal digits. *)
Definition digits_val (s : string) : Z := digits_val_from 0 s.

Definition digit_char (d : Z) : ascii := ascii_of_N (Z.to_N (48 + d mod 10)).

(** ["%02d" % n] and ["%04d" % n] for a non-negative [n] that fits. *)
Definition pad2 (n : Z) : string :=
  String (digit_char (n / 10)) (String (digit_char n) EmptyString).

Definition pad4 (n : Z) : string :=
  String (digit_char (n / 1000)) (String (digit_char (n / 100)) (pad2 n)).

(** No character of the text is a plus sign. *)
Fixpoint no_plus (s : string) : bool :=
  match s with
  | EmptyString => true
  | String c s' => negb (Ascii.eqb "+" c) && no_plus s'
  end.

End Text.

(** ** Python floats: IEEE 754 binary64 *)

Module PyFloat.

Definition float : Type := spec_float.

Definition prec : Z := 53.
Definition emax : Z := 1024.

Definition zero : float := S754_zero false.

Definition add : float -> float -> float := SFadd prec emax.

(** Nearest binary64 of an integer (ties to even). *)
Definition of_Z (n : Z) : float := binary_normalize prec emax n 0 false.

(** [math.isfinite] *)
Definition isfinite (f : float) : bool :=
  match f with
  | S754_zero _ | S754_finite _ _ _ => true
  | S754_infinity _ | S754_nan => false
  end.

(** Truth value of a float: false exactly for [0.0] and [-0.0]. *)
Definition nonzero (f : float) : bool :=
  match f with
  | S754_zero _ => false
  | _ => true
  end.

(** [float(n)] for an [int]: [OverflowError] when [n] rounds out of range. *)
Definition of_int (n : Z) : option float :=
  let f := of_Z n in if isfinite f then Some f else None.

(** [int(f)]: truncation towards zero; [ValueError] on nan and
    [OverflowError] on the infinities. *)
Definition to_int (f : float) : option Z :=
  match f with
  | S754_zero _ => Some 0
  | S754_finite s m e =>
      Some (cond_Zopp s (if 0 <=? e then Zpos m * 2 ^ e else Zpos m / 2 ^ (- e)))
  | S754_infinity _ | S754_nan => None
  end.

(** Nearest binary64 of [m * 10^e] for [0 <= m] (ties to even).  For a
    negative exponent the quotient is computed with 64 bits to spare and
    a sticky bit. *)
Definition of_decimal (neg : bool) (m e : Z) : float :=
  if m =? 0 then S754_zero neg
  else if 0 <=? e then binary_normalize prec emax (cond_Zopp neg (m * 10 ^ e)) 0 false
  else
    let d := 10 ^ (- e) in
    let k := 64 + Z.log2 d in
    let q := (m * 2 ^ k) / d in
    let sticky := if (m * 2 ^ k) mod d =? 0 then 0 else 1 in
    binary_normalize prec emax (cond_Zopp neg (2 * q + sticky)) (- k - 1) false.

(** Underscores of a numeric literal: each one stands between two digits.
    [prev] is the character before [s]. *)
Fixpoint drop_underscores (prev : option ascii) (s : string) : option string :=
  match s with
  | EmptyString =>
      match prev with
      | Some "_"%char => None
      | _ => Some EmptyString
      end
  | String c s' =>
      if Ascii.eqb c "_"
      then
        match prev with
        | Some p => if Text.is_digit p then drop_underscores (Some c) s' else None
        | None => None
        end
      else
        match prev with
        | Some "_"%char =>
            if Text.is_digit c
            then option_map (String c) (drop_underscores (Some c) s')
            else None
        | _ => option_map (String c) (drop_underscores (Some c) s')
        end
  end.

Definition split_sign (s : string) : bool * string :=
  match s with
  | String "-" r => (true, r)
  | String "+" r => (false, r)
  | _ => (false, s)
  end.

(** [digits [. digits] [(e|E) [sign] digits]] with at least one digit in
    the mantissa, to the end of the string. *)
Definition parse_number (neg : bool) (s : string) : option float :=
  let '(ip, r1) := Text.span_digits s in
  let '(fp, r2) :=
    match r1 with
    | String "." r => Text.span_digits r
    | _ => (EmptyString, r1)
    end in
  let mant := Text.digits_val (ip +:+ fp) in
  let scale := - Z.of_nat (String.length fp) in
  if (String.length ip + String.length fp =? 0)%nat then None
  else
    match r2 with
    | EmptyString => Some (of_decimal neg mant scale)
    | String c r3 =>
        if Ascii.eqb c "e" || Ascii.eqb c "E"
        then
          let '(eneg, r4) := split_sign r3 in
          let '(ed, r5) := Text.span_digits r4 in
          match ed, r5 with
          | String _ _, EmptyString =>
              Some (of_decimal neg mant (cond_Zopp eneg (Text.digits_val ed) + scale))
          | _, _ => None
          end
        else None
    end.

(** [float(s)] for a [str]: surrounding white space is dropped, then an
    optional sign and [inf], [infinity], [nan] (in any case) or a decimal
    number.  [None] stands for [ValueError]. *)
Definition of_str (s : string) : option float :=
  match drop_underscores None (Text.strip s) with
  | None => None
  | Some t =>
      let '(neg, body) := split_sign t in
      let l := Text.lower body in
      if String.eqb l "inf" || String.eqb l "infinity" then Some (S754_infinity neg)
      else if String.eqb l "nan" then Some S754_nan
      else parse_number neg body
  end.

End PyFloat.

(** ** JSON values, as [json.loads] and [r.json()] build them *)

Module Json.

Inductive json : Type :=
| JNull
| JBool (b : bool)
| JInt (n : Z)
| JFloat (f : PyFloat.float)
| JStr (s : string)
| JList (l : list json)
| JDict (d : gmap string json).

Definition empty_dict : json := JDict ∅.

(** Truth value of a Python object, as [or], [not] and [if] test it. *)
Definition truthy (j : json) : bool :=
  match j with
  | JNull => false
  | JBool b => b
  | JInt n => negb (n =? 0)
  | JFloat f => PyFloat.nonzero f
  | JStr s => negb (String.eqb s "")
  | JList l => negb (Nat.eqb (List.length l) 0)
  | JDict d => negb (Nat.eqb (size d) 0)
  end.

(** [a or b] *)
Definition py_or (a b : json) : json := if truthy a then a else b.

Definition is_none (j : json) : bool :=
  match j with JNull => true | _ => false end.

Definition is_dict (j : json) : bool :=
  match j with JDict _ => true | _ => false end.

Definition is_list (j : json) : bool :=
  match j with JList _ => true | _ => false end.

Definition is_str (j : json) : bool :=
  match j with JStr _ => true | _ => false end.

(** [d.get(k)] and [d.get(k, dflt)] on a dictionary. *)
Definition dict_get (k : string) (d : gmap string json) : json :=
  default JNull (d !! k).

Definition dict_get_or (k : string) (dflt : json) (d : gmap string json) : json :=
  default dflt (d !! k).

(** [j.get(k)] on any object: [AttributeError] unless [j] is a dictionary. *)
Definition attr_get (k : string) (j : json) : option json :=
  match j with
  | JDict d => Some (dict_get k d)
  | _ => None
  end.

(** [k in j] and [j[k]], used under an [isinstance(j, dict)] guard. *)
Definition has_key (k : string) (j : json) : bool :=
  match j with
  | JDict d => bool_decide (is_Some (d !! k))
  | _ => false
  end.

Definition subscript (k : string) (j : json) : json :=
  match j with
  | JDict d => dict_get k d
  | _ => JNull
  end.

Fixpoint chars (s : string) : list json :=
  match s with
  | EmptyString => []
  | String c s' => JStr (String c EmptyString) :: chars s'
  end.

(** What [for p in j] runs over: the items of a list, the characters of
    a string, the keys of a dictionary; [TypeError] for the rest. *)
Definition py_iter (j : json) : option (list json) :=
  match j with
  | JList l => Some l
  | JStr s => Some (chars s)
  | JDict d => Some ((λ kv, JStr kv.1) <$> map_to_list d)
  | JNull | JBool _ | JInt _ | JFloat _ => None
  end.

(** [float(j)]: [None] stands for the exception it raises. *)
Definition py_float (j : json) : option PyFloat.float :=
  match j with
  | JBool b => Some (PyFloat.of_Z (if b then 1 else 0))
  | JInt n => PyFloat.of_int n
  | JFloat f => Some f
  | JStr s => PyFloat.of_str s
  | JNull | JList _ | JDict _ => None
  end.

End Json.

Import Json.

(** ** Calendar arithmetic of [datetime] *)

Module Calendar.

Definition MINYEAR : Z := 1.
Definition MAXYEAR : Z := 9999.
Definition MAXORDINAL : Z := 3652059.

Definition is_leap (year : Z) : bool :=
  (year mod 4 =? 0) && (negb (year mod 100 =? 0) || (year mod 400 =? 0)).

Definition DAYS_IN_MONTH (month : Z) : Z :=
  match month with
  | 1 => 31 | 2 => 28 | 3 => 31 | 4 => 30 | 5 => 31 | 6 => 30
  | 7 => 31 | 8 => 31 | 9 => 30 | 10 => 31 | 11 => 30 | 12 => 31
  | _ => 0
  end.

Definition DAYS_BEFORE_MONTH (month : Z) : Z :=
  match month with
  | 1 => 0 | 2 => 31 | 3 => 59 | 4 => 90 | 5 => 120 | 6 => 151
  | 7 => 181 | 8 => 212 | 9 => 243 | 10 => 273 | 11 => 304 | 12 => 334
  | _ => 0
  end.

Definition days_in_month (year month : Z) : Z :=
  if (month =? 2) && is_leap year then 29 else DAYS_IN_MONTH month.

Definition days_before_year (year : Z) : Z :=
  let y := year - 1 in y * 365 + y / 4 - y / 100 + y / 400.

Definition days_before_month (year month : Z) : Z :=
  DAYS_BEFORE_MONTH month + (if (2 <? month) && is_leap year then 1 else 0).

(** Proleptic Gregorian ordinal: 0001-01-01 is day 1. *)
Definition ymd2ord (year month day : Z) : Z :=
  days_before_year year + days_before_month year month + day.

Definition DI400Y : Z := 146097.
Definition DI100Y : Z := 36524.
Definition DI4Y : Z := 1461.

Definition ord2ymd (ordinal : Z) : Z * Z * Z :=
  let n := ordinal - 1 in
  let n400 := n / DI400Y in
  let n := n mod DI400Y in
  let n100 := n / DI100Y in
  let n := n mod DI100Y in
  let n4 := n / DI4Y in
  let n := n mod DI4Y in
  let n1 := n / 365 in
  let n := n mod 365 in
  let year := n400 * 400 + 1 + n100 * 100 + n4 * 4 + n1 in
  if (n1 =? 4) || (n100 =? 4) then (year - 1, 12, 31)
  else
    let leapyear := (n1 =? 3) && (negb (n4 =? 24) || (n100 =? 3)) in
    let month := Z.shiftr (n + 50) 5 in
    let preceding := DAYS_BEFORE_MONTH month + (if (2 <? month) && leapyear then 1 else 0) in
    if n <? preceding
    then
      let month := month - 1 in
      let preceding :=
        preceding - (DAYS_IN_MONTH month + (if (month =? 2) && leapyear then 1 else 0)) in
      (year, month, n - preceding + 1)
    else (year, month, n - preceding + 1).

(** An aware [datetime] in UTC with no microseconds. *)
Record datetime : Type := mk_datetime {
  dt_year : Z; dt_month : Z; dt_day : Z;
  dt_hour : Z; dt_minute : Z; dt_second : Z
}.

(** [datetime(year, month, day, tzinfo=timezone.utc)]: [ValueError]
    outside the supported range. *)
Definition make_datetime (year month day : Z) : option datetime :=
  if (MINYEAR <=? year) && (year <=? MAXYEAR)
     && (1 <=? month) && (month <=? 12)
     && (1 <=? day) && (day <=? days_in_month year month)
  then Some (mk_datetime year month day 0 0 0)
  else None.

(** Seconds since the start of day 0 of the ordinal calendar. *)
Definition to_seconds (d : datetime) : Z :=
  ymd2ord (dt_year d) (dt_month d) (dt_day d) * 86400
  + dt_hour d * 3600 + dt_minute d * 60 + dt_second d.

(** [d + timedelta(seconds=delta)]: [OverflowError] out of range. *)
Definition add_seconds (d : datetime) (delta : Z) : option datetime :=
  let total := to_seconds d + delta in
  let days := total / 86400 in
  let secs := total mod 86400 in
  if (0 <? days) && (days <=? MAXORDINAL)
  then
    let '(y, m, dd) := ord2ymd days in
    Some (mk_datetime y m dd (secs / 3600) ((secs mod 3600) / 60) ((secs mod 3600) mod 60))
  else None.

(** [d.isoformat()] for UTC: [YYYY-MM-DDTHH:MM:SS+00:00]. *)
Definition isoformat (d : datetime) : string :=
  Text.pad4 (dt_year d) +:+ "-" +:+ Text.pad2 (dt_month d) +:+ "-" +:+ Text.pad2 (dt_day d)
  +:+ "T" +:+ Text.pad2 (dt_hour d) +:+ ":" +:+ Text.pad2 (dt_minute d) +:+ ":"
  +:+ Text.pad2 (dt_second d) +:+ "+00:00".

Definition iso_z (d : datetime) : string := Text.replace "+00:00" "Z" (isoformat d).

(** The two instants [iso_month_range] computes before formatting. *)
Definition month_bounds (year month : Z) : option (datetime * datetime) :=
  match make_datetime year month 1 with
  | None => None
  | Some start =>
      let next :=
        if month =? 12 then make_datetime (year + 1) 1 1
        else make_datetime year (month + 1) 1 in
      match next with
      | None => None
      | Some first_of_next =>
          match add_seconds first_of_next (-1) with
          | None => None
          | Some end_ => Some (start, end_)
          end
      end
  end.

(** [iso_month_range(year, month)]; [None] when it raises. *)
Definition iso_month_range (year month : Z) : option (string * string) :=
  match month_bounds year month with
  | Some (start, end_) => Some (iso_z start, iso_z end_)
  | None => None
  end.

(** Month and day of the day numbered [k], from 0, of a year: the last
    part of [ord2ymd]. *)
Definition month_day (leap : bool) (k : Z) : Z * Z :=
  let month := Z.shiftr (k + 50) 5 in
  let preceding := DAYS_BEFORE_MONTH month + (if (2 <? month) && leap then 1 else 0) in
  if k <? preceding
  then
    let month := month - 1 in
    let preceding :=
      preceding - (DAYS_IN_MONTH month + (if (month =? 2) && leap then 1 else 0)) in
    (month, k - preceding + 1)
  else (month, k - preceding + 1).

(** The first instant of a month, of the month after it, and the last
    second of the month. *)
Definition month_start (year month : Z) : datetime := mk_datetime year month 1 0 0 0.

Definition next_month_start (year month : Z) : datetime :=
  if month =? 12 then mk_datetime (year + 1) 1 1 0 0 0 else mk_datetime year (month + 1) 1 0 0 0.

Definition month_end (year month : Z) : datetime :=
  mk_datetime year month (days_in_month year month) 23 59 59.

End Calendar.

(** ** The vector store, seen through [requests] *)

Module Http.

(** What one [requests.post] gives back: no reply at all (connection
    refused, time-out: the call raises), or a status code with a body,
    [None] for a body that is not JSON. *)
Inductive http_reply : Type :=
| Unreachable
| Reply (status : Z) (body : option json).

(** The exceptions the callers tell apart: [requests.HTTPError], raised
    by [raise_for_status], and every other [Exception]. *)
Inductive py_error : Type :=
| HTTPError (status : Z)
| OtherError.

(** [r.raise_for_status()] raises for the 4xx and 5xx codes. *)
Definition is_error_status (status : Z) : bool :=
  (400 <=? status) && (status <? 600).

(** [r.raise_for_status(); resp = r.json()], followed by the first
    [resp.get], which needs [resp] to be a dictionary. *)
Definition read_dict (r : http_reply) : py_error + gmap string json :=
  match r with
  | Unreachable => inl OtherError
  | Reply status body =>
      if is_error_status status then inl (HTTPError status)
      else
        match body with
        | Some (JDict resp) => inr resp
        | _ => inl OtherError
        end
  end.

End Http.

Import Http.

(** ** Scroll pagination: [scroll_query_with_filter] *)

Module Scroll.

(** What the generator does, in order: it posts a scroll body, it yields
    a payload. *)
Inductive event : Type :=
| Post (collection : string) (body : json)
| Yield (payload : json).

(** How the generator ends: its loop breaks, or an exception leaves it. *)
Inductive ending : Type :=
| Exhausted
| Raised (e : py_error).

Definition scroll_body (batch_size : Z) (filter_obj offset : json) : json :=
  let body : gmap string json :=
    <["limit" := JInt batch_size]>
      (<["with_payload" := JBool true]> (<["filter" := filter_obj]> ∅)) in
  JDict (if is_none offset then body else <["offset" := offset]> body).

(** The page of points of a scroll response.  The source's fourth test,
    [isinstance(resp, list)], cannot succeed once [resp.get] has. *)
Definition scroll_points (resp : gmap string json) : json :=
  let result := dict_get "result" resp in
  if is_dict result && has_key "points" result then subscript "points" result
  else if is_list result then result
  else if is_list (dict_get "points" resp) then dict_get "points" resp
  else JList [].

Definition point_payload (p : json) : json :=
  match p with
  | JDict d => dict_get_or "payload" empty_dict d
  | _ => empty_dict
  end.

Definition scroll_next_offset (resp : gmap string json) : json :=
  let result := dict_get "result" resp in
  let next_offset :=
    if is_dict result
    then py_or (py_or (subscript "next_page" result) (subscript "next_page_offset" result))
               (subscript "offset" result)
    else JNull in
  py_or (py_or (py_or next_offset (dict_get "next_page" resp))
               (dict_get "next_page_offset" resp))
        (dict_get "offset" resp).

(** One turn of the [while True] loop on the reply [r]. *)
Inductive turn : Type :=
| TurnRaise (e : py_error)
| TurnBreak (yields : list json)
| TurnNext (yields : list json) (next_offset : json).

Definition scroll_turn (r : http_reply) : turn :=
  match read_dict r with
  | inl e => TurnRaise e
  | inr resp =>
      let points := scroll_points resp in
      if negb (truthy points) then TurnBreak []
      else
        match py_iter points with
        | None => TurnRaise OtherError
        | Some ps =>
            let yields := point_payload <$> ps in
            let next_offset := scroll_next_offset resp in
            if negb (truthy next_offset) then TurnBreak yields
            else TurnNext yields next_offset
        end
  end.

(** The generator run to its end against the replies the store gives to
    its successive requests; past the last reply the store is silent and
    the request times out. *)
Fixpoint scroll_from (collection_name : string) (filter_obj : json) (batch_size : Z)
    (offset : json) (replies : list http_reply) : list event * ending :=
  let post := Post collection_name (scroll_body batch_size filter_obj offset) in
  match replies with
  | [] => ([post], Raised OtherError)
  | r :: rest =>
      match scroll_turn r with
      | TurnRaise e => ([post], Raised e)
      | TurnBreak yields => (post :: (Yield <$> yields), Exhausted)
      | TurnNext yields next_offset =>
          let '(evs, fin) := scroll_from collection_name filter_obj batch_size next_offset rest in
          (post :: (Yield <$> yields) ++ evs, fin)
      end
  end.

Definition scroll_query_with_filter (collection_name : string) (filter_obj : json)
    (batch_size : Z) (replies : list http_reply) : list event * ending :=
  scroll_from collection_name filter_obj batch_size JNull replies.

Definition yielded (evs : list event) : list json :=
  omap (λ e, match e with Yield p => Some p | Post _ _ => None end) evs.

Definition posted (evs : list event) : list json :=
  omap (λ e, match e with Post _ b => Some b | Yield _ => None end) evs.

(** The values the response holds under the names a cursor may have, in
    the order [scroll_next_offset] reads them. *)
Definition cursor_candidates (resp : gmap string json) : list json :=
  let result := dict_get "result" resp in
  (if is_dict result
   then [subscript "next_page" result; subscript "next_page_offset" result;
         subscript "offset" result]
   else [])
  ++ [dict_get "next_page" resp; dict_get "next_page_offset" resp; dict_get "offset" resp].

(** A next-cursor value is present in the response: one of those names
    holds something that is not null.  This reads the words of the
    specification; the generator itself tests [truthy]. *)
Definition cursor_value_present (resp : gmap string json) : bool :=
  existsb (λ v, negb (is_none v)) (cursor_candidates resp).

(** The first of a list of values that counts as true. *)
Definition first_truthy (vs : list json) : option json := List.find truthy vs.

End Scroll.

Import Scroll.

(** ** Month aggregation: [aggregate_sales] and [aggregate_volume] *)

Module Aggregate.

Record counters : Type := mk_counters {
  total : PyFloat.float;
  count : Z;
  bad_rows : Z
}.

Definition start_counters : counters := mk_counters PyFloat.zero 0 0.

Definition skip (st : counters) : counters :=
  mk_counters (total st) (count st) (bad_rows st + 1).

Definition accumulate (st : counters) (val : PyFloat.float) : counters :=
  mk_counters (PyFloat.add (total st) val) (count st + 1) (bad_rows st).

(** [payload.get("sales") or payload.get("sales_amount")] *)
Definition sales_candidate (payload : json) : option json :=
  match payload with
  | JDict d => Some (py_or (dict_get "sales" d) (dict_get "sales_amount" d))
  | _ => None
  end.

(** [payload.get("sales_vol") or payload.get("quantity") or
    payload.get("sales_volume")] *)
Definition volume_candidate (payload : json) : option json :=
  match payload with
  | JDict d =>
      Some (py_or (py_or (dict_get "sales_vol" d) (dict_get "quantity" d))
                  (dict_get "sales_volume" d))
  | _ => None
  end.

(** The inner [try]: commas are taken out of a string, then [float]. *)
Definition parse_value (v : json) : option PyFloat.float :=
  match v with
  | JStr s => py_float (JStr (Text.replace "," "" s))
  | _ => py_float v
  end.

(** The body of the [for] loop on one selected value. *)
Definition count_value (st : counters) (v : json) : counters :=
  if is_none v then skip st
  else
    match parse_value v with
    | Some val => if PyFloat.isfinite val then accumulate st val else skip st
    | None => skip st
    end.

(** The body of the [for] loop; [None] when an exception leaves it
    ([payload.get] on something that is not a dictionary). *)
Definition loop_body (candidate : json -> option json) (st : counters) (payload : json)
    : option counters :=
  match candidate payload with
  | Some v => Some (count_value st v)
  | None => None
  end.

(** The [for] loop over the generator: the events are consumed in order,
    and an exception in the body ends the consumption there. *)
Fixpoint drive (candidate : json -> option json) (st : counters) (sent : list json)
    (evs : list event) : option counters * list json :=
  match evs with
  | [] => (Some st, sent)
  | Post _ body :: evs' => drive candidate st (sent ++ [body]) evs'
  | Yield payload :: evs' =>
      match loop_body candidate st payload with
      | Some st' => drive candidate st' sent evs'
      | None => (None, sent)
      end
  end.

Inductive detail : Type :=
| MonthOutOfRange      (* "month must be 1..12" *)
| InvalidYearMonth     (* "invalid year/month" *)
| QdrantError          (* "Qdrant error: ..." *)
| InternalError.       (* "Internal error during aggregation" *)

Record summary : Type := mk_summary {
  collection : string;
  year : Z;
  month : Z;
  records_aggregated : Z;
  records_skipped : Z;
  total_value : PyFloat.float
}.

Inductive response : Type :=
| Returned (s : summary)
| HTTPException (status_code : Z) (d : detail).

Definition month_filter (start_iso end_iso : string) : json :=
  let range : gmap string json := <["gte" := JStr start_iso]> (<["lte" := JStr end_iso]> ∅) in
  let cond : gmap string json := <["key" := JStr "month_year"]> (<["range" := JDict range]> ∅) in
  JDict (<["must" := JList [JDict cond]]> ∅).

(** The common shape of the two endpoints; the result comes with the
    scroll bodies that were posted to the store. *)
Definition aggregate (candidate : json -> option json) (year month : Z)
    (collection : string) (replies : list http_reply) : response * list json :=
  if negb ((1 <=? month) && (month <=? 12)) then (HTTPException 400 MonthOutOfRange, [])
  else
    match Calendar.iso_month_range year month with
    | None => (HTTPException 400 InvalidYearMonth, [])
    | Some (start_iso, end_iso) =>
        let filter_obj := month_filter start_iso end_iso in
        let '(evs, fin) := scroll_query_with_filter collection filter_obj 500 replies in
        match drive candidate start_counters [] evs with
        | (None, sent) => (HTTPException 500 InternalError, sent)
        | (Some st, sent) =>
            match fin with
            | Raised (HTTPError _) => (HTTPException 502 QdrantError, sent)
            | Raised OtherError => (HTTPException 500 InternalError, sent)
            | Exhausted =>
                (Returned (mk_summary collection year month (count st) (bad_rows st) (total st)),
                 sent)
            end
        end
    end.

Definition aggregate_sales : Z -> Z -> string -> list http_reply -> response * list json :=
  aggregate sales_candidate.

Definition aggregate_volume : Z -> Z -> string -> list http_reply -> response * list json :=
  aggregate volume_candidate.

Definition revenue_fields : list string := ["sales"; "sales_amount"].

Definition volume_fields : list string := ["sales_vol"; "quantity"; "sales_volume"].

(** The value of the first named field that is there and not null; null
    when there is none. *)
Fixpoint first_present (names : list string) (d : gmap string json) : json :=
  match names with
  | [] => JNull
  | k :: rest => if is_none (dict_get k d) then first_present rest d else dict_get k d
  end.

(** Each named field is missing, null, or holds a value that counts as
    true: no zero, no [False], nothing empty. *)
Definition plain_fields (names : list string) (d : gmap string json) : Prop :=
  ∀ k, In k names → is_none (dict_get k d) = true ∨ truthy (dict_get k d) = true.

(** What the specification has the aggregator do with the selected value:
    commas are taken out of a text, the value is read as a float, and it
    counts when the float is finite; a missing, unreadable or non-finite
    value is a skipped record. *)
Definition spec_parse (v : json) : option PyFloat.float :=
  match v with
  | JStr s => PyFloat.of_str (Text.replace "," "" s)
  | _ => py_float v
  end.

Definition spec_count (st : counters) (v : json) : counters :=
  match v with
  | JNull => skip st
  | _ =>
      match spec_parse v with
      | Some f => if PyFloat.isfinite f then accumulate st f else skip st
      | None => skip st
      end
  end.

(** The [for] loop on a list of payloads. *)
Fixpoint tally (candidate : json -> option json) (st : counters) (payloads : list json)
    : option counters :=
  match payloads with
  | [] => Some st
  | payload :: rest =>
      match loop_body candidate st payload with
      | Some st' => tally candidate st' rest
      | None => None
      end
  end.

End Aggregate.

(** ** The search shim: [http_search_collection] *)

Module Search.

Inductive endpoint : Type :=
| PointsSearch   (* /collections/{name}/points/search *)
| PointsQuery.   (* /collections/{name}/points/query *)

(** The dictionary [{"id": .., "score": .., "payload": ..}] of one hit. *)
Record hit : Type := mk_hit {
  hit_id : json;
  hit_score : json;
  hit_payload : json
}.

Definition search_points (resp : gmap string json) : json :=
  let result := dict_get "result" resp in
  if is_dict result && has_key "points" result then subscript "points" result
  else if is_list result then result
  else dict_get_or "result" (JList []) resp.

Definition make_hit (p : json) : hit :=
  match p with
  | JDict d => mk_hit (dict_get "id" d) (dict_get "score" d) (py_or (dict_get "payload" d) empty_dict)
  | _ => mk_hit JNull JNull (py_or empty_dict empty_dict)
  end.

(** The envelope handling shared by the two [try] blocks; [None] when an
    exception is raised ([for p in points] on something not iterable). *)
Definition hits_of (resp : gmap string json) : option (list hit) :=
  match py_iter (search_points resp) with
  | Some ps => Some (make_hit <$> ps)
  | None => None
  end.

(** First [try]: only status 200 is read; [None] when control falls
    through to the second endpoint. *)
Definition try_search (r : http_reply) : option (list hit) :=
  match r with
  | Unreachable => None
  | Reply status body =>
      if status =? 200
      then
        match body with
        | Some (JDict resp) => hits_of resp
        | _ => None
        end
      else None
  end.

(** Second [try]: [raise_for_status], then the same reading. *)
Definition try_query (r : http_reply) : option (list hit) :=
  match read_dict r with
  | inl _ => None
  | inr resp => hits_of resp
  end.

Inductive outcome : Type :=
| Hits (hits : list hit)
| RuntimeError.   (* "No compatible HTTP search endpoint available on Qdrant" *)



(** The shim against a store that answers each endpoint as [store] says;
    the result comes with the endpoints that were called, in order. *)
Definition http_search_collection (store : endpoint -> http_reply)
    : outcome * list endpoint :=
  match try_search (store PointsSearch) with
  | Some hits => (Hits hits, [PointsSearch])
  | None =>
      match try_query (store PointsQuery) with
      | Some hits => (Hits hits, [PointsSearch; PointsQuery])
      | None => (RuntimeError, [PointsSearch; PointsQuery])
      end
  end.

End Search.

(** ** Regular expressions, with the backtracking of [re] *)

Module Regex.

Inductive re : Type :=
| Lit (l : string)                                  (* literal text *)
| Cls (p : ascii -> bool)                           (* one character of a class *)
| Seq (a b : re)
| Alt (a b : re)                                    (* a|b, a first *)
| Rep (lo : nat) (hi : option nat) (p : ascii -> bool)  (* greedy p{lo,hi}, p+ *)
| Grp (n : nat) (a : re)                            (* capturing group n *)
| Bnd.                                              (* \b *)

Definition groups : Type := list (nat * string).

Fixpoint group (n : nat) (g : groups) : option string :=
  match g with
  | [] => None
  | (i, w) :: g' => if Nat.eqb i n then Some w else group n g'
  end.

Fixpoint take (n : nat) (s : string) : string :=
  match n, s with
  | S n', String c s' => String c (take n' s')
  | _, _ => EmptyString
  end.

(** The text between the start [s] of a match and what is left, [s']. *)
Definition consumed (s s' : string) : string :=
  take (String.length s - String.length s')%nat s.

Definition word_before (prev : option ascii) : bool :=
  match prev with
  | Some c => Text.is_word c
  | None => false
  end.

Definition word_after (s : string) : bool :=
  match s with
  | String c _ => Text.is_word c
  | EmptyString => false
  end.

(** [\b] holds between a word character and something else. *)
Definition at_boundary (prev : option ascii) (s : string) : bool :=
  xorb (word_before prev) (word_after s).

Fixpoint eat (l : string) (prev : option ascii) (s : string)
    : option (option ascii * string) :=
  match l with
  | EmptyString => Some (prev, s)
  | String a l' =>
      match s with
      | String c s' => if Ascii.eqb a c then eat l' (Some c) s' else None
      | EmptyString => None
      end
  end.

Definition may_repeat (hi : option nat) : bool :=
  match hi with
  | Some O => false
  | _ => true
  end.

Definition lower_bound (hi : option nat) : option nat :=
  match hi with
  | Some n => Some (Nat.pred n)
  | None => None
  end.

Section Run.
Context {R : Type}.

(** A continuation gets the last character read, the rest of the
    input and the groups. *)
Definition cont : Type := option ascii -> string -> groups -> option R.

(** Greedy repetition: one more character first, stopping second. *)
Fixpoint run_rep (p : ascii -> bool) (lo : nat) (hi : option nat)
    (prev : option ascii) (s : string) (g : groups) (k : cont) : option R :=
  let stop := if Nat.eqb lo 0 then k prev s g else None in
  match s with
  | String c s' =>
      if p c && may_repeat hi
      then
        match run_rep p (Nat.pred lo) (lower_bound hi) (Some c) s' g k with
        | Some x => Some x
        | None => stop
        end
      else stop
  | EmptyString => stop
  end.

Fixpoint run (r : re) (prev : option ascii) (s : string) (g : groups) (k : cont)
    : option R :=
  match r with
  | Lit l =>
      match eat l prev s with
      | Some (prev', s') => k prev' s' g
      | None => None
      end
  | Cls p =>
      match s with
      | String c s' => if p c then k (Some c) s' g else None
      | EmptyString => None
      end
  | Seq a b => run a prev s g (λ prev' s' g', run b prev' s' g' k)
  | Alt a b =>
      match run a prev s g k with
      | Some x => Some x
      | None => run b prev s g k
      end
  | Rep lo hi p => run_rep p lo hi prev s g k
  | Grp n a => run a prev s g (λ prev' s' g', k prev' s' ((n, consumed s s') :: g'))
  | Bnd => if at_boundary prev s then k prev s g else None
  end.
End Run.

(** [re.match]: the groups of the match at the start of [s], and what is
    left of [s] after it. *)
Definition match_at (r : re) (prev : option ascii) (s : string) : option (groups * string) :=
  run r prev s [] (λ _ s' g, Some (g, s')).

(** [re.search]: the match at the leftmost position that has one. *)
Fixpoint search_from (r : re) (prev : option ascii) (s : string) : option groups :=
  match match_at r prev s with
  | Some (g, _) => Some g
  | None =>
      match s with
      | String c s' => search_from r (Some c) s'
      | EmptyString => None
      end
  end.

Definition search (r : re) (s : string) : option groups := search_from r None s.

(** [a1|a2|...|an] *)
Fixpoint alternatives (ls : list string) : re :=
  match ls with
  | [] => Cls (λ _, false)
  | [l] => Lit l
  | l :: ls' => Alt (Lit l) (alternatives ls')
  end.

Definition one_of (cs : string) (c : ascii) : bool :=
  Text.contains (String c EmptyString) cs.

(** [r1 r2 ... rn], one after the other *)
Fixpoint sequence (rs : list re) : re :=
  match rs with
  | [] => Lit EmptyString
  | [r] => r
  | r :: rs' => Seq r (sequence rs')
  end.

(** The most characters a match can read, when there is a bound. *)
Fixpoint max_width (r : re) : option nat :=
  match r with
  | Lit l => Some (String.length l)
  | Cls _ => Some 1%nat
  | Seq a b =>
      match max_width a, max_width b with
      | Some x, Some y => Some (x + y)%nat
      | _, _ => None
      end
  | Alt a b =>
      match max_width a, max_width b with
      | Some x, Some y => Some (Nat.max x y)
      | _, _ => None
      end
  | Rep _ hi _ => hi
  | Grp _ a => max_width a
  | Bnd => Some 0%nat
  end.

(** *** What a match is, independently of the search order *)

Fixpoint last_char (prev : option ascii) (w : string) : option ascii :=
  match w with
  | EmptyString => prev
  | String c w' => last_char (Some c) w'
  end.

Inductive Matches : re -> option ascii -> string -> groups ->
                    option ascii -> string -> groups -> Prop :=
| M_Lit l prev s g prev' s' :
    eat l prev s = Some (prev', s') ->
    Matches (Lit l) prev s g prev' s' g
| M_Cls (p : ascii -> bool) prev c s g :
    p c = true ->
    Matches (Cls p) prev (String c s) g (Some c) s g
| M_Seq a b prev s g prev1 s1 g1 prev2 s2 g2 :
    Matches a prev s g prev1 s1 g1 ->
    Matches b prev1 s1 g1 prev2 s2 g2 ->
    Matches (Seq a b) prev s g prev2 s2 g2
| M_AltL a b prev s g prev' s' g' :
    Matches a prev s g prev' s' g' ->
    Matches (Alt a b) prev s g prev' s' g'
| M_AltR a b prev s g prev' s' g' :
    Matches b prev s g prev' s' g' ->
    Matches (Alt a b) prev s g prev' s' g'
| M_RepStop hi p prev s g :
    Matches (Rep 0 hi p) prev s g prev s g
| M_RepMore lo hi (p : ascii -> bool) prev c s g prev' s' g' :
    p c = true -> may_repeat hi = true ->
    Matches (Rep (Nat.pred lo) (lower_bound hi) p) (Some c) s g prev' s' g' ->
    Matches (Rep lo hi p) prev (String c s) g prev' s' g'
| M_Grp n a prev s g prev' s' g' :
    Matches a prev s g prev' s' g' ->
    Matches (Grp n a) prev s g prev' s' ((n, consumed s s') :: g')
| M_Bnd prev s g :
    at_boundary prev s = true ->
    Matches Bnd prev s g prev s g.

(** [t] has an occurrence of [r]: at some position a match starts. *)
Definition occurs (r : re) (t : string) : Prop :=
  ∃ (before after : string) prev' s' g',
    t = before +:+ after ∧
    Matches r (last_char None before) after [] prev' s' g'.

End Regex.

(** ** Intent detection: [parse_year_month_from_text] and the [chat] router *)

Module Intent.
Import Regex.

(** The dictionary [MONTH_MAP], in the order it is written: the order of
    its keys is the order of the alternatives in the patterns. *)
Definition MONTH_MAP : list (string * Z) :=
  [ ("january", 1); ("jan", 1); ("february", 2); ("feb", 2); ("march", 3); ("mar", 3);
    ("april", 4); ("apr", 4); ("may", 5); ("june", 6); ("jun", 6); ("july", 7); ("jul", 7);
    ("august", 8); ("aug", 8); ("september", 9); ("sep", 9); ("sept", 9);
    ("october", 10); ("oct", 10); ("november", 11); ("nov", 11); ("december", 12); ("dec", 12) ].

Definition month_names : list string := fst <$> MONTH_MAP.

(** [MONTH_MAP[name]]; [None] stands for [KeyError]. *)
Fixpoint lookup_month (name : string) (table : list (string * Z)) : option Z :=
  match table with
  | [] => None
  | (k, v) :: table' => if String.eqb k name then Some v else lookup_month name table'
  end.

(** [(20\d{2})] as group [n] *)
Definition year_group (n : nat) : re :=
  Grp n (Seq (Lit "20") (Rep 2 (Some 2%nat) Text.is_digit)).

(** [(january|jan|...)] as group [n] *)
Definition month_group (n : nat) : re := Grp n (alternatives month_names).

(** [[\s,]] *)
Definition space_or_comma (c : ascii) : bool := Text.is_space c || Ascii.eqb c ",".

(** [(20\d{2})[-/\.](\d{1,2})] *)
Definition numeric_pattern : re :=
  sequence [ year_group 1; Cls (one_of "-/."); Grp 2 (Rep 1 (Some 2%nat) Text.is_digit) ].

(** [\b(january|...)\b[\s,]+(20\d{2})] *)
Definition month_year_pattern : re :=
  sequence [ Bnd; month_group 1; Bnd; Rep 1 None space_or_comma; year_group 2 ].

(** [(20\d{2})[\s,]+\b(january|...)\b] *)
Definition year_month_pattern : re :=
  sequence [ year_group 1; Rep 1 None space_or_comma; Bnd; month_group 2; Bnd ].

(** What the function gives: the tuple [(year, month)], the tuple
    [(None, None)], or an exception ([m.group] of a group that did not
    take part, [MONTH_MAP] without the key). *)
Inductive extraction : Type :=
| Extracted (year month : Z)
| NoDate
| Failure.

Definition int_group (n : nat) (g : groups) : option Z :=
  Text.digits_val <$> group n g.

Definition month_name_group (n : nat) (g : groups) : option Z :=
  match group n g with
  | Some name => lookup_month name MONTH_MAP
  | None => None
  end.

Definition year_then_month (y m : option Z) : extraction :=
  match y, m with
  | Some year, Some month => Extracted year month
  | _, _ => Failure
  end.

Definition third_step (t : string) : extraction :=
  match search year_month_pattern t with
  | Some g => year_then_month (int_group 1 g) (month_name_group 2 g)
  | None => NoDate
  end.

Definition second_step (t : string) : extraction :=
  match search month_year_pattern t with
  | Some g => year_then_month (int_group 2 g) (month_name_group 1 g)
  | None => third_step t
  end.

Definition parse_year_month_from_text (text : string) : extraction :=
  let t := Text.lower text in
  match search numeric_pattern t with
  | Some g =>
      match int_group 1 g, int_group 2 g with
      | Some year, Some month =>
          if (1 <=? month) && (month <=? 12) then Extracted year month
          else second_step t
      | _, _ => Failure
      end
  | None => second_step t
  end.

Definition revenue_keywords : list string :=
  [ "total sales"; "sum of sales"; "aggregate sales"; "revenue";
    "sales amount"; "total revenue"; "how much sales"; "overall sales" ].

Definition volume_keywords : list string :=
  [ "total units"; "units sold"; "sales volume"; "quantity sold";
    "total quantity"; "overall volume" ].

(** [any(k in t for k in keywords)] *)
Definition any_in (keywords : list string) (t : string) : bool :=
  existsb (λ k, Text.contains k t) keywords.

Definition is_revenue_aggregation (text : string) : bool :=
  any_in revenue_keywords (Text.lower text).

Definition is_volume_aggregation (text : string) : bool :=
  any_in volume_keywords (Text.lower text).

(** The pipeline [chat] hands the question to, with the arguments of
    the aggregation call. *)
Inductive route : Type :=
| RevenueAggregation (year month : Z)   (* aggregate_sales(year, month, collection) *)
| VolumeAggregation (year month : Z)    (* aggregate_volume(year, month, collection) *)
| Retrieval                             (* retrieve_hits(question, ...) *)
| Unhandled.                            (* an exception leaves the handler *)

(** [year and month] on two integers. *)
Definition both_truthy (year month : Z) : bool := negb (year =? 0) && negb (month =? 0).

Definition chat (question : string) : route :=
  match parse_year_month_from_text question with
  | Failure => Unhandled
  | NoDate => Retrieval
  | Extracted year month =>
      if is_revenue_aggregation question && both_truthy year month
      then RevenueAggregation year month
      else if is_volume_aggregation question && both_truthy year month
      then VolumeAggregation year month
      else Retrieval
  end.

(** The four characters of a year the patterns accept. *)
Definition year_text (d1 d2 : ascii) : string :=
  String "2" (String "0" (String d1 (String d2 EmptyString))).

(** What the extraction can give: no exception, a year of this century,
    a month of the calendar. *)
Definition well_formed (e : extraction) : Prop :=
  match e with
  | Extracted y m => 2000 <= y <= 2099 ∧ 1 <= m <= 12
  | NoDate => True
  | Failure => False
  end.


(** The text holds one of the keywords, whatever the case of its letters. *)
Definition mentions (keywords : list string) (text : string) : Prop :=
  ∃ k before after, In k keywords ∧ Text.lower text = before +:+ k +:+ after.


End Intent.

(** ** Ingestion: [normalize_metadata] of [embed.py] *)

Module Embed.
Import Regex.

(** The values a source row holds: [None], booleans, integers, floats,
    strings, [datetime.date] and [datetime.datetime]. *)
Inductive value : Type :=
| VNone
| VBool (b : bool)
| VInt (n : Z)
| VFloat (f : PyFloat.float)
| VStr (s : string)
| VDate (year month day : Z)
| VDateTime (year month day hour minute second microsecond : Z).

Definition is_none (v : value) : bool :=
  match v with VNone => true | _ => false end.

Record schema : Type := mk_schema {
  class : string;
  vectorizer : string;
  properties : list (string * list string)   (* name, dataType *)
}.

Definition SCHEMAS : list (string * schema) :=
  [ ("product_cost",
     mk_schema "product_cost_staging" "none"
       [ ("month_year", ["date"]); ("sales_vol", ["int"]); ("sum_profit", ["number"]);
         ("cost_per_unit", ["string"]); ("rsp_per_unit", ["string"]);
         ("product_name", ["string"]) ]);
    ("transactions_main",
     mk_schema "transactions_main_staging" "none"
       [ ("sub_category", ["string"]); ("city", ["string"]); ("order_id", ["string"]);
         ("sales", ["string"]); ("product_name", ["string"]); ("country", ["string"]);
         ("state", ["string"]); ("quantity", ["int"]); ("product_id", ["string"]);
         ("ship_date", ["date"]); ("discount", ["number"]); ("postal_code", ["string"]);
         ("ship_mode", ["string"]); ("customer_name", ["string"]); ("month_year", ["date"]);
         ("region", ["string"]); ("order_date", ["date"]); ("customer_id", ["string"]);
         ("segment", ["string"]); ("category", ["string"]); ("profit", ["number"]);
         ("row_id", ["int"]) ]);
    ("target_cost",
     mk_schema "target_cost_staging" "none"
       [ ("target_cost", ["string"]); ("product_name", ["string"]); ("month_year", ["date"]) ]);
    ("sales_vol",
     mk_schema "sales_vol_staging" "none"
       [ ("sales", ["string"]); ("product_name", ["string"]); ("sales_vol", ["int"]);
         ("month_year", ["date"]) ]);
    ("product_inventory_init",
     mk_schema "product_inventory_init_staging" "none"
       [ ("product_name", ["string"]); ("inventory_stock_init", ["int"]);
         ("month_year", ["date"]) ]) ].

(** [{p["name"]: p["dataType"][0] for p in props}]; every [dataType] of
    [SCHEMAS] has a first element. *)
Definition property_types (props : list (string * list string)) : gmap string string :=
  foldl (λ acc p, match p.2 with
                  | t :: _ => <[p.1 := t]> acc
                  | [] => acc
                  end) ∅ props.

Definition build_type_map (schemas : list (string * schema)) : gmap string (gmap string string) :=
  foldl (λ type_map tc, <[class tc.2 := property_types (properties tc.2)]> type_map) ∅ schemas.

Definition TYPE_MAP : gmap string (gmap string string) := build_type_map SCHEMAS.

(** [dt.strftime("%Y-%m-%dT%H:%M:%SZ")], the year on four digits. *)
Definition strftime_z (d : Calendar.datetime) : string :=
  Text.pad4 (Calendar.dt_year d) +:+ "-" +:+ Text.pad2 (Calendar.dt_month d) +:+ "-"
  +:+ Text.pad2 (Calendar.dt_day d) +:+ "T" +:+ Text.pad2 (Calendar.dt_hour d) +:+ ":"
  +:+ Text.pad2 (Calendar.dt_minute d) +:+ ":" +:+ Text.pad2 (Calendar.dt_second d) +:+ "Z".

(** [excel_serial_to_date(serial)]: days counted from 1899-12-30;
    [None] when the sum leaves the range of [datetime]. *)
Definition excel_serial_to_date (serial : Z) : option string :=
  let ordinal := Calendar.ymd2ord 1899 12 30 + serial in
  if (0 <? ordinal) && (ordinal <=? Calendar.MAXORDINAL)
  then
    let '(y, m, d) := Calendar.ord2ymd ordinal in
    Some (strftime_z (Calendar.mk_datetime y m d 0 0 0))
  else None.

Definition digit_range (lo hi : Z) (c : ascii) : bool := Text.between (48 + lo) (48 + hi) c.

(** The pattern [strptime] builds for ["%Y-%m-%d"]:
    [(\d\d\d\d)-(1[0-2]|0[1-9]|[1-9])-(3[0-1]|[1-2]\d|0[1-9]|[1-9]| [1-9])] *)
Definition ymd_pattern : re :=
  sequence
    [ Grp 1 (sequence [Cls Text.is_digit; Cls Text.is_digit; Cls Text.is_digit; Cls Text.is_digit]);
      Lit "-";
      Grp 2 (Alt (Seq (Lit "1") (Cls (digit_range 0 2)))
            (Alt (Seq (Lit "0") (Cls (digit_range 1 9)))
                 (Cls (digit_range 1 9))));
      Lit "-";
      Grp 3 (Alt (Seq (Lit "3") (Cls (digit_range 0 1)))
            (Alt (Seq (Cls (digit_range 1 2)) (Cls Text.is_digit))
            (Alt (Seq (Lit "0") (Cls (digit_range 1 9)))
            (Alt (Cls (digit_range 1 9))
                 (Seq (Lit " ") (Cls (digit_range 1 9))))))) ].

(** [int(w)] on a matched group: white space around the digits is dropped. *)
Definition int_of_group (n : nat) (g : groups) : option Z :=
  (λ w, Text.digits_val (Text.strip w)) <$> group n g.

(** [datetime.strptime(s, "%Y-%m-%d")]: the pattern is matched at the
    start, the whole string has to be used up, and the three numbers
    have to name a day.  [None] stands for [ValueError]. *)
Definition strptime_ymd (s : string) : option Calendar.datetime :=
  match match_at ymd_pattern None s with
  | Some (g, EmptyString) =>
      match int_of_group 1 g, int_of_group 2 g, int_of_group 3 g with
      | Some y, Some m, Some d => Calendar.make_datetime y m d
      | _, _, _ => None
      end
  | _ => None
  end.

Definition FALLBACK_DATE : string := "1970-01-01T00:00:00Z".

Section Normalizer.

(** [repr] of a float, which [str] uses; the text it produces plays no
    part in what is proved. *)
Variable float_repr : PyFloat.float -> string.

Definition fraction6 (us : Z) : string :=
  Text.pad2 (us / 10000) +:+ Text.pad2 (us / 100) +:+ Text.pad2 us.

(** [str(v)] *)
Definition py_str (v : value) : string :=
  match v with
  | VNone => "None"
  | VBool b => if b then "True" else "False"
  | VInt n => pretty n
  | VFloat f => float_repr f
  | VStr s => s
  | VDate y m d => Text.pad4 y +:+ "-" +:+ Text.pad2 m +:+ "-" +:+ Text.pad2 d
  | VDateTime y m d hh mm ss us =>
      Text.pad4 y +:+ "-" +:+ Text.pad2 m +:+ "-" +:+ Text.pad2 d +:+ " "
      +:+ Text.pad2 hh +:+ ":" +:+ Text.pad2 mm +:+ ":" +:+ Text.pad2 ss
      +:+ (if us =? 0 then "" else "." +:+ fraction6 us)
  end.

(** [float(v)] *)
Definition py_float (v : value) : option PyFloat.float :=
  match v with
  | VBool b => Some (PyFloat.of_Z (if b then 1 else 0))
  | VInt n => PyFloat.of_int n
  | VFloat f => Some f
  | VStr s => PyFloat.of_str s
  | VNone | VDate _ _ _ | VDateTime _ _ _ _ _ _ _ => None
  end.

(** [int(v)] on an [int] or a [float] *)
Definition py_int (v : value) : option Z :=
  match v with
  | VBool b => Some (if b then 1 else 0)
  | VInt n => Some n
  | VFloat f => PyFloat.to_int f
  | _ => None
  end.

(** The [date] branch of the [try] block. *)
Definition coerce_date (v : value) : option value :=
  match v with
  | VBool _ | VInt _ | VFloat _ =>
      match py_int v with
      | Some serial => VStr <$> excel_serial_to_date serial
      | None => None
      end
  | VDate y m d | VDateTime y m d _ _ _ _ =>
      Some (VStr (strftime_z (Calendar.mk_datetime y m d 0 0 0)))
  | VNone | VStr _ => (λ dt, VStr (strftime_z dt)) <$> strptime_ymd (py_str v)
  end.

(** The [try] block: [None] when it raises. *)
Definition coerce (expected : string) (v : value) : option value :=
  if String.eqb expected "date" then coerce_date v
  else if String.eqb expected "int" then
    match py_float v with
    | Some f => VInt <$> PyFloat.to_int f
    | None => None
    end
  else if String.eqb expected "number" then VFloat <$> py_float v
  else if String.eqb expected "string" then Some (VStr (py_str v))
  else Some (VStr (py_str v)).

(** The [except] block. *)
Definition fallback (expected : string) (v : value) : value :=
  if String.eqb expected "int" then VInt 0
  else if String.eqb expected "number" then VFloat PyFloat.zero
  else if String.eqb expected "date" then VStr FALLBACK_DATE
  else VStr (if is_none v then "" else py_str v).

Definition normalize_value (expected : string) (v : value) : value :=
  match coerce expected v with
  | Some x => x
  | None => fallback expected v
  end.

(** One turn of the loop on the item [(k, v)]: [None] when the item is
    passed over, else the value stored under [k]. *)
Definition normalize_item (type_for_class : gmap string string) (k : string) (v : value)
    : option value :=
  if is_none v then None
  else
    match type_for_class !! k with
    | None => None
    | Some expected => Some (normalize_value expected v)
    end.

(** [normalize_metadata] against a given type map. *)
Definition normalize_with (type_map : gmap string (gmap string string))
    (doc : gmap string value) (class_name : string) : gmap string value :=
  let type_for_class := default ∅ (type_map !! class_name) in
  map_imap (normalize_item type_for_class) doc.

Definition normalize_metadata (doc : gmap string value) (class_name : string)
    : gmap string value :=
  normalize_with TYPE_MAP doc class_name.

End Normalizer.

(** [+HH:MM] or [-HH:MM] *)
Definition is_offset (s : string) : bool :=
  match s with
  | String sg (String h1 (String h2 (String c (String m1 (String m2 EmptyString))))) =>
      (Ascii.eqb sg "+" || Ascii.eqb sg "-") && Ascii.eqb c ":"
      && forallb Text.is_digit [h1; h2; m1; m2]
  | _ => false
  end.

Definition is_zone (s : string) : bool :=
  String.eqb s "Z" || String.eqb s "z" || is_offset s.

(** An optional fraction of a second, then the zone. *)
Definition is_fraction_zone (s : string) : bool :=
  match s with
  | String c frac =>
      if Ascii.eqb c "."
      then
        let '(digits, zone) := Text.span_digits frac in
        negb (String.eqb digits "") && is_zone zone
      else is_zone s
  | EmptyString => false
  end.

(** [HH:MM:SS], an optional fraction, then [Z] or an offset. *)
Definition is_time_tail (s : string) : bool :=
  match s with
  | String h1 (String h2 (String c1 (String m1 (String m2 (String c2
      (String s1 (String s2 rest))))))) =>
      forallb Text.is_digit [h1; h2; m1; m2; s1; s2]
      && Ascii.eqb c1 ":" && Ascii.eqb c2 ":"
      && is_fraction_zone rest
  | _ => false
  end.

(** A full RFC 3339 timestamp: [YYYY-MM-DD], a [T], the time, the zone. *)
Definition is_rfc3339 (s : string) : bool :=
  match s with
  | String y1 (String y2 (String y3 (String y4 (String c1 (String m1 (String m2
      (String c2 (String d1 (String d2 (String t rest)))))))))) =>
      forallb Text.is_digit [y1; y2; y3; y4; m1; m2; d1; d2]
      && Ascii.eqb c1 "-" && Ascii.eqb c2 "-"
      && (Ascii.eqb t "T" || Ascii.eqb t "t")
      && is_time_tail rest
  | _ => false
  end.

End Embed.

(** ** Sample store replies *)

Module Samples.

(** A point of a scroll page with the given payload. *)
Definition point (payload : gmap string json) : json :=
  JDict (<["payload" := JDict payload]> ∅).

(** A scroll response [{"result": {"points": [...], "next_page_offset": c}}]. *)
Definition page (points : list json) (cursor : json) : http_reply :=
  Reply 200 (Some (JDict (<["result" :=
    JDict (<["points" := JList points]> (<["next_page_offset" := cursor]> ∅))]> ∅))).

(** One field with one value. *)
Definition field (k : string) (v : json) : gmap string json := <[k := v]> ∅.

(** The float 1200.0: 5277655813324800 * 2^-42. *)
Definition f1200 : PyFloat.float := S754_finite false 5277655813324800 (-42).

End Samples.

(** ** The rest of [main.py]: health check, retrieval, context, responses *)

Module Service.
Import Search Aggregate.

(** [len(j)]; [None] stands for [TypeError]. *)
Definition py_len (j : json) : option Z :=
  match j with
  | JList l => Some (Z.of_nat (List.length l))
  | JStr s => Some (Z.of_nat (String.length s))
  | JDict d => Some (Z.of_nat (size d))
  | JNull | JBool _ | JInt _ | JFloat _ => None
  end.

(** What [/health] answers: [{"status": "ok", "collections_count": n}], or
    the error body with status 500. *)
Inductive health_response : Type :=
| HealthOk (collections_count : Z)
| HealthError.

(** [health()] on the reply of [GET /collections]. *)
Definition health (r : http_reply) : health_response :=
  match r with
  | Unreachable => HealthError
  | Reply status body =>
      if is_error_status status then HealthError
      else
        match body with
        | None => HealthError
        | Some data =>
            let collections :=
              match data with
              | JDict d => dict_get "collections" d
              | _ => JList []
              end in
            match py_len collections with
            | Some n => HealthOk n
            | None => HealthError
            end
        end
  end.

(** [retrieve_hits]: [embedding] is what [embed_query] gives, [None] when
    it raises; the result comes with the endpoints that were called. *)
Definition retrieve_hits (embedding : option (list PyFloat.float))
    (store : endpoint -> http_reply) : list hit * list endpoint :=
  match embedding with
  | None => ([], [])
  | Some _ =>
      match http_search_collection store with
      | (Hits hits, calls) => (hits, calls)
      | (RuntimeError, calls) => ([], calls)
      end
  end.

(** ["\n".join(lines)] *)
Fixpoint join_lines (lines : list string) : string :=
  match lines with
  | [] => EmptyString
  | [l] => l
  | l :: rest => l +:+ String (ascii_of_nat 10) (join_lines rest)
  end.

Section Rendering.

(** [repr] of the values whose text is not fixed here: floats, lists and
    dictionaries. *)
Variable repr : json -> string.

(** [str(j)], as an f-string applies it. *)
Definition py_str (j : json) : string :=
  match j with
  | JStr s => s
  | JInt n => pretty n
  | JBool b => if b then "True" else "False"
  | JNull => "None"
  | JFloat _ | JList _ | JDict _ => repr j
  end.

(** One line of the context; [None] when [payload.get] raises, the
    payload being neither false nor a dictionary. *)
Definition context_line (h : hit) : option string :=
  match py_or (hit_payload h) empty_dict with
  | JDict payload =>
      let product_name :=
        py_or (py_or (dict_get "product_name" payload) (dict_get "product" payload))
              (JStr "Unknown product") in
      let sales :=
        py_or (py_or (dict_get "sales" payload) (dict_get "sales_amount" payload))
              (JStr "N/A") in
      let month_year :=
        py_or (py_or (dict_get "month_year" payload) (dict_get "date" payload))
              (JStr "Unknown date") in
      let sales_vol :=
        py_or (py_or (py_or (dict_get "sales_vol" payload) (dict_get "quantity" payload))
                     (dict_get "sales_volume" payload))
              (JStr "N/A") in
      Some ("- " +:+ py_str product_name +:+ ": sales=" +:+ py_str sales
            +:+ ", date=" +:+ py_str month_year +:+ ", volume=" +:+ py_str sales_vol)
  | _ => None
  end.

(** The list [lines] the loop builds; [None] when a turn raises. *)
Fixpoint context_lines (hits : list hit) : option (list string) :=
  match hits with
  | [] => Some []
  | h :: rest =>
      match context_line h with
      | None => None
      | Some l =>
          match context_lines rest with
          | None => None
          | Some ls => Some (l :: ls)
          end
      end
  end.

Definition build_context_from_hits (hits : list hit) : option string :=
  match context_lines hits with
  | Some ls => Some (join_lines ls)
  | None => None
  end.

(** The text of a response of [/chat]. *)
Inductive answer : Type :=
| ModelText (content : string)     (* completion.choices[0].message.content *)
| RevenueLine (year month : Z) (total : PyFloat.float) (records : Z)
                                   (* "Total revenue in {year}-{month:02d}: ..." *)
| VolumeLine (year month : Z) (total : PyFloat.float) (records : Z)
                                   (* "Total units in {year}-{month:02d}: ..." *)
| AggregationError (d : detail)    (* "Aggregation error: {e.detail}" *)
| NoRecords                        (* "No relevant records found. ..." *)
| RecordsRetrieved.                (* "I retrieved relevant records. ..." *)

(** [PlainTextResponse(answer, status_code=...)], or an exception that
    leaves the handler. *)
Inductive chat_result : Type :=
| PlainTextResponse (text : answer) (status_code : Z)
| Escaped.

(** What a call of [/chat] did on the network: the scroll bodies posted,
    the search endpoints called, the calls of the chat model. *)
Record traffic : Type := mk_traffic {
  scroll_posts : list json;
  search_calls : list endpoint;
  model_calls : nat
}.

(** The [try] around the chat model: its text, or the fixed line. *)
Definition model_or (llm : option string) (fixed : answer) : answer :=
  match llm with
  | Some content => ModelText content
  | None => fixed
  end.

(** The handler of [/chat]: [replies] are the scroll replies of the store,
    [store] its search endpoints, [embedding] what [embed_query] gives and
    [llm] what the chat model answers, [None] when the call raises. *)
Definition chat_response (question collection : string) (replies : list http_reply)
    (embedding : option (list PyFloat.float)) (store : endpoint -> http_reply)
    (llm : option string) : chat_result * traffic :=
  match Intent.chat question with
  | Intent.Unhandled => (Escaped, mk_traffic [] [] 0)
  | Intent.RevenueAggregation y m =>
      match aggregate_sales y m collection replies with
      | (Returned s, sent) =>
          (PlainTextResponse
             (model_or llm (RevenueLine y m (total_value s) (records_aggregated s))) 200,
           mk_traffic sent [] 1)
      | (HTTPException code d, sent) =>
          (PlainTextResponse (AggregationError d) code, mk_traffic sent [] 0)
      end
  | Intent.VolumeAggregation y m =>
      match aggregate_volume y m collection replies with
      | (Returned s, sent) =>
          (PlainTextResponse
             (model_or llm (VolumeLine y m (total_value s) (records_aggregated s))) 200,
           mk_traffic sent [] 1)
      | (HTTPException code d, sent) =>
          (PlainTextResponse (AggregationError d) code, mk_traffic sent [] 0)
      end
  | Intent.Retrieval =>
      let '(hits, calls) := retrieve_hits embedding store in
      match hits with
      | [] => (PlainTextResponse (model_or llm NoRecords) 200, mk_traffic [] calls 1)
      | _ :: _ =>
          match build_context_from_hits hits with
          | None => (Escaped, mk_traffic [] calls 0)
          | Some _ =>
              (PlainTextResponse (model_or llm RecordsRetrieved) 200, mk_traffic [] calls 1)
          end
      end
  end.

End Rendering.

(** The payloads of the page a reply carries, as the generator yields
    them; none when the turn raises. *)
Definition page_payloads (r : http_reply) : list json :=
  match scroll_turn r with
  | TurnBreak yields | TurnNext yields _ => yields
  | TurnRaise _ => []
  end.

(** The text [chat] prints for a month: [f"{year}-{month:02d}"], for a
    year of four digits. *)
Definition year_month_text (year month : Z) : string :=
  Text.pad4 year +:+ "-" +:+ Text.pad2 month.

(** The loop counts the payload as aggregated: the selected value is not
    null and reads as a finite float. *)
Definition aggregated (candidate : json -> option json) (payload : json) : bool :=
  match candidate payload with
  | Some v =>
      negb (is_none v)
      && match Aggregate.parse_value v with
         | Some val => PyFloat.isfinite val
         | None => false
         end
  | None => false
  end.

End Service.

(** ** The rest of [embed.py]: batches and point identifiers *)

Module Ingest.
Import Embed.

(** [range(start, stop, step)] for a positive [step], at most [fuel]
    elements. *)
Fixpoint range_from (fuel start stop step : nat) : list nat :=
  match fuel with
  | O => []
  | S fuel' =>
      if (start <? stop)%nat then start :: range_from fuel' (start + step) stop step
      else []
  end.

(** [rows[i:i+batch_size]] *)
Definition slice {A : Type} (rows : list A) (i batch_size : nat) : list A :=
  firstn batch_size (skipn i rows).

(** [(len(rows) + batch_size - 1) // batch_size]; [None] stands for
    [ZeroDivisionError]. *)
Definition total_batches (n : nat) (batch_size : Z) : option Z :=
  if batch_size =? 0 then None else Some ((Z.of_nat n + batch_size - 1) / batch_size).

(** The chunks the loop of [populate_index_batch] embeds, in order:
    [rows[i:i+batch_size] for i in range(0, len(rows), batch_size)].  The
    division above raises first for a batch size of 0; a negative step
    gives an empty range. *)
Definition batches {A : Type} (rows : list A) (batch_size : Z) : option (list (list A)) :=
  if batch_size =? 0 then None
  else if batch_size <? 0 then Some []
  else
    let b := Z.to_nat batch_size in
    Some ((λ i, slice rows i b) <$> range_from (List.length rows) 0 (List.length rows) b).

(** The most digits [int(s)] and [str(n)] convert (the default of
    [sys.set_int_max_str_digits]). *)
Definition MAX_STR_DIGITS : Z := 4300.

(** [int(s)] for a text: white space around it is dropped, then a sign
    and decimal digits, underscores between digits allowed. *)
Definition int_of_str (s : string) : option Z :=
  match PyFloat.drop_underscores None (Text.strip s) with
  | None => None
  | Some t =>
      let '(neg, body) := PyFloat.split_sign t in
      let '(digits, rest) := Text.span_digits body in
      match digits, rest with
      | String _ _, EmptyString =>
          if Z.of_nat (String.length digits) <=? MAX_STR_DIGITS
          then Some (cond_Zopp neg (Text.digits_val digits))
          else None
      | _, _ => None
      end
  end.

(** [int(v)] for any value of a record. *)
Definition int_of_value (v : value) : option Z :=
  match v with
  | VBool b => Some (if b then 1 else 0)
  | VInt n => Some n
  | VFloat f => PyFloat.to_int f
  | VStr s => int_of_str s
  | VNone | VDate _ _ _ | VDateTime _ _ _ _ _ _ _ => None
  end.

(** [str(n)] for an integer: [ValueError] past the digit limit. *)
Definition str_of_int (n : Z) : option string :=
  if Z.abs n <? 10 ^ MAX_STR_DIGITS then Some (pretty n) else None.

(** The identifier [populate_index_batch] gives a row: the decimal text of
    [int(meta["row_id"])] when the key is there and the conversions go
    through, else [fresh], the text of a new UUID. *)
Definition point_id (meta : gmap string value) (fresh : string) : string :=
  match meta !! "row_id" with
  | Some v =>
      match int_of_value v with
      | Some pid => default fresh (str_of_int pid)
      | None => fresh
      end
  | None => fresh
  end.

(** ** The points of a batch *)

Definition VECTOR_SIZE : Z := 1536.

(** [qm.PointStruct(id=pid, vector=vec, payload=pl)] *)
Record point_struct : Type := mk_point {
  point_ident : string;
  point_vector : list PyFloat.float;
  point_meta : gmap string value
}.

(** [zip(ids, vectors, payloads)]: as long as the shortest of the three. *)
Fixpoint zip_points (ids : list string) (vectors : list (list PyFloat.float))
    (payloads : list (gmap string value)) : list point_struct :=
  match ids, vectors, payloads with
  | pid :: ids', vec :: vectors', pl :: payloads' =>
      mk_point pid vec pl :: zip_points ids' vectors' payloads'
  | _, _, _ => []
  end.

(** The points of one batch, from the vectors the embedder gave back:
    [None] stands for the [ValueError] of the dimension check. *)
Definition batch_points (ids : list string) (vectors : list (list PyFloat.float))
    (payloads : list (gmap string value)) : option (list point_struct) :=
  if forallb (fun vec => Z.of_nat (length vec) =? VECTOR_SIZE) vectors
  then Some (zip_points ids vectors payloads)
  else None.

End Ingest.

(** ** Checks by enumeration *)

Module Checks.
Import Intent Service.

(** The years and months the router can extract. *)
Definition century_years : list Z := (λ k, 2000 + Z.of_nat k) <$> seq 0 100.

Definition calendar_months : list Z := (λ k, 1 + Z.of_nat k) <$> seq 0 12.

Definition parses_to (y m : Z) (text : string) : bool :=
  match parse_year_month_from_text text with
  | Extracted y' m' => (y' =? y) && (m' =? m)
  | NoDate | Failure => false
  end.

Definition month_texts_parse_back (y m : Z) : bool :=
  parses_to y m (year_month_text y m)
  && match Calendar.iso_month_range y m with
     | Some (start_iso, end_iso) => parses_to y m start_iso && parses_to y m end_iso
     | None => false
     end.

(** The days of a year, numbered from 0. *)
Definition year_days : list Z := Z.of_nat <$> seq 0 366.

(** [month_day] names a day of the calendar, the one numbered [k]. *)
Definition month_day_ok (leap : bool) (k : Z) : bool :=
  let '(m, d) := Calendar.month_day leap k in
  (1 <=? m) && (m <=? 12) && (1 <=? d)
  && (d <=? Calendar.DAYS_IN_MONTH m + (if (m =? 2) && leap then 1 else 0))
  && (Calendar.DAYS_BEFORE_MONTH m + (if (2 <? m) && leap then 1 else 0) + d =? k + 1).

End Checks.

(** * Facts *)

(** ** Calendar *)

Section CalendarFacts.
Import Calendar.

Lemma days_before_year_split a b c e :
  0 <= b < 4 -> 0 <= c < 25 -> 0 <= e < 4 ->
  days_before_year (400 * a + 100 * b + 4 * c + e + 1)
  = DI400Y * a + DI100Y * b + DI4Y * c + 365 * e.
Proof.
  intros Hb Hc He. unfold days_before_year, DI400Y, DI100Y, DI4Y.
  Z.div_mod_to_equations. lia.
Qed.

Lemma is_leap_split a b c e :
  0 <= b < 4 -> 0 <= c < 25 -> 0 <= e < 4 ->
  is_leap (400 * a + 100 * b + 4 * c + e + 1)
  = (e =? 3) && (negb (c =? 24) || (b =? 3)).
Proof.
  intros Hb Hc He. unfold is_leap.
  assert (H4 : (400 * a + 100 * b + 4 * c + e + 1) mod 4 = (e + 1) mod 4).
  { Z.div_mod_to_equations. lia. }
  assert (H100 : (400 * a + 100 * b + 4 * c + e + 1) mod 100 = (4 * c + e + 1) mod 100).
  { Z.div_mod_to_equations. lia. }
  assert (H400 : (400 * a + 100 * b + 4 * c + e + 1) mod 400 = (100 * b + 4 * c + e + 1) mod 400).
  { Z.div_mod_to_equations. lia. }
  rewrite H4, H100, H400.
  assert (b = 0 \/ b = 1 \/ b = 2 \/ b = 3) as Hb' by lia.
  assert (e = 0 \/ e = 1 \/ e = 2 \/ e = 3) as He' by lia.
  destruct (Z.eqb_spec e 3) as [->|Hne].
  - destruct (Z.eqb_spec c 24) as [->|Hc24].
    + destruct Hb' as [->|[->|[->| ->]]]; reflexivity.
    + simpl. replace ((3 + 1) mod 4) with 0 by reflexivity. simpl.
      assert ((4 * c + 3 + 1) mod 100 <> 0) by (Z.div_mod_to_equations; lia).
      destruct (Z.eqb_spec ((4 * c + 3 + 1) mod 100) 0); [contradiction|]. reflexivity.
  - assert ((e + 1) mod 4 <> 0) by (Z.div_mod_to_equations; lia).
    destruct (Z.eqb_spec ((e + 1) mod 4) 0); [contradiction|]. reflexivity.
Qed.

Lemma year_digits y : 1 <= y ->
  exists a b c e, 0 <= a /\ 0 <= b < 4 /\ 0 <= c < 25 /\ 0 <= e < 4 /\
                  y = 400 * a + 100 * b + 4 * c + e + 1.
Proof.
  intros Hy.
  exists ((y - 1) / 400), ((y - 1) mod 400 / 100), ((y - 1) mod 100 / 4), ((y - 1) mod 4).
  Z.div_mod_to_equations. lia.
Qed.


Lemma divmod_unique n d q r :
  0 <= r < d -> n = d * q + r -> n / d = q /\ n mod d = r.
Proof.
  intros Hr Hn. split; symmetry.
  - apply (Z.div_unique_pos n d q r); assumption.
  - apply (Z.mod_unique_pos n d q r); assumption.
Qed.

Lemma ord2ymd_digits a b c e k :
  0 <= b < 4 -> 0 <= c < 25 -> 0 <= e < 4 ->
  0 <= k < 365 + (if (e =? 3) && (negb (c =? 24) || (b =? 3)) then 1 else 0) ->
  ord2ymd (DI400Y * a + DI100Y * b + DI4Y * c + 365 * e + k + 1)
  = let '(m, d) := month_day ((e =? 3) && (negb (c =? 24) || (b =? 3))) k in
    (400 * a + 100 * b + 4 * c + e + 1, m, d).
Proof.
  intros Hb Hc He Hk. unfold ord2ymd, DI400Y, DI100Y, DI4Y in *.
  replace (146097 * a + 36524 * b + 1461 * c + 365 * e + k + 1 - 1)
    with (146097 * a + 36524 * b + 1461 * c + 365 * e + k) by lia.
  assert (Hk365 : k <= 364 \/ k = 365 /\ e = 3 /\ (c <> 24 \/ b = 3)).
  { destruct (Z.eqb_spec e 3), (Z.eqb_spec c 24), (Z.eqb_spec b 3); simpl in Hk; lia. }
  destruct (divmod_unique (146097 * a + 36524 * b + 1461 * c + 365 * e + k) 146097 a
              (36524 * b + 1461 * c + 365 * e + k)) as [D1 M1]; [lia | lia |].
  cbv zeta. rewrite D1, M1.
  destruct Hk365 as [Hk364 | (-> & -> & Hcb)].
  - destruct (divmod_unique (36524 * b + 1461 * c + 365 * e + k) 36524 b
                (1461 * c + 365 * e + k)) as [D2 M2]; [lia | lia |].
    rewrite D2, M2.
    destruct (divmod_unique (1461 * c + 365 * e + k) 1461 c (365 * e + k)) as [D3 M3]; [lia | lia |].
    rewrite D3, M3.
    destruct (divmod_unique (365 * e + k) 365 e k) as [D4 M4]; [lia | lia |].
    rewrite D4, M4.
    destruct (Z.eqb_spec e 4); [lia|]. destruct (Z.eqb_spec b 4); [lia|]. simpl orb. cbv iota.
    unfold month_day. cbv zeta.
    destruct (k <? _); f_equal; f_equal; lia.
  - destruct (Z.eq_dec c 24) as [-> | Hc24].
    + assert (b = 3) as -> by lia.
      change (36524 * 3 + 1461 * 24 + 365 * 3 + 365) with 146096.
      change (146096 / 36524) with 4. change (146096 mod 36524) with 0.
      change (4 =? 4) with true. rewrite orb_true_r. cbv iota.
      change (0 / 1461) with 0. change (0 / 365) with 0.
      change (month_day ((3 =? 3) && (negb (24 =? 24) || (3 =? 3))) 365) with (12, 31).
      cbv iota beta. change (0 mod 1461 / 365) with 0. f_equal. f_equal. lia.
    + destruct (divmod_unique (36524 * b + 1461 * c + 365 * 3 + 365) 36524 b
                  (1461 * c + 365 * 3 + 365)) as [D2 M2]; [lia | lia |].
      rewrite D2, M2.
      destruct (divmod_unique (1461 * c + 365 * 3 + 365) 1461 c 1460) as [D3 M3]; [lia | lia |].
      rewrite D3, M3. change (1460 / 365) with 4. change (4 =? 4) with true. cbv iota. simpl orb. cbv iota.
      destruct (Z.eqb_spec c 24); [contradiction|]. simpl.
      f_equal. f_equal. lia.
Qed.

Lemma month_end_roundtrip y m :
  1 <= y -> 1 <= m <= 12 ->
  ord2ymd (ymd2ord y m (days_in_month y m)) = (y, m, days_in_month y m).
Proof.
  intros Hy Hm.
  destruct (year_digits y Hy) as (a & b & c & e & Ha & Hb & Hc & He & ->).
  unfold ymd2ord, days_before_month, days_in_month.
  rewrite days_before_year_split, is_leap_split by assumption.
  pose proof (ord2ymd_digits a b c e) as Hdig.
  destruct ((e =? 3) && (negb (c =? 24) || (b =? 3))) eqn:Hleap;
  assert (Hcases : m = 1 \/ m = 2 \/ m = 3 \/ m = 4 \/ m = 5 \/ m = 6 \/ m = 7 \/
                   m = 8 \/ m = 9 \/ m = 10 \/ m = 11 \/ m = 12) by lia;
  repeat (destruct Hcases as [-> | Hcases]); try subst m;
  cbn [DAYS_BEFORE_MONTH DAYS_IN_MONTH Z.ltb Z.eqb Z.compare Pos.compare Pos.compare_cont Pos.eqb andb];
  match goal with
  | |- ord2ymd (?base + ?k + ?d) = _ =>
      replace (base + k + d) with (base + (k + d - 1) + 1) by lia;
      rewrite Hdig by (assumption || (cbn; lia)); reflexivity
  end.
Qed.

Lemma days_before_next_year y :
  days_before_year (y + 1) = days_before_year y + 365 + (if is_leap y then 1 else 0).
Proof.
  unfold days_before_year, is_leap.
  replace (y + 1 - 1) with y by lia.
  destruct (Z.eqb_spec (y mod 4) 0), (Z.eqb_spec (y mod 100) 0), (Z.eqb_spec (y mod 400) 0);
    cbn [andb orb negb]; Z.div_mod_to_equations; lia.
Qed.



Lemma next_month_ordinal y m :
  1 <= m <= 12 ->
  to_seconds (next_month_start y m) = to_seconds (month_end y m) + 1.
Proof.
  intros Hm. unfold next_month_start, month_end, to_seconds, ymd2ord. cbn [dt_year dt_month dt_day dt_hour dt_minute dt_second].
  destruct (Z.eqb_spec m 12) as [-> | Hne].
  - cbn [dt_year dt_month dt_day dt_hour dt_minute dt_second].
    rewrite days_before_next_year. unfold days_before_month, days_in_month.
    destruct (is_leap y); cbn; lia.
  - cbn [dt_year dt_month dt_day dt_hour dt_minute dt_second].
    unfold days_before_month, days_in_month.
    assert (Hcases : m = 1 \/ m = 2 \/ m = 3 \/ m = 4 \/ m = 5 \/ m = 6 \/ m = 7 \/
                     m = 8 \/ m = 9 \/ m = 10 \/ m = 11) by lia.
    repeat (destruct Hcases as [-> | Hcases]); try subst m; destruct (is_leap y);
      match goal with
      | |- context [Z.pos ?a + 1] =>
          let v := eval vm_compute in (Z.pos a + 1) in change (Z.pos a + 1) with v
      end;
      cbn [DAYS_BEFORE_MONTH DAYS_IN_MONTH Z.ltb Z.eqb Z.compare Pos.compare
           Pos.compare_cont Pos.eqb andb]; lia.
Qed.

Lemma days_in_month_bounds y m : 1 <= m <= 12 -> 28 <= days_in_month y m <= 31.
Proof.
  intros Hm. unfold days_in_month.
  assert (Hcases : m = 1 \/ m = 2 \/ m = 3 \/ m = 4 \/ m = 5 \/ m = 6 \/ m = 7 \/
                   m = 8 \/ m = 9 \/ m = 10 \/ m = 11 \/ m = 12) by lia.
  repeat (destruct Hcases as [-> | Hcases]); try subst m; destruct (is_leap y); cbn; lia.
Qed.

Lemma month_end_ordinal_bounds y m :
  1 <= y <= 9999 -> 1 <= m <= 12 ->
  0 < ymd2ord y m (days_in_month y m) <= MAXORDINAL.
Proof.
  intros Hy Hm. unfold ymd2ord, days_before_month, days_in_month, MAXORDINAL, days_before_year.
  assert (Hcases : m = 1 \/ m = 2 \/ m = 3 \/ m = 4 \/ m = 5 \/ m = 6 \/ m = 7 \/
                   m = 8 \/ m = 9 \/ m = 10 \/ m = 11 \/ m = 12) by lia.
  assert (Hleap : is_leap y = true -> y mod 4 = 0).
  { unfold is_leap. destruct (Z.eqb_spec (y mod 4) 0); [tauto | discriminate]. }
  repeat (destruct Hcases as [-> | Hcases]); try subst m; destruct (is_leap y);
    cbn [DAYS_BEFORE_MONTH DAYS_IN_MONTH Z.ltb Z.eqb Z.compare Pos.compare
         Pos.compare_cont Pos.eqb andb];
    try specialize (Hleap eq_refl); Z.div_mod_to_equations; lia.
Qed.

Lemma make_datetime_first y m :
  1 <= y <= 9999 -> 1 <= m <= 12 ->
  make_datetime y m 1 = Some (mk_datetime y m 1 0 0 0).
Proof.
  intros Hy Hm. unfold make_datetime, MINYEAR, MAXYEAR.
  pose proof (days_in_month_bounds y m Hm).
  repeat match goal with
         | |- context [?a <=? ?b] => destruct (Z.leb_spec a b); [| lia]
         end.
  reflexivity.
Qed.

Lemma add_seconds_back y m :
  1 <= y <= 9999 -> 1 <= m <= 12 ->
  add_seconds (next_month_start y m) (-1) = Some (month_end y m).
Proof.
  intros Hy Hm. unfold add_seconds.
  rewrite next_month_ordinal by assumption.
  replace (to_seconds (month_end y m) + 1 + -1)
    with (86400 * ymd2ord y m (days_in_month y m) + 86399)
    by (unfold to_seconds, month_end; cbn [dt_year dt_month dt_day dt_hour dt_minute dt_second]; lia).
  destruct (divmod_unique (86400 * ymd2ord y m (days_in_month y m) + 86399) 86400
              (ymd2ord y m (days_in_month y m)) 86399) as [D M]; [lia | lia |].
  rewrite D, M.
  pose proof (month_end_ordinal_bounds y m Hy Hm) as [Hlo Hhi].
  destruct (Z.ltb_spec 0 (ymd2ord y m (days_in_month y m))); [| lia].
  destruct (Z.leb_spec (ymd2ord y m (days_in_month y m)) MAXORDINAL); [| lia].
  cbn [andb]. rewrite month_end_roundtrip by lia. reflexivity.
Qed.

(** C6, as the code has it: for every year in 1..9999 and month in 1..12,
    December 9999 apart, the range starts at the first instant of the month
    and ends at the last second of the month, one second before the first
    instant of the next month, which for December is the first of January
    of the next year.  (2024, 12) ends one second before
    2025-01-01T00:00:00Z and (2024, 2) one second before
    2024-03-01T00:00:00Z. *)
Theorem month_range_bounds (year month : Z) :
  1 <= year <= 9999 -> 1 <= month <= 12 -> year < 9999 \/ month < 12 ->
  month_bounds year month = Some (month_start year month, month_end year month)
  /\ iso_month_range year month
     = Some (iso_z (month_start year month), iso_z (month_end year month))
  /\ to_seconds (month_end year month) + 1 = to_seconds (next_month_start year month)
  /\ iso_month_range 2024 12 = Some ("2024-12-01T00:00:00Z", "2024-12-31T23:59:59Z")
  /\ iso_z (next_month_start 2024 12) = "2025-01-01T00:00:00Z"
  /\ iso_month_range 2024 2 = Some ("2024-02-01T00:00:00Z", "2024-02-29T23:59:59Z")
  /\ iso_z (next_month_start 2024 2) = "2024-03-01T00:00:00Z".
Proof.
  intros Hy Hm Hlast.
  assert (Hb : month_bounds year month
               = Some (month_start year month, month_end year month)).
  { unfold month_bounds, month_start. rewrite make_datetime_first by assumption.
    pose proof (add_seconds_back year month Hy Hm) as Hback.
    unfold next_month_start in Hback.
    destruct (Z.eqb_spec month 12) as [-> | Hne].
    - rewrite make_datetime_first by lia. rewrite Hback. reflexivity.
    - rewrite make_datetime_first by lia. rewrite Hback. reflexivity. }
  repeat match goal with |- _ /\ _ => split end.
  - exact Hb.
  - unfold iso_month_range. rewrite Hb. reflexivity.
  - symmetry. apply next_month_ordinal. assumption.
  - vm_compute. reflexivity.
  - vm_compute. reflexivity.
  - vm_compute. reflexivity.
  - vm_compute. reflexivity.
Qed.

(** December 2024: the year rolls over. *)
Lemma month_range_bounds_witness :
  iso_month_range 2024 12
  = Some (iso_z (month_start 2024 12), iso_z (month_end 2024 12))
  /\ to_seconds (month_end 2024 12) + 1 = to_seconds (mk_datetime 2025 1 1 0 0 0).
Proof.
  destruct (month_range_bounds 2024 12) as (_ & H1 & H2 & _); [lia | lia | lia |].
  split; [exact H1 | exact H2].
Defined.

(** C6 as stated fails: 9999 is a year [datetime] accepts, 12 is a month,
    and no range is built for them, the first of January of the year
    10000 being out of range. *)
Lemma month_range_last_month_counterexample :
  make_datetime 9999 12 1 = Some (month_start 9999 12)
  /\ make_datetime (9999 + 1) 1 1 = None
  /\ iso_month_range 9999 12 = None.
Proof. repeat apply conj; vm_compute; reflexivity. Qed.

End CalendarFacts.

(** ** Strings and regular expressions *)

Section RegexFacts.
Import Regex.

(** facts on strings *)
Lemma str_length_app (a b : string) : String.length (a +:+ b) = (String.length a + String.length b)%nat.
Proof.
  induction a as [| c a IH]; [reflexivity |].
  change (String c a +:+ b) with (String c (a +:+ b)). simpl. f_equal. exact IH.
Qed.

Lemma str_app_cons x (a b : string) : String x a +:+ b = String x (a +:+ b).
Proof. reflexivity. Qed.

Lemma str_app_nil (b : string) : "" +:+ b = b.
Proof. reflexivity. Qed.

Lemma str_app_assoc (a b c : string) : (a +:+ b) +:+ c = a +:+ (b +:+ c).
Proof. induction a as [| x a IH]; [reflexivity | rewrite !str_app_cons, IH; reflexivity]. Qed.

Lemma str_app_empty_r (a : string) : a +:+ "" = a.
Proof. induction a as [| x a IH]; [reflexivity | rewrite str_app_cons, IH; reflexivity]. Qed.

Lemma last_char_app prev a b : last_char prev (a +:+ b) = last_char (last_char prev a) b.
Proof.
  revert prev. induction a as [| x a IH]; intros prev; [reflexivity |].
  rewrite str_app_cons. simpl. apply IH.
Qed.

Lemma take_app w s : take (String.length w) (w +:+ s) = w.
Proof.
  induction w as [| c w IH]; [destruct s; reflexivity |].
  rewrite str_app_cons. simpl. f_equal. exact IH.
Qed.

Lemma consumed_app w s : consumed (w +:+ s) s = w.
Proof.
  unfold consumed. rewrite str_length_app.
  replace (String.length w + String.length s - String.length s)%nat with (String.length w) by lia.
  apply take_app.
Qed.

Lemma eat_spec l prev s prev' s' :
  eat l prev s = Some (prev', s') <-> s = l +:+ s' /\ prev' = last_char prev l.
Proof.
  revert prev s. induction l as [| a l IH]; intros prev s; simpl.
  - split; [intros [= -> ->]; auto | intros [-> ->]; reflexivity].
  - destruct s as [| c s]; [rewrite str_app_cons; split; [discriminate | intros [[=] _]] |].
    destruct (Ascii.eqb_spec a c) as [-> | Hne].
    + rewrite IH, str_app_cons. simpl last_char. split; intros [H1 H2]; split; congruence.
    + rewrite str_app_cons. split; [discriminate | intros [[= ? ?] _]; congruence].
Qed.

(** every match reads a prefix of the input *)
Lemma Matches_prefix r prev s g prev' s' g' :
  Matches r prev s g prev' s' g' -> exists w, s = w +:+ s' /\ prev' = last_char prev w.
Proof.
  induction 1.
  - exists l. apply eat_spec. assumption.
  - exists (String c ""). split; reflexivity.
  - destruct IHMatches1 as (w1 & -> & ->), IHMatches2 as (w2 & -> & ->).
    exists (w1 +:+ w2). rewrite str_app_assoc, last_char_app. split; reflexivity.
  - assumption.
  - assumption.
  - exists "". split; reflexivity.
  - destruct IHMatches as (w & -> & ->). exists (String c w). split; reflexivity.
  - assumption.
  - exists "". split; reflexivity.
Qed.

Section Engine.
Context {R : Type}.

Lemma run_rep_sound p lo hi prev s g (k : @cont R) x :
  run_rep p lo hi prev s g k = Some x ->
  exists prev' s' g', Matches (Rep lo hi p) prev s g prev' s' g' /\ k prev' s' g' = Some x.
Proof.
  revert lo hi prev. induction s as [| c s IH]; intros lo hi prev; simpl.
  - destruct (Nat.eqb_spec lo 0) as [-> | _]; [| discriminate].
    intros Hk. exists prev, "", g. split; [constructor | assumption].
  - assert (Hstop : (if Nat.eqb lo 0 then k prev (String c s) g else None) = Some x ->
                    exists prev' s' g', Matches (Rep lo hi p) prev (String c s) g prev' s' g'
                                        /\ k prev' s' g' = Some x).
    { destruct (Nat.eqb_spec lo 0) as [-> | _]; [| discriminate].
      intros Hk. exists prev, (String c s), g. split; [constructor | assumption]. }
    destruct (p c && may_repeat hi) eqn:Hp; [| exact Hstop].
    apply andb_true_iff in Hp as [Hpc Hhi].
    destruct (run_rep p (Nat.pred lo) (lower_bound hi) (Some c) s g k) eqn:Hrun; [| exact Hstop].
    intros [= ->]. apply IH in Hrun as (prev' & s' & g' & HM & Hk).
    exists prev', s', g'. split; [| assumption]. econstructor; eassumption.
Qed.

Lemma run_sound r : forall prev s g (k : @cont R) x,
  run r prev s g k = Some x ->
  exists prev' s' g', Matches r prev s g prev' s' g' /\ k prev' s' g' = Some x.
Proof.
  induction r as [l | p | a IHa b IHb | a IHa b IHb | lo hi p | n a IHa |]; intros prev s g k x; simpl.
  - destruct (eat l prev s) as [[prev' s'] |] eqn:E; [| discriminate].
    intros Hk. exists prev', s', g. split; [constructor; assumption | assumption].
  - destruct s as [| c s]; [discriminate |]. destruct (p c) eqn:Hp; [| discriminate].
    intros Hk. exists (Some c), s, g. split; [constructor; assumption | assumption].
  - intros H. apply IHa in H as (p1 & s1 & g1 & Ha & H).
    apply IHb in H as (p2 & s2 & g2 & Hb & H).
    exists p2, s2, g2. split; [econstructor; eassumption | assumption].
  - destruct (run a prev s g k) eqn:E.
    + intros [= ->]. apply IHa in E as (p1 & s1 & g1 & Ha & H).
      exists p1, s1, g1. split; [apply M_AltL; assumption | assumption].
    + intros H. apply IHb in H as (p1 & s1 & g1 & Hb & H).
      exists p1, s1, g1. split; [apply M_AltR; assumption | assumption].
  - apply run_rep_sound.
  - intros H. apply IHa in H as (p1 & s1 & g1 & Ha & H).
    exists p1, s1, ((n, consumed s s1) :: g1). split; [constructor; assumption | assumption].
  - destruct (at_boundary prev s) eqn:E; [| discriminate].
    intros Hk. exists prev, s, g. split; [constructor; assumption | assumption].
Qed.

Lemma run_rep_complete_gen r prev s g prev' s' g' :
  Matches r prev s g prev' s' g' ->
  forall lo hi p (k : @cont R),
    r = Rep lo hi p -> is_Some (k prev' s' g') -> is_Some (run_rep p lo hi prev s g k).
Proof.
  induction 1; intros lo0 hi0 p0 k Hr Hk; try discriminate; inversion Hr; subst.
  - destruct s as [| c s]; simpl; [assumption |].
    destruct (p0 c && may_repeat hi0); [| assumption].
    destruct (run_rep p0 _ _ _ _ _ _); [eauto | assumption].
  - simpl. rewrite H, H0. simpl.
    destruct (IHMatches _ _ _ k eq_refl Hk) as [x ->]. eauto.
Qed.

Lemma run_rep_complete p lo hi prev s g prev' s' g' (k : @cont R) :
  Matches (Rep lo hi p) prev s g prev' s' g' ->
  is_Some (k prev' s' g') ->
  is_Some (run_rep p lo hi prev s g k).
Proof. intros HM Hk. eapply run_rep_complete_gen; [eassumption | reflexivity | assumption]. Qed.

Lemma run_complete r prev s g prev' s' g' :
  Matches r prev s g prev' s' g' ->
  forall k : @cont R, is_Some (k prev' s' g') -> is_Some (run r prev s g k).
Proof.
  induction 1; intros k Hk.
  - simpl. rewrite H. assumption.
  - simpl. rewrite H. assumption.
  - simpl. apply IHMatches1. apply IHMatches2. assumption.
  - simpl. destruct (IHMatches k Hk) as [x ->]. eauto.
  - simpl. destruct (run a prev s g k); [eauto | apply IHMatches; assumption].
  - eapply run_rep_complete; [constructor | assumption].
  - eapply run_rep_complete; [econstructor; eassumption | assumption].
  - simpl. apply IHMatches. assumption.
  - simpl. rewrite H. assumption.
Qed.

End Engine.

Lemma match_at_sound r prev s g s' :
  match_at r prev s = Some (g, s') -> exists prev', Matches r prev s [] prev' s' g.
Proof.
  unfold match_at. intros H. apply run_sound in H as (p1 & s1 & g1 & HM & [= <- <-]).
  exists p1. assumption.
Qed.

Lemma match_at_complete r prev s prev' s' g' :
  Matches r prev s [] prev' s' g' -> is_Some (match_at r prev s).
Proof. intros HM. unfold match_at. eapply run_complete; [eassumption | eauto]. Qed.

Lemma search_from_sound r prev s g :
  search_from r prev s = Some g ->
  exists before after prev' s',
    s = before +:+ after /\ Matches r (last_char prev before) after [] prev' s' g.
Proof.
  revert prev. induction s as [| c s IH]; intros prev; simpl.
  - destruct (match_at r prev "") as [[g0 s0] |] eqn:E; [| discriminate].
    intros [= ->]. apply match_at_sound in E as [p' HM]. exists "", "", p', s0. split; [reflexivity | assumption].
  - destruct (match_at r prev (String c s)) as [[g0 s0] |] eqn:E.
    + intros [= ->]. apply match_at_sound in E as [p' HM].
      exists "", (String c s), p', s0. split; [reflexivity | assumption].
    + intros H. apply IH in H as (before & after & p' & s' & -> & HM).
      exists (String c before), after, p', s'. split; [reflexivity | assumption].
Qed.

Lemma search_from_complete r prev before after prev' s' g' :
  Matches r (last_char prev before) after [] prev' s' g' ->
  is_Some (search_from r prev (before +:+ after)).
Proof.
  revert prev. induction before as [| c before IH]; intros prev HM.
  - simpl in *. apply match_at_complete in HM as [[g0 s0] E].
    destruct after; simpl; rewrite E; eauto.
  - simpl. destruct (match_at r prev (String c (before +:+ after))) as [[g0 s0] |]; [eauto |].
    apply IH. assumption.
Qed.

Lemma search_sound r t g :
  search r t = Some g -> occurs r t.
Proof.
  intros H. apply search_from_sound in H as (before & after & p' & s' & -> & HM).
  exists before, after, p', s', g. split; [reflexivity | assumption].
Qed.

Lemma search_complete r t : occurs r t -> is_Some (search r t).
Proof.
  intros (before & after & p' & s' & g' & -> & HM). eapply search_from_complete. eassumption.
Qed.

Lemma search_none r t : search r t = None <-> ~ occurs r t.
Proof.
  split.
  - intros H Ho. apply search_complete in Ho as [g Hg]. congruence.
  - intros Hn. destruct (search r t) eqn:E; [| reflexivity].
    exfalso. apply Hn. eapply search_sound. eassumption.
Qed.



End RegexFacts.

(** ** The text of an instant *)

Section FormatFacts.
Import Calendar.

Lemma no_plus_app a b : Text.no_plus (a +:+ b) = Text.no_plus a && Text.no_plus b.
Proof.
  induction a as [| c a IH]; [reflexivity |].
  rewrite str_app_cons. cbn [Text.no_plus]. rewrite IH, andb_assoc. reflexivity.
Qed.

Lemma digit_char_not_plus d : Ascii.eqb "+" (Text.digit_char d) = false.
Proof.
  unfold Text.digit_char. pose proof (Z.mod_pos_bound d 10 eq_refl) as Hb.
  assert (H : d mod 10 = 0 \/ d mod 10 = 1 \/ d mod 10 = 2 \/ d mod 10 = 3 \/ d mod 10 = 4
              \/ d mod 10 = 5 \/ d mod 10 = 6 \/ d mod 10 = 7 \/ d mod 10 = 8 \/ d mod 10 = 9) by lia.
  repeat (destruct H as [-> | H]; [reflexivity |]). rewrite H. reflexivity.
Qed.

Lemma no_plus_pad2 n : Text.no_plus (Text.pad2 n) = true.
Proof. unfold Text.pad2. cbn [Text.no_plus]. rewrite !digit_char_not_plus. reflexivity. Qed.

Lemma no_plus_pad4 n : Text.no_plus (Text.pad4 n) = true.
Proof.
  unfold Text.pad4. cbn [Text.no_plus]. rewrite !digit_char_not_plus, no_plus_pad2. reflexivity.
Qed.

Lemma replace_utc_offset p :
  Text.no_plus p = true -> Text.replace "+00:00" "Z" (p +:+ "+00:00") = p +:+ "Z".
Proof.
  unfold Text.replace. induction p as [| c p IH]; intros Hp.
  - reflexivity.
  - cbn [Text.no_plus] in Hp. apply andb_true_iff in Hp as [Hc Hp].
    apply negb_true_iff in Hc. rewrite !str_app_cons.
    cbn [Text.replace_from Text.is_prefix]. rewrite Hc, IH by assumption. reflexivity.
Qed.

(** [isoformat] with the offset of UTC replaced by [Z]. *)
Lemma iso_z_format d :
  iso_z d
  = (Text.pad4 (dt_year d) +:+ "-" +:+ Text.pad2 (dt_month d) +:+ "-" +:+ Text.pad2 (dt_day d)
     +:+ "T" +:+ Text.pad2 (dt_hour d) +:+ ":" +:+ Text.pad2 (dt_minute d) +:+ ":"
     +:+ Text.pad2 (dt_second d)) +:+ "Z".
Proof.
  unfold iso_z, isoformat.
  rewrite <- !str_app_assoc. apply replace_utc_offset.
  rewrite !no_plus_app, no_plus_pad4, !no_plus_pad2. reflexivity.
Qed.

End FormatFacts.

(** ** Date extraction and routing *)

Section IntentFacts.
Import Regex Intent.

Ltac invert H := inversion H; subst; clear H.

Lemma Matches_alternatives ls prev s g prev' s' g' :
  Matches (alternatives ls) prev s g prev' s' g' ->
  exists l, In l ls /\ s = l +:+ s' /\ g' = g.
Proof.
  induction ls as [| l ls IH]; simpl.
  - intros H. invert H; try discriminate.
  - destruct ls as [| l2 ls].
    + intros H. invert H. match goal with E : eat _ _ _ = _ |- _ => apply eat_spec in E as [-> _] end.
      exists l. auto.
    + intros H. invert H.
      * match goal with M : Matches (Lit _) _ _ _ _ _ _ |- _ => invert M end.
        match goal with E : eat _ _ _ = _ |- _ => apply eat_spec in E as [-> _] end.
        exists l. auto.
      * match goal with M : Matches _ _ _ _ _ _ _ |- _ => apply IH in M as (l' & Hin & -> & ->) end.
        exists l'. auto.
Qed.

Lemma alternatives_Matches ls l prev s g :
  In l ls -> Matches (alternatives ls) prev (l +:+ s) g (last_char prev l) s g.
Proof.
  induction ls as [| l1 ls IH]; [intros [] |].
  intros [-> | Hin].
  - assert (HL : Matches (Lit l) prev (l +:+ s) g (last_char prev l) s g).
    { constructor. apply eat_spec. auto. }
    destruct ls; [exact HL | apply M_AltL; exact HL].
  - destruct ls as [| l2 ls]; [destruct Hin |]. apply M_AltR. apply IH. assumption.
Qed.


Lemma Matches_digits_exact p prev s g prev' s' g' n :
  Matches (Rep n (Some n) p) prev s g prev' s' g' ->
  exists w, s = w +:+ s' /\ String.length w = n /\ g' = g
            /\ forallb p (list_ascii_of_string w) = true.
Proof.
  revert prev s. induction n as [| n IH]; intros prev s H.
  - invert H; [exists ""; auto | discriminate].
  - invert H. simpl in *.
    match goal with M : Matches _ _ _ _ _ _ _ |- _ => apply IH in M as (w & -> & Hl & -> & Hall) end.
    exists (String c w). simpl. rewrite Hl, Hall.
    match goal with Hp : p c = true |- _ => rewrite Hp end. auto.
Qed.

Lemma Matches_year_group n prev s g prev' s' g' :
  Matches (year_group n) prev s g prev' s' g' ->
  exists d1 d2, Text.is_digit d1 = true /\ Text.is_digit d2 = true
                /\ s = year_text d1 d2 +:+ s' /\ g' = (n, year_text d1 d2) :: g.
Proof.
  unfold year_group. intros H. invert H.
  match goal with M : Matches (Seq _ _) _ _ _ _ _ _ |- _ => invert M end.
  match goal with M : Matches (Lit _) _ _ _ _ _ _ |- _ => invert M end.
  match goal with E : eat _ _ _ = _ |- _ => apply eat_spec in E as [-> ->] end.
  match goal with M : Matches (Rep _ _ _) _ _ _ _ _ _ |- _ =>
    apply Matches_digits_exact in M as (w & -> & Hl & -> & Hall) end.
  destruct w as [| d1 [| d2 [| ? ?]]]; try discriminate.
  simpl in Hall. apply andb_true_iff in Hall as [H1 H2]. apply andb_true_iff in H2 as [H2 _].
  exists d1, d2. repeat split; try assumption.
  f_equal. f_equal. apply (consumed_app (year_text d1 d2) s').
Qed.

Lemma digit_val_bounds c : Text.is_digit c = true -> 0 <= Text.digit_val c <= 9.
Proof.
  unfold Text.is_digit, Text.between, Text.digit_val. intros H.
  apply andb_true_iff in H as [H1 H2]. lia.
Qed.

Lemma year_text_val d1 d2 :
  Text.is_digit d1 = true -> Text.is_digit d2 = true ->
  2000 <= Text.digits_val (year_text d1 d2) <= 2099.
Proof.
  intros H1 H2. apply digit_val_bounds in H1, H2.
  unfold Text.digits_val, year_text. cbn [Text.digits_val_from].
  change (Text.digit_val "2") with 2. change (Text.digit_val "0") with 0. lia.
Qed.

Lemma month_names_lookup name :
  In name month_names -> exists v, lookup_month name MONTH_MAP = Some v /\ 1 <= v <= 12.
Proof.
  unfold month_names, MONTH_MAP. cbn [fmap list_fmap fst In].
  intros H. repeat (destruct H as [<- | H]; [eexists; split; [reflexivity | lia] |]).
  destruct H.
Qed.

Lemma Matches_Rep_groups r prev s g prev' s' g' :
  Matches r prev s g prev' s' g' -> forall lo hi p, r = Rep lo hi p -> g' = g.
Proof.
  induction 1; intros lo0 hi0 p0 Hr; try discriminate; [reflexivity |].
  eapply IHMatches. reflexivity.
Qed.

Lemma Matches_Grp_inv n a prev s g prev' s' g' :
  Matches (Grp n a) prev s g prev' s' g' ->
  exists g1, Matches a prev s g prev' s' g1 /\ g' = (n, consumed s s') :: g1.
Proof. intros H. invert H. eauto. Qed.

Lemma Matches_month_group n prev s g prev' s' g' :
  Matches (month_group n) prev s g prev' s' g' ->
  exists name, In name month_names /\ s = name +:+ s' /\ g' = (n, name) :: g.
Proof.
  unfold month_group. intros H. apply Matches_Grp_inv in H as (g1 & H & ->).
  apply Matches_alternatives in H as (l & Hin & -> & ->).
  exists l. rewrite consumed_app. auto.
Qed.

Ltac split_seq :=
  repeat match goal with
         | M : Matches (Seq _ _) _ _ _ _ _ _ |- _ => invert M
         | M : Matches Bnd _ _ _ _ _ _ |- _ => invert M
         | M : Matches (Cls _) _ _ _ _ _ _ |- _ => invert M
         | M : Matches (year_group _) _ _ _ _ _ _ |- _ =>
             apply Matches_year_group in M as (? & ? & ? & ? & ? & ?); subst
         | M : Matches (month_group _) _ _ _ _ _ _ |- _ =>
             apply Matches_month_group in M as (? & ? & ? & ?); subst
         | M : Matches (Rep _ None _) _ _ _ _ _ _ |- _ =>
             apply (fun H => Matches_Rep_groups _ _ _ _ _ _ _ H _ _ _ eq_refl) in M; subst
         end.

Lemma numeric_match_groups prev s prev' s' g :
  Matches numeric_pattern prev s [] prev' s' g ->
  exists d1 d2 w, Text.is_digit d1 = true /\ Text.is_digit d2 = true
                  /\ g = [(2%nat, w); (1%nat, year_text d1 d2)].
Proof.
  unfold numeric_pattern. cbn [sequence]. intros H. split_seq.
  match goal with M : Matches (Grp _ _) _ _ _ _ _ _ |- _ => invert M end.
  match goal with M : Matches (Rep _ _ _) _ _ _ _ _ _ |- _ =>
    apply (fun H => Matches_Rep_groups _ _ _ _ _ _ _ H _ _ _ eq_refl) in M; subst end.
  do 3 eexists. split; [| split; [| reflexivity]]; assumption.
Qed.

Lemma month_year_match_groups prev s prev' s' g :
  Matches month_year_pattern prev s [] prev' s' g ->
  exists name d1 d2, In name month_names /\ Text.is_digit d1 = true /\ Text.is_digit d2 = true
                     /\ g = [(2%nat, year_text d1 d2); (1%nat, name)].
Proof.
  unfold month_year_pattern. cbn [sequence]. intros H. split_seq.
  do 3 eexists. split; [| split; [| split; [| reflexivity]]]; assumption.
Qed.

Lemma year_month_match_groups prev s prev' s' g :
  Matches year_month_pattern prev s [] prev' s' g ->
  exists name d1 d2, In name month_names /\ Text.is_digit d1 = true /\ Text.is_digit d2 = true
                     /\ g = [(2%nat, name); (1%nat, year_text d1 d2)].
Proof.
  unfold year_month_pattern. cbn [sequence]. intros H. split_seq.
  do 3 eexists. split; [| split; [| split; [| reflexivity]]]; assumption.
Qed.


Lemma third_step_well_formed t : well_formed (third_step t).
Proof.
  unfold third_step. destruct (search year_month_pattern t) as [g |] eqn:E; [| exact I].
  apply search_from_sound in E as (b & a & p' & s' & _ & HM).
  apply year_month_match_groups in HM as (name & d1 & d2 & Hin & H1 & H2 & ->).
  apply month_names_lookup in Hin as (v & Hv & Hr).
  unfold int_group, month_name_group. cbn [group Nat.eqb fmap option_fmap option_map].
  rewrite Hv. cbn. split; [apply year_text_val; assumption | assumption].
Qed.

Lemma second_step_well_formed t : well_formed (second_step t).
Proof.
  unfold second_step. destruct (search month_year_pattern t) as [g |] eqn:E;
    [| apply third_step_well_formed].
  apply search_from_sound in E as (b & a & p' & s' & _ & HM).
  apply month_year_match_groups in HM as (name & d1 & d2 & Hin & H1 & H2 & ->).
  apply month_names_lookup in Hin as (v & Hv & Hr).
  unfold int_group, month_name_group. cbn [group Nat.eqb fmap option_fmap option_map].
  rewrite Hv. cbn. split; [apply year_text_val; assumption | assumption].
Qed.

Lemma parse_well_formed text : well_formed (parse_year_month_from_text text).
Proof.
  unfold parse_year_month_from_text.
  destruct (search numeric_pattern (Text.lower text)) as [g |] eqn:E;
    [| apply second_step_well_formed].
  apply search_from_sound in E as (b & a & p' & s' & _ & HM).
  apply numeric_match_groups in HM as (d1 & d2 & w & H1 & H2 & ->).
  unfold int_group. cbn [group Nat.eqb fmap option_fmap option_map].
  destruct (_ && _) eqn:Hm; [| apply second_step_well_formed].
  apply andb_true_iff in Hm as [Hlo Hhi]. cbn.
  split; [apply year_text_val; assumption | lia].
Qed.

(** ** Keywords *)

Lemma is_prefix_spec p s : Text.is_prefix p s = true <-> exists after, s = p +:+ after.
Proof.
  revert s. induction p as [| a p IH]; intros s; simpl.
  - split; [intros _; exists s; reflexivity | reflexivity].
  - destruct s as [| b s].
    + split; [discriminate | intros [after H]; discriminate].
    + destruct (Ascii.eqb_spec a b) as [-> | Hne].
      * rewrite IH. split; intros [after H]; exists after.
        -- rewrite str_app_cons, H. reflexivity.
        -- rewrite str_app_cons in H. congruence.
      * split; [discriminate | intros [after H]]. rewrite str_app_cons in H. congruence.
Qed.

Lemma contains_spec k t :
  Text.contains k t = true <-> exists before after, t = before +:+ k +:+ after.
Proof.
  induction t as [| c t IH]; simpl.
  - rewrite orb_false_r, is_prefix_spec. split.
    + intros [after H]. exists "", after. exact H.
    + intros (before & after & H). destruct before; [exists after; exact H | discriminate].
  - rewrite orb_true_iff, is_prefix_spec, IH. split.
    + intros [[after H] | (before & after & H)].
      * exists "", after. exact H.
      * exists (String c before), after. rewrite str_app_cons, H. reflexivity.
    + intros (before & after & H). destruct before as [| b before].
      * left. exists after. exact H.
      * right. rewrite str_app_cons in H. injection H as -> ->. exists before, after. reflexivity.
Qed.

Lemma any_in_mentions keywords text :
  any_in keywords (Text.lower text) = true <-> mentions keywords text.
Proof.
  unfold any_in, mentions. rewrite existsb_exists. split.
  - intros (k & Hin & Hc). apply contains_spec in Hc as (before & after & H). eauto.
  - intros (k & before & after & Hin & H). exists k. split; [assumption |].
    apply contains_spec. eauto.
Qed.

Lemma well_formed_truthy y m :
  well_formed (Extracted y m) -> both_truthy y m = true.
Proof.
  simpl. intros [Hy Hm]. unfold both_truthy.
  destruct (Z.eqb_spec y 0), (Z.eqb_spec m 0); simpl; lia || reflexivity.
Qed.

(** C2: the router sends a question to the revenue aggregation when it
    mentions a revenue keyword and a (year, month) was extracted, else to
    the volume aggregation when it mentions a volume keyword and a
    (year, month) was extracted, else to retrieval -- also when a date is
    there without a keyword; the extraction never fails, so these cases
    are all there are; the two questions of the specification go where
    it says. *)
Theorem chat_routes_by_keyword_and_date (question : string) :
  (forall y m, parse_year_month_from_text question = Extracted y m ->
     mentions revenue_keywords question -> chat question = RevenueAggregation y m)
  /\ (forall y m, parse_year_month_from_text question = Extracted y m ->
        ~ mentions revenue_keywords question -> mentions volume_keywords question ->
        chat question = VolumeAggregation y m)
  /\ (forall y m, parse_year_month_from_text question = Extracted y m ->
        ~ mentions revenue_keywords question -> ~ mentions volume_keywords question ->
        chat question = Retrieval)
  /\ (parse_year_month_from_text question = NoDate -> chat question = Retrieval)
  /\ parse_year_month_from_text question <> Failure
  /\ chat "total revenue in March 2024" = RevenueAggregation 2024 3
  /\ chat "units sold last August 2023" = VolumeAggregation 2023 8.
Proof.
  pose proof (parse_well_formed question) as Hwf.
  unfold chat, is_revenue_aggregation, is_volume_aggregation.
  repeat apply conj.
  - intros y m E Hrev. rewrite E in *. rewrite (well_formed_truthy _ _ Hwf).
    apply any_in_mentions in Hrev. rewrite Hrev. reflexivity.
  - intros y m E Hrev Hvol. rewrite E in *. rewrite (well_formed_truthy _ _ Hwf).
    apply any_in_mentions in Hvol. rewrite Hvol.
    destruct (any_in revenue_keywords (Text.lower question)) eqn:Er; [| reflexivity].
    exfalso. apply Hrev. apply any_in_mentions. exact Er.
  - intros y m E Hrev Hvol. rewrite E in *.
    destruct (any_in revenue_keywords (Text.lower question)) eqn:Er.
    { exfalso. apply Hrev. apply any_in_mentions. exact Er. }
    destruct (any_in volume_keywords (Text.lower question)) eqn:Ev; [| reflexivity].
    exfalso. apply Hvol. apply any_in_mentions. exact Ev.
  - intros E. rewrite E. reflexivity.
  - intros E. rewrite E in Hwf. exact Hwf.
  - vm_compute. reflexivity.
  - vm_compute. reflexivity.
Qed.

(** The revenue question of the specification has a keyword and a date. *)
Lemma chat_routes_witness : chat "total revenue in March 2024" = RevenueAggregation 2024 3.
Proof.
  destruct (chat_routes_by_keyword_and_date "total revenue in March 2024") as (H & _).
  apply H.
  - vm_compute. reflexivity.
  - exists "revenue", "total ", " in march 2024". split; [| reflexivity].
    unfold revenue_keywords. simpl. tauto.
Defined.

(** ** The order of the patterns *)










End IntentFacts.

Section ScrollFacts.
Import Aggregate Samples.

(** ** Scroll pagination *)

Lemma py_or_truthy a b : truthy (py_or a b) = truthy a || truthy b.
Proof. unfold py_or. destruct (truthy a) eqn:E; [rewrite E |]; reflexivity. Qed.

Lemma py_or_first a b : truthy a = true -> py_or a b = a.
Proof. unfold py_or. intros ->. reflexivity. Qed.

Lemma py_or_second a b : truthy a = false -> py_or a b = b.
Proof. unfold py_or. intros ->. reflexivity. Qed.

Lemma truthy_null : truthy JNull = false.
Proof. reflexivity. Qed.

(** The cursor is the first of the candidate values that counts as true. *)
Lemma scroll_next_offset_first resp :
  truthy (scroll_next_offset resp) = existsb truthy (cursor_candidates resp)
  /\ (truthy (scroll_next_offset resp) = true ->
      first_truthy (cursor_candidates resp) = Some (scroll_next_offset resp)).
Proof.
  unfold scroll_next_offset, cursor_candidates, first_truthy.
  destruct (is_dict (dict_get "result" resp)); cbn [app existsb List.find].
  - set (a := subscript "next_page" _). set (b := subscript "next_page_offset" _).
    set (c := subscript "offset" _). set (d := dict_get "next_page" resp).
    set (e := dict_get "next_page_offset" resp). set (f := dict_get "offset" resp).
    unfold py_or.
    destruct (truthy a) eqn:Ha; [rewrite !Ha; auto |].
    destruct (truthy b) eqn:Hb; [rewrite !Hb; auto |].
    destruct (truthy c) eqn:Hc; [rewrite !Hc; auto |].
    destruct (truthy d) eqn:Hd; [rewrite !Hd; auto |].
    destruct (truthy e) eqn:He; [rewrite !He; auto |].
    destruct (truthy f) eqn:Hf; [auto | split; [reflexivity | discriminate]].
  - set (d := dict_get "next_page" resp).
    set (e := dict_get "next_page_offset" resp). set (f := dict_get "offset" resp).
    unfold py_or. cbn [truthy].
    destruct (truthy d) eqn:Hd; [rewrite !Hd; auto |].
    destruct (truthy e) eqn:He; [rewrite !He; auto |].
    destruct (truthy f) eqn:Hf; [auto | split; [reflexivity | discriminate]].
Qed.

Lemma scroll_body_offset batch filter_obj cursor :
  truthy cursor = true -> subscript "offset" (scroll_body batch filter_obj cursor) = cursor.
Proof.
  intros Ht. unfold scroll_body.
  destruct cursor; try discriminate; cbn [is_none subscript]; unfold dict_get;
    rewrite lookup_insert_eq; reflexivity.
Qed.

Lemma scroll_from_head collection filter_obj batch offset replies :
  exists evs,
    (scroll_from collection filter_obj batch offset replies).1
    = Post collection (scroll_body batch filter_obj offset) :: evs.
Proof.
  destruct replies as [| r rest]; cbn [scroll_from]; [eauto |].
  destruct (scroll_turn r); [eauto | eauto |].
  destruct (scroll_from collection filter_obj batch next_offset rest). eauto.
Qed.

(** C3, as the code has it: an empty page stops the generator at once; a
    page of points is yielded point by point, in the order of the
    response, and the generator then stops unless one of the cursor
    fields holds a value that counts as true (not null, not zero, not
    empty); with such a value it posts the next request with that value
    as the offset, and goes on. *)
Theorem scroll_pagination_steps (collection : string) (filter_obj : json) (batch : Z)
    (offset : json) (r : http_reply) (rest : list http_reply) (resp : gmap string json) :
  read_dict r = inr resp ->
  let post := Post collection (scroll_body batch filter_obj offset) in
  (truthy (scroll_points resp) = false ->
     scroll_from collection filter_obj batch offset (r :: rest) = ([post], Exhausted))
  /\ (forall ps, scroll_points resp = JList ps -> ps <> [] ->
        let yields := Yield <$> (point_payload <$> ps) in
        let cursor := scroll_next_offset resp in
        (existsb truthy (cursor_candidates resp) = false ->
           scroll_from collection filter_obj batch offset (r :: rest) = (post :: yields, Exhausted))
        /\ (existsb truthy (cursor_candidates resp) = true ->
              first_truthy (cursor_candidates resp) = Some cursor
              /\ scroll_from collection filter_obj batch offset (r :: rest)
                 = (post :: yields ++ (scroll_from collection filter_obj batch cursor rest).1,
                    (scroll_from collection filter_obj batch cursor rest).2)
              /\ (exists evs,
                    (scroll_from collection filter_obj batch cursor rest).1
                    = Post collection (scroll_body batch filter_obj cursor) :: evs)
              /\ subscript "offset" (scroll_body batch filter_obj cursor) = cursor)).
Proof.
  intros Hr post. split.
  - intros Hempty. cbn [scroll_from]. unfold scroll_turn. rewrite Hr, Hempty. reflexivity.
  - intros ps Hps Hne yields cursor.
    assert (Hturn : scroll_turn r
                    = if negb (truthy cursor) then TurnBreak (point_payload <$> ps)
                      else TurnNext (point_payload <$> ps) cursor).
    { unfold scroll_turn. rewrite Hr, Hps. destruct ps; [contradiction | reflexivity]. }
    destruct (scroll_next_offset_first resp) as [Hex Hfirst]. fold cursor in Hex, Hfirst.
    split.
    + intros Hnone. cbn [scroll_from]. rewrite Hturn, Hex, Hnone. reflexivity.
    + intros Hsome. rewrite <- Hex in Hsome. repeat apply conj.
      * apply Hfirst. exact Hsome.
      * cbn [scroll_from]. rewrite Hturn, Hsome. cbn [negb].
        destruct (scroll_from collection filter_obj batch cursor rest). reflexivity.
      * apply scroll_from_head.
      * apply scroll_body_offset. exact Hsome.
Qed.

(** Two pages: the first has a cursor, the second has none. *)
Lemma scroll_pagination_witness :
  yielded (scroll_query_with_filter "c" JNull 500
             [page [point (field "sales" (JStr "1"))] (JInt 7);
              page [point (field "sales" (JStr "2"))] JNull]).1
  = [JDict (field "sales" (JStr "1")); JDict (field "sales" (JStr "2"))].
Proof.
  pose proof (scroll_pagination_steps "c" JNull 500 JNull
                (page [point (field "sales" (JStr "1"))] (JInt 7))
                [page [point (field "sales" (JStr "2"))] JNull]
                _ eq_refl) as [_ H].
  specialize (H [point (field "sales" (JStr "1"))]).
  destruct H as [_ H]; [vm_compute; reflexivity | discriminate |].
  destruct H as (_ & H & _); [vm_compute; reflexivity |].
  unfold scroll_query_with_filter. rewrite H. vm_compute. reflexivity.
Defined.

(** C3 as stated fails: the response holds the cursor value 0 under
    [next_page_offset], the page is not empty, a further reply is at
    hand, and the generator stops after one request. *)
Lemma scroll_zero_cursor_counterexample :
  read_dict (page [point ∅] (JInt 0))
  = inr (<["result" := JDict (<["points" := JList [point ∅]]>
                               (<["next_page_offset" := JInt 0]> ∅))]> ∅)
  /\ cursor_value_present
       (<["result" := JDict (<["points" := JList [point ∅]]>
                              (<["next_page_offset" := JInt 0]> ∅))]> ∅) = true
  /\ scroll_query_with_filter "c" JNull 500 [page [point ∅] (JInt 0); page [point ∅] JNull]
     = ([Post "c" (scroll_body 500 JNull JNull); Yield empty_dict], Exhausted).
Proof. repeat apply conj; vm_compute; reflexivity. Qed.

End ScrollFacts.

Section AggregateFacts.
Import Aggregate Samples.

(** ** Month aggregation *)

Lemma drive_tally candidate st sent evs :
  (drive candidate st sent evs).1 = tally candidate st (yielded evs).
Proof.
  revert st sent. induction evs as [| [c b | p] evs IH]; intros st sent; cbn [drive tally].
  - reflexivity.
  - apply IH.
  - change (yielded (Yield p :: evs)) with (p :: yielded evs). cbn [tally].
    destruct (loop_body candidate st p); [apply IH | reflexivity].
Qed.

Lemma plain_or a b :
  (is_none a = true \/ truthy a = true) ->
  py_or a b = if is_none a then b else a.
Proof.
  intros [Hn | Ht]; unfold py_or.
  - destruct a; try discriminate. reflexivity.
  - rewrite Ht. destruct a; try discriminate; reflexivity.
Qed.

Lemma sales_candidate_plain d :
  plain_fields revenue_fields d ->
  sales_candidate (JDict d) = Some (first_present revenue_fields d).
Proof.
  intros Hp. unfold sales_candidate, revenue_fields. cbn [first_present].
  rewrite (plain_or (dict_get "sales" d)) by (apply Hp; simpl; tauto).
  destruct (is_none (dict_get "sales" d)); [| reflexivity].
  destruct (dict_get "sales_amount" d); reflexivity.
Qed.

Lemma volume_candidate_plain d :
  plain_fields volume_fields d ->
  volume_candidate (JDict d) = Some (first_present volume_fields d).
Proof.
  intros Hp. unfold volume_candidate, volume_fields. cbn [first_present].
  rewrite (plain_or (dict_get "sales_vol" d)) by (apply Hp; simpl; tauto).
  destruct (is_none (dict_get "sales_vol" d)) eqn:E1.
  - rewrite (plain_or (dict_get "quantity" d)) by (apply Hp; simpl; tauto).
    destruct (is_none (dict_get "quantity" d)); [| reflexivity].
    destruct (dict_get "sales_volume" d); reflexivity.
  - assert (Ht : truthy (dict_get "sales_vol" d) = true).
    { destruct (Hp "sales_vol") as [H | H]; [simpl; tauto | congruence | exact H]. }
    rewrite (py_or_first _ _ Ht). reflexivity.
Qed.

Lemma count_value_spec st v : count_value st v = spec_count st v.
Proof. destruct v; reflexivity. Qed.

(** X23: what the aggregators do away from zero and empty values: of the
    candidate fields (revenue: sales, then sales_amount; volume:
    sales_vol, then quantity, then sales_volume) the first that is there
    with a value that is not null is selected -- a field holding null is
    passed over like a missing one -- when no candidate holds a zero,
    [False] or an empty value; commas are taken out of a text, the value
    is read as a float and has to be finite, else the record is skipped.
    A field holding the text "0" is selected and aggregated. *)
Theorem first_present_field_is_aggregated (d : gmap string json) (st : counters) :
  (plain_fields revenue_fields d ->
     sales_candidate (JDict d) = Some (first_present revenue_fields d)
     /\ loop_body sales_candidate st (JDict d)
        = Some (spec_count st (first_present revenue_fields d)))
  /\ (plain_fields volume_fields d ->
        volume_candidate (JDict d) = Some (first_present volume_fields d)
        /\ loop_body volume_candidate st (JDict d)
           = Some (spec_count st (first_present volume_fields d)))
  /\ (dict_get "sales" d = JStr "0" ->
        loop_body sales_candidate st (JDict d) = Some (accumulate st PyFloat.zero))
  /\ (dict_get "sales_vol" d = JStr "0" ->
        loop_body volume_candidate st (JDict d) = Some (accumulate st PyFloat.zero)).
Proof.
  repeat apply conj.
  - intros Hp. pose proof (sales_candidate_plain d Hp) as Hc.
    split; [exact Hc |]. unfold loop_body. rewrite Hc, count_value_spec. reflexivity.
  - intros Hp. pose proof (volume_candidate_plain d Hp) as Hc.
    split; [exact Hc |]. unfold loop_body. rewrite Hc, count_value_spec. reflexivity.
  - intros E. unfold loop_body, sales_candidate. rewrite E. reflexivity.
  - intros E. unfold loop_body, volume_candidate. rewrite E. reflexivity.
Qed.

(** A null under [sales] and 1,200 under [sales_amount]: the second
    field is read, and counted as 1200.0. *)
Lemma first_present_field_witness :
  loop_body sales_candidate start_counters
    (JDict (<["sales" := JNull]> (field "sales_amount" (JStr "1,200"))))
  = Some (mk_counters f1200 1 0).
Proof.
  destruct (first_present_field_is_aggregated
              (<["sales" := JNull]> (field "sales_amount" (JStr "1,200"))) start_counters)
    as (H & _).
  destruct H as [_ H].
  - intros k Hk. unfold revenue_fields in Hk. simpl in Hk.
    destruct Hk as [<- | [<- | []]]; [left | right]; vm_compute; reflexivity.
  - rewrite H. vm_compute. reflexivity.
Defined.

(** C1: the code passes over a candidate field that holds the number 0,
    although the field is there: a record whose only volume field is
    [sales_vol] with the value 0 is counted as skipped, and so is a record
    whose only revenue field is [sales] with the value 0, where the claim
    has the field selected and the record aggregated.  The test that
    follows is for [None] only, and the same line does aggregate a 0 held
    by the last candidate ([sales_volume], [sales_amount]); the text "0" is
    aggregated under any candidate. *)
Theorem zero_valued_field_is_passed_over :
  has_key "sales_vol" (JDict (field "sales_vol" (JInt 0))) = true
  /\ volume_candidate (JDict (field "sales_vol" (JInt 0))) = Some JNull
  /\ (aggregate_volume 2024 3 "c" [page [point (field "sales_vol" (JInt 0))] JNull]).1
     = Returned (mk_summary "c" 2024 3 0 1 PyFloat.zero)
  /\ (aggregate_volume 2024 3 "c" [page [point (field "sales_volume" (JInt 0))] JNull]).1
     = Returned (mk_summary "c" 2024 3 1 0 PyFloat.zero)
  /\ (aggregate_sales 2024 3 "c" [page [point (field "sales" (JInt 0))] JNull]).1
     = Returned (mk_summary "c" 2024 3 0 1 PyFloat.zero)
  /\ (aggregate_sales 2024 3 "c" [page [point (field "sales_amount" (JInt 0))] JNull]).1
     = Returned (mk_summary "c" 2024 3 1 0 PyFloat.zero)
  /\ (aggregate_volume 2024 3 "c" [page [point (field "sales_vol" (JStr "0"))] JNull]).1
     = Returned (mk_summary "c" 2024 3 1 0 PyFloat.zero)
  /\ sales_candidate (JDict (<["sales" := JInt 0]> (field "sales_amount" (JStr "7"))))
     = Some (JStr "7").
Proof. repeat apply conj; vm_compute; reflexivity. Qed.

(** C5: three payloads whose revenue values are "1,200", "bad" and null
    give one aggregated record, two skipped records and the total 1200.0. *)
Theorem aggregate_sales_three_records (year month : Z) (collection : string)
    (replies : list http_reply) (start_iso end_iso : string) (evs : list event)
    (p1 p2 p3 : json) :
  1 <= month <= 12 ->
  Calendar.iso_month_range year month = Some (start_iso, end_iso) ->
  scroll_query_with_filter collection (month_filter start_iso end_iso) 500 replies
  = (evs, Exhausted) ->
  yielded evs = [p1; p2; p3] ->
  sales_candidate p1 = Some (JStr "1,200") ->
  sales_candidate p2 = Some (JStr "bad") ->
  sales_candidate p3 = Some JNull ->
  (aggregate_sales year month collection replies).1
  = Returned (mk_summary collection year month 1 2 f1200)
  /\ f1200 = PyFloat.of_Z 1200.
Proof.
  intros Hm Hiso Hscroll Hy H1 H2 H3. split; [| vm_compute; reflexivity].
  unfold aggregate_sales, aggregate.
  destruct (Z.leb_spec 1 month); [| lia]. destruct (Z.leb_spec month 12); [| lia].
  cbn [andb negb]. rewrite Hiso, Hscroll.
  pose proof (drive_tally sales_candidate start_counters [] evs) as Hd.
  rewrite Hy in Hd. cbn [tally] in Hd. unfold loop_body in Hd. rewrite H1, H2, H3 in Hd.
  destruct (drive sales_candidate start_counters [] evs) as [res sent].
  cbn [fst] in Hd. subst res. vm_compute. reflexivity.
Qed.

(** The page of the specification: one page, three points, no cursor. *)
Lemma aggregate_sales_three_records_witness :
  (aggregate_sales 2024 3 "sales_vol_staging"
     [page [point (field "sales" (JStr "1,200")); point (field "sales" (JStr "bad"));
            point (field "sales" JNull)] JNull]).1
  = Returned (mk_summary "sales_vol_staging" 2024 3 1 2 f1200).
Proof.
  refine (proj1 (aggregate_sales_three_records 2024 3 "sales_vol_staging" _
                   "2024-03-01T00:00:00Z" "2024-03-31T23:59:59Z" _ _ _ _ _ _ _ _ _ _ _));
    first [lia | vm_compute; reflexivity].
Defined.

(** C7: a month outside 1..12, or a year and month for which the month
    range cannot be built, is answered with status 400 by both
    aggregators, and nothing has been posted to the store. *)
Theorem invalid_month_rejected_before_any_request (year month : Z) (collection : string)
    (replies : list http_reply) :
  month < 1 \/ 12 < month \/ Calendar.iso_month_range year month = None ->
  exists d,
    aggregate_sales year month collection replies = (HTTPException 400 d, [])
    /\ aggregate_volume year month collection replies = (HTTPException 400 d, [])
    /\ (month < 1 \/ 12 < month -> d = MonthOutOfRange).
Proof.
  intros H. unfold aggregate_sales, aggregate_volume, aggregate.
  destruct (Z.leb_spec 1 month); [destruct (Z.leb_spec month 12) |]; cbn [andb negb].
  - destruct H as [H | [H | H]]; [lia | lia |]. rewrite H.
    exists InvalidYearMonth. repeat split. lia.
  - exists MonthOutOfRange. repeat split.
  - exists MonthOutOfRange. repeat split.
Qed.

(** Month 13, with a store that would answer. *)
Lemma invalid_month_witness :
  exists d,
    aggregate_sales 2024 13 "c" [page [point (field "sales" (JStr "1"))] JNull]
    = (HTTPException 400 d, [])
    /\ aggregate_volume 2024 13 "c" [page [point (field "sales" (JStr "1"))] JNull]
       = (HTTPException 400 d, []).
Proof.
  destruct (invalid_month_rejected_before_any_request 2024 13 "c"
              [page [point (field "sales" (JStr "1"))] JNull]) as (d & H1 & H2 & _).
  - right. left. lia.
  - exists d. split; assumption.
Defined.

End AggregateFacts.

(** ** The search shim *)

Section SearchFacts.
Import Search Samples.










End SearchFacts.

(** ** The normalizer *)

Section EmbedFacts.
Import Regex Embed Samples.

Lemma Matches_width r prev s g prev' s' g' :
  Matches r prev s g prev' s' g' ->
  forall n, max_width r = Some n -> (String.length s <= String.length s' + n)%nat.
Proof.
  induction 1; intros w Hw; cbn [max_width] in Hw.
  - injection Hw as <-. apply eat_spec in H as [-> _]. rewrite str_length_app. lia.
  - injection Hw as <-. simpl. lia.
  - destruct (max_width a) as [x |]; [| discriminate].
    destruct (max_width b) as [y |]; [| discriminate]. injection Hw as <-.
    specialize (IHMatches1 _ eq_refl). specialize (IHMatches2 _ eq_refl). lia.
  - destruct (max_width a) as [x |]; [| discriminate].
    destruct (max_width b) as [y |]; [| discriminate]. injection Hw as <-.
    specialize (IHMatches _ eq_refl). lia.
  - destruct (max_width a) as [x |]; [| discriminate].
    destruct (max_width b) as [y |]; [| discriminate]. injection Hw as <-.
    specialize (IHMatches _ eq_refl). lia.
  - lia.
  - subst hi. destruct w as [| w]; [discriminate |].
    specialize (IHMatches w eq_refl). simpl. lia.
  - apply IHMatches. assumption.
  - lia.
Qed.

Lemma strptime_ymd_long s : (10 < String.length s)%nat -> strptime_ymd s = None.
Proof.
  intros Hlen. unfold strptime_ymd.
  destruct (match_at ymd_pattern None s) as [[g rest] |] eqn:E; [| reflexivity].
  destruct rest; [| reflexivity]. exfalso.
  apply match_at_sound in E as [p' HM].
  apply Matches_width with (n := 10%nat) in HM; [simpl in HM; lia | reflexivity].
Qed.

Lemma is_rfc3339_long s : is_rfc3339 s = true -> (10 < String.length s)%nat.
Proof.
  unfold is_rfc3339.
  do 11 (destruct s as [| ? s]; [discriminate |]). intros _. simpl. lia.
Qed.

Lemma coerce_not_none float_repr expected v x :
  coerce float_repr expected v = Some x -> x <> VNone.
Proof.
  intros H ->. unfold coerce, coerce_date in H.
  repeat case_match; simplify_option_eq.
Qed.

Lemma fallback_not_none float_repr expected v : fallback float_repr expected v <> VNone.
Proof.
  unfold fallback.
  repeat match goal with
         | |- context [String.eqb ?a ?b] => destruct (String.eqb a b)
         end; discriminate.
Qed.

Lemma normalize_value_not_none float_repr expected v :
  normalize_value float_repr expected v <> VNone.
Proof.
  unfold normalize_value. destruct (coerce float_repr expected v) eqn:E.
  - eapply coerce_not_none. eassumption.
  - apply fallback_not_none.
Qed.

Lemma normalize_lookup float_repr type_map doc class_name k :
  normalize_with float_repr type_map doc class_name !! k
  = match doc !! k with
    | Some v => normalize_item float_repr (default ∅ (type_map !! class_name)) k v
    | None => None
    end.
Proof.
  unfold normalize_with. rewrite map_lookup_imap. destruct (doc !! k); reflexivity.
Qed.

(** C8: the normalizer gives a record for every raw record and every
    schema; its keys are fields of the schema (and of the raw record), no
    value of it is null; a field of the raw record that is null, or that
    the schema does not have, is left out; any other field is there, with
    the coerced value, or on a failed coercion with 0 for int, 0.0 for
    number, 1970-01-01T00:00:00Z for date and the text of the value
    otherwise. *)
Theorem normalizer_invariants (float_repr : PyFloat.float -> string)
    (type_map : gmap string (gmap string string)) (doc : gmap string value)
    (class_name : string) :
  dom (normalize_with float_repr type_map doc class_name)
    ⊆ dom (default ∅ (type_map !! class_name))
  /\ dom (normalize_with float_repr type_map doc class_name) ⊆ dom doc
  /\ (forall k, normalize_with float_repr type_map doc class_name !! k <> Some VNone)
  /\ (forall k, doc !! k = Some VNone ->
        normalize_with float_repr type_map doc class_name !! k = None)
  /\ (forall k, default ∅ (type_map !! class_name) !! k = None ->
        normalize_with float_repr type_map doc class_name !! k = None)
  /\ (forall k v expected,
        doc !! k = Some v -> v <> VNone ->
        default ∅ (type_map !! class_name) !! k = Some expected ->
        normalize_with float_repr type_map doc class_name !! k
        = Some match coerce float_repr expected v with
               | Some x => x
               | None =>
                   if String.eqb expected "int" then VInt 0
                   else if String.eqb expected "number" then VFloat (S754_zero false)
                   else if String.eqb expected "date" then VStr "1970-01-01T00:00:00Z"
                   else VStr (py_str float_repr v)
               end)
  /\ normalize_metadata float_repr doc class_name
     = normalize_with float_repr TYPE_MAP doc class_name.
Proof.
  repeat match goal with |- _ /\ _ => split end.
  - intros k Hk. apply elem_of_dom in Hk as [x Hx]. apply elem_of_dom.
    rewrite normalize_lookup in Hx. destruct (doc !! k) as [v |]; [| discriminate].
    unfold normalize_item in Hx. destruct (is_none v); [discriminate |].
    destruct (default ∅ (type_map !! class_name) !! k); [eauto | discriminate].
  - intros k Hk. apply elem_of_dom in Hk as [x Hx]. apply elem_of_dom.
    rewrite normalize_lookup in Hx. destruct (doc !! k) as [v |]; [eauto | discriminate].
  - intros k. rewrite normalize_lookup. destruct (doc !! k) as [v |]; [| discriminate].
    unfold normalize_item. destruct (is_none v); [discriminate |].
    destruct (default ∅ (type_map !! class_name) !! k) as [expected |]; [| discriminate].
    intros [= H]. revert H. apply normalize_value_not_none.
  - intros k Hk. rewrite normalize_lookup, Hk. reflexivity.
  - intros k Hk. rewrite normalize_lookup. destruct (doc !! k) as [v |]; [| reflexivity].
    unfold normalize_item. rewrite Hk. destruct (is_none v); reflexivity.
  - intros k v expected Hv Hnn Hs. rewrite normalize_lookup, Hv.
    unfold normalize_item. rewrite Hs.
    destruct v; try contradiction; cbn [is_none]; reflexivity.
  - reflexivity.
Qed.

(** C10: a date field whose raw value is a text in full RFC 3339 form
    is not parsed by the strict YYYY-MM-DD reading, and is stored as the
    fallback 1970-01-01T00:00:00Z. *)
Theorem rfc3339_text_becomes_fallback (float_repr : PyFloat.float -> string)
    (type_map : gmap string (gmap string string)) (doc : gmap string value)
    (class_name k s : string) :
  default ∅ (type_map !! class_name) !! k = Some "date" ->
  doc !! k = Some (VStr s) ->
  is_rfc3339 s = true ->
  strptime_ymd s = None
  /\ coerce float_repr "date" (VStr s) = None
  /\ normalize_with float_repr type_map doc class_name !! k = Some (VStr "1970-01-01T00:00:00Z")
  /\ (s <> "1970-01-01T00:00:00Z" ->
      normalize_with float_repr type_map doc class_name !! k <> doc !! k).
Proof.
  intros Hs Hd Hr. apply is_rfc3339_long in Hr.
  pose proof (strptime_ymd_long s Hr) as Hp.
  assert (Hc : coerce float_repr "date" (VStr s) = None).
  { unfold coerce. cbn [String.eqb Ascii.eqb Bool.eqb]. unfold coerce_date. cbn [py_str]. rewrite Hp. reflexivity. }
  assert (Hn : normalize_with float_repr type_map doc class_name !! k
               = Some (VStr "1970-01-01T00:00:00Z")).
  { rewrite normalize_lookup, Hd. unfold normalize_item. cbn [is_none]. rewrite Hs.
    unfold normalize_value. rewrite Hc. reflexivity. }
  repeat match goal with |- _ /\ _ => split end; try assumption.
  intros Hne. rewrite Hn, Hd. congruence.
Qed.

(** The timestamp 2023-05-01T00:00:00Z in the [month_year] field of a record of
    the [sales_vol_staging] collection. *)
Lemma rfc3339_text_witness :
  normalize_metadata (fun _ => "") (<["month_year" := VStr "2023-05-01T00:00:00Z"]> ∅)
    "sales_vol_staging" !! "month_year"
  = Some (VStr "1970-01-01T00:00:00Z").
Proof.
  refine (proj1 (proj2 (proj2 (rfc3339_text_becomes_fallback (fun _ => "") TYPE_MAP
            (<["month_year" := VStr "2023-05-01T00:00:00Z"]> ∅)
            "sales_vol_staging" "month_year" "2023-05-01T00:00:00Z" _ _ _))));
    vm_compute; reflexivity.
Defined.

End EmbedFacts.

(** * Further facts *)

(** ** More on the scroll and the aggregators *)

Section ScrollMoreFacts.
Import Aggregate Samples Service.

Lemma yielded_app evs1 evs2 : yielded (evs1 ++ evs2) = (yielded evs1 ++ yielded evs2)%list.
Proof. unfold yielded. apply omap_app. Qed.

Lemma posted_app evs1 evs2 : posted (evs1 ++ evs2) = (posted evs1 ++ posted evs2)%list.
Proof. unfold posted. apply omap_app. Qed.

Lemma yielded_post c b evs : yielded (Post c b :: evs) = yielded evs.
Proof. reflexivity. Qed.

Lemma posted_post c b evs : posted (Post c b :: evs) = b :: posted evs.
Proof. reflexivity. Qed.

Lemma yielded_yields ys : yielded (Yield <$> ys) = ys.
Proof. induction ys as [| y ys IH]; [reflexivity |]. cbn. f_equal. exact IH. Qed.

Lemma posted_yields ys : posted (Yield <$> ys) = [].
Proof. induction ys as [| y ys IH]; [reflexivity |]. cbn. exact IH. Qed.

(** X1: what is yielded is, in order, the pages of the replies that were
    asked for, one reply for each request; at least one request is made and
    at most one more than there are replies; the first request carries the
    limit, the filter and no offset. *)
Theorem scroll_yields_pages_in_order (collection : string) (filter_obj : json) (batch : Z)
    (replies : list http_reply) :
  yielded (scroll_query_with_filter collection filter_obj batch replies).1
  = concat (page_payloads <$>
            take (length (posted (scroll_query_with_filter collection filter_obj batch replies).1))
                 replies)
  /\ (1 <= length (posted (scroll_query_with_filter collection filter_obj batch replies).1)
      <= S (length replies))%nat
  /\ exists rest,
       posted (scroll_query_with_filter collection filter_obj batch replies).1
       = JDict (<["limit" := JInt batch]>
                 (<["with_payload" := JBool true]> (<["filter" := filter_obj]> ∅))) :: rest.
Proof.
  unfold scroll_query_with_filter.
  assert (Hgen : forall offset,
    yielded (scroll_from collection filter_obj batch offset replies).1
    = concat (page_payloads <$>
              take (length (posted (scroll_from collection filter_obj batch offset replies).1))
                   replies)
    /\ (1 <= length (posted (scroll_from collection filter_obj batch offset replies).1)
        <= S (length replies))%nat
    /\ exists rest,
         posted (scroll_from collection filter_obj batch offset replies).1
         = scroll_body batch filter_obj offset :: rest).
  { induction replies as [| r rest IH]; intros offset; cbn [scroll_from].
    - cbn. repeat split; [lia | lia | eauto].
    - destruct (scroll_turn r) as [e | ys | ys next] eqn:Et.
      + cbn -[page_payloads]. unfold page_payloads. rewrite Et. cbn.
        repeat split; [lia | lia | eauto].
      + cbn [fst]. rewrite yielded_post, posted_post, yielded_yields, posted_yields.
        cbn -[page_payloads]. unfold page_payloads. rewrite Et, app_nil_r.
        repeat split; [lia | lia | eauto].
      + specialize (IH next). destruct (scroll_from collection filter_obj batch next rest) as [evs fin].
        cbn [fst] in *. destruct IH as (IHy & IHn & rest' & IHp).
        rewrite yielded_post, posted_post, yielded_app, posted_app,
          yielded_yields, posted_yields. cbn -[page_payloads].
        unfold page_payloads at 1. rewrite Et, IHy. repeat split; [lia | lia | eauto]. }
  destruct (Hgen JNull) as (H1 & H2 & rest & H3). repeat split; [exact H1 | lia | lia |].
  exists rest. exact H3.
Qed.

(** Two pages and a third reply that is never asked for. *)
Lemma scroll_yields_pages_sample :
  posted (scroll_query_with_filter "c" JNull 500
            [page [point (field "sales" (JStr "1"))] (JInt 7);
             page [point (field "sales" (JStr "2"))] JNull;
             page [point (field "sales" (JStr "3"))] JNull]).1
  = [scroll_body 500 JNull JNull; scroll_body 500 JNull (JInt 7)].
Proof. vm_compute. reflexivity. Qed.

End ScrollMoreFacts.

(** ** More on the aggregators *)

Section AggregateMoreFacts.
Import Aggregate Samples Service.

Lemma count_value_steps st v :
  (count (count_value st v) = count st + 1
   /\ bad_rows (count_value st v) = bad_rows st)
  \/ (count (count_value st v) = count st
      /\ bad_rows (count_value st v) = bad_rows st + 1
      /\ total (count_value st v) = total st).
Proof.
  unfold count_value. destruct (is_none v); [right; auto |].
  destruct (parse_value v) as [val |]; [| right; auto].
  destruct (PyFloat.isfinite val); [left | right]; auto.
Qed.

Lemma candidate_needs_dict candidate p :
  candidate = sales_candidate \/ candidate = volume_candidate ->
  candidate p = None <-> is_dict p = false.
Proof. intros [-> | ->]; destruct p; cbn; split; congruence. Qed.

Lemma drive_success candidate st sent evs st' sent' :
  candidate = sales_candidate \/ candidate = volume_candidate ->
  drive candidate st sent evs = (Some st', sent') ->
  sent' = (sent ++ posted evs)%list
  /\ forallb is_dict (yielded evs) = true
  /\ count st' + bad_rows st' = count st + bad_rows st + Z.of_nat (length (yielded evs))
  /\ count st <= count st' /\ bad_rows st <= bad_rows st'
  /\ (count st' = count st -> total st' = total st).
Proof.
  intros Hc. revert st sent.
  induction evs as [| [c b | p] evs IH]; intros st sent; cbn [drive].
  - intros [= <- <-]. rewrite app_nil_r. cbn. repeat split; lia.
  - intros H. apply IH in H as (-> & H). rewrite posted_post, <- app_assoc.
    split; [reflexivity | exact H].
  - unfold loop_body. destruct (candidate p) as [v |] eqn:Ev; [| discriminate].
    intros H. apply IH in H as (-> & Hd & Hn & Hc1 & Hb1 & Ht).
    change (yielded (Yield p :: evs)) with (p :: yielded evs).
    change (posted (Yield p :: evs)) with (posted evs).
    cbn [forallb length]. rewrite Hd.
    assert (Hp : is_dict p = true).
    { destruct (is_dict p) eqn:E; [reflexivity |].
      apply (candidate_needs_dict candidate p Hc) in E. congruence. }
    rewrite Hp.
    destruct (count_value_steps st v) as [(E1 & E2) | (E1 & E2 & E3)];
      repeat split; try lia.
    intros E. rewrite Ht by lia. exact E3.
Qed.

Lemma drive_stops candidate st sent evs1 p evs2 :
  candidate = sales_candidate \/ candidate = volume_candidate ->
  forallb is_dict (yielded evs1) = true -> is_dict p = false ->
  drive candidate st sent (evs1 ++ Yield p :: evs2) = (None, (sent ++ posted evs1)%list).
Proof.
  intros Hc. revert st sent.
  induction evs1 as [| [c b | q] evs1 IH]; intros st sent Hd Hp.
  - cbn. unfold loop_body.
    apply (candidate_needs_dict candidate p Hc) in Hp. rewrite Hp, app_nil_r. reflexivity.
  - cbn [app drive]. rewrite IH by assumption. rewrite posted_post, <- app_assoc. reflexivity.
  - change (yielded (Yield q :: evs1)) with (q :: yielded evs1) in Hd.
    cbn [forallb] in Hd. apply andb_true_iff in Hd as [Hq Hd].
    cbn [app drive]. unfold loop_body.
    destruct (candidate q) as [v |] eqn:Ev.
    + rewrite IH by assumption. reflexivity.
    + apply (candidate_needs_dict candidate q Hc) in Ev. congruence.
Qed.

Lemma drive_all_dicts candidate st sent evs :
  candidate = sales_candidate \/ candidate = volume_candidate ->
  forallb is_dict (yielded evs) = true ->
  exists st', drive candidate st sent evs = (Some st', (sent ++ posted evs)%list).
Proof.
  intros Hc. revert st sent.
  induction evs as [| [c b | q] evs IH]; intros st sent Hd.
  - exists st. cbn. rewrite app_nil_r. reflexivity.
  - cbn [drive]. destruct (IH st (sent ++ [b])%list Hd) as [st' E].
    exists st'. rewrite E, posted_post, <- app_assoc. reflexivity.
  - change (yielded (Yield q :: evs)) with (q :: yielded evs) in Hd.
    cbn [forallb] in Hd. apply andb_true_iff in Hd as [Hq Hd].
    cbn [drive]. unfold loop_body.
    destruct (candidate q) as [v |] eqn:Ev.
    + apply IH. exact Hd.
    + apply (candidate_needs_dict candidate q Hc) in Ev. congruence.
Qed.

Lemma drive_failure candidate st sent evs sent' :
  candidate = sales_candidate \/ candidate = volume_candidate ->
  drive candidate st sent evs = (None, sent') ->
  forallb is_dict (yielded evs) = false.
Proof.
  intros Hc H. destruct (forallb is_dict (yielded evs)) eqn:E; [| reflexivity].
  destruct (drive_all_dicts candidate st sent evs Hc E) as [st' E']. congruence.
Qed.

Lemma aggregate_unfold candidate year month collection replies start_iso end_iso :
  1 <= month <= 12 ->
  Calendar.iso_month_range year month = Some (start_iso, end_iso) ->
  aggregate candidate year month collection replies
  = let run := scroll_query_with_filter collection (month_filter start_iso end_iso) 500 replies in
    match drive candidate start_counters [] run.1 with
    | (None, sent) => (HTTPException 500 InternalError, sent)
    | (Some st, sent) =>
        match run.2 with
        | Raised (HTTPError _) => (HTTPException 502 QdrantError, sent)
        | Raised OtherError => (HTTPException 500 InternalError, sent)
        | Exhausted =>
            (Returned (mk_summary collection year month (count st) (bad_rows st) (total st)),
             sent)
        end
    end.
Proof.
  intros Hm Hiso. unfold aggregate.
  destruct (Z.leb_spec 1 month); [| lia]. destruct (Z.leb_spec month 12); [| lia].
  cbn [andb negb]. rewrite Hiso.
  destruct (scroll_query_with_filter _ _ _ _) as [evs fin]. reflexivity.
Qed.

Lemma aggregators_are_aggregate agg :
  agg = aggregate_sales \/ agg = aggregate_volume ->
  exists candidate,
    (candidate = sales_candidate \/ candidate = volume_candidate) /\ agg = aggregate candidate.
Proof.
  intros [-> | ->]; [exists sales_candidate | exists volume_candidate]; split; auto.
Qed.

(** X2: a summary that either aggregator returns accounts for every
    payload the scroll yielded: the scroll ran to its end, each payload was
    a dictionary and was either aggregated or skipped, the requests posted
    are those of the scroll, the total is 0.0 when nothing was aggregated,
    and the summary names the collection, year and month asked for. *)
Theorem aggregation_accounts_for_every_payload
    (agg : Z -> Z -> string -> list http_reply -> response * list json)
    (year month : Z) (collection : string) (replies : list http_reply)
    (s : summary) (sent : list json) :
  agg = aggregate_sales \/ agg = aggregate_volume ->
  agg year month collection replies = (Returned s, sent) ->
  exists start_iso end_iso,
    Calendar.iso_month_range year month = Some (start_iso, end_iso)
    /\ 1 <= month <= 12
    /\ (scroll_query_with_filter collection (month_filter start_iso end_iso) 500 replies).2
       = Exhausted
    /\ sent = posted (scroll_query_with_filter collection (month_filter start_iso end_iso)
                        500 replies).1
    /\ forallb is_dict
         (yielded (scroll_query_with_filter collection (month_filter start_iso end_iso)
                     500 replies).1) = true
    /\ records_aggregated s + records_skipped s
       = Z.of_nat (length (yielded (scroll_query_with_filter collection
                                      (month_filter start_iso end_iso) 500 replies).1))
    /\ 0 <= records_aggregated s /\ 0 <= records_skipped s
    /\ (records_aggregated s = 0 -> total_value s = PyFloat.zero)
    /\ Aggregate.collection s = collection
    /\ Aggregate.year s = year /\ Aggregate.month s = month.
Proof.
  intros Hagg H. apply aggregators_are_aggregate in Hagg as (candidate & Hc & ->).
  assert (Hm : 1 <= month <= 12).
  { unfold aggregate in H. destruct (Z.leb_spec 1 month), (Z.leb_spec month 12);
      cbn [andb negb] in H; try discriminate. lia. }
  destruct (Calendar.iso_month_range year month) as [[start_iso end_iso] |] eqn:Hiso.
  2:{ unfold aggregate in H. rewrite Hiso in H. destruct (negb _); discriminate. }
  exists start_iso, end_iso. split; [reflexivity |]. split; [exact Hm |].
  rewrite (aggregate_unfold _ _ _ _ _ _ _ Hm Hiso) in H. cbv zeta in H.
  destruct (drive candidate start_counters [] _) as [[st |] sent0] eqn:Ed; [| discriminate].
  apply (drive_success _ _ _ _ _ _ Hc) in Ed as (-> & Hd & Hn & Hc1 & Hb1 & Ht).
  destruct (scroll_query_with_filter _ _ _ _).2 as [| [c |]]; try discriminate.
  injection H as <- <-. cbn [records_aggregated records_skipped total_value
    Aggregate.collection Aggregate.year Aggregate.month app] in *.
  cbn [start_counters count bad_rows total] in *.
  repeat match goal with |- _ /\ _ => split end; try reflexivity; try assumption; lia.
Qed.

(** One page of three points: one is aggregated, two are skipped. *)
Lemma aggregation_accounts_witness :
  exists s sent,
    aggregate_sales 2024 3 "c"
      [page [point (field "sales" (JStr "1,200")); point (field "sales" (JStr "bad"));
             point (field "sales" JNull)] JNull] = (Returned s, sent)
    /\ records_aggregated s + records_skipped s = 3
    /\ length sent = 1%nat.
Proof.
  destruct (aggregation_accounts_for_every_payload aggregate_sales 2024 3 "c"
              [page [point (field "sales" (JStr "1,200")); point (field "sales" (JStr "bad"));
                     point (field "sales" JNull)] JNull]
              (mk_summary "c" 2024 3 1 2 f1200)
              [scroll_body 500 (month_filter "2024-03-01T00:00:00Z" "2024-03-31T23:59:59Z") JNull]
              (or_introl eq_refl))
    as (a & b & Hiso & _ & _ & Hsent & _ & Hn & _).
  - vm_compute. reflexivity.
  - exists (mk_summary "c" 2024 3 1 2 f1200),
      [scroll_body 500 (month_filter "2024-03-01T00:00:00Z" "2024-03-31T23:59:59Z") JNull].
    split; [vm_compute; reflexivity |]. split; [| reflexivity].
    rewrite Hn. vm_compute in Hiso. injection Hiso as <- <-. vm_compute. reflexivity.
Defined.

(** X3: what either aggregator answers for a month it accepts is decided
    by the scroll and its payloads: a summary exactly when the scroll ran
    to its end and every payload was a dictionary; 502 when the store
    answered with an HTTP error status and every payload before was a
    dictionary; 500 when a payload was not a dictionary or the scroll
    failed in another way.  No other status is given. *)
Theorem aggregation_status_by_scroll_outcome
    (agg : Z -> Z -> string -> list http_reply -> response * list json)
    (year month : Z) (collection : string) (replies : list http_reply)
    (start_iso end_iso : string) :
  agg = aggregate_sales \/ agg = aggregate_volume ->
  1 <= month <= 12 ->
  Calendar.iso_month_range year month = Some (start_iso, end_iso) ->
  match (agg year month collection replies).1 with
  | Returned _ =>
      forallb is_dict
        (yielded (scroll_query_with_filter collection (month_filter start_iso end_iso)
                    500 replies).1) = true
      /\ (scroll_query_with_filter collection (month_filter start_iso end_iso) 500 replies).2
         = Exhausted
  | HTTPException code d =>
      (code = 502 /\ d = QdrantError
       /\ forallb is_dict
            (yielded (scroll_query_with_filter collection (month_filter start_iso end_iso)
                        500 replies).1) = true
       /\ exists c,
            (scroll_query_with_filter collection (month_filter start_iso end_iso) 500 replies).2
            = Raised (HTTPError c))
      \/ (code = 500 /\ d = InternalError
          /\ (forallb is_dict
                (yielded (scroll_query_with_filter collection (month_filter start_iso end_iso)
                            500 replies).1) = false
              \/ (scroll_query_with_filter collection (month_filter start_iso end_iso)
                    500 replies).2 = Raised OtherError))
  end.
Proof.
  intros Hagg Hm Hiso. apply aggregators_are_aggregate in Hagg as (candidate & Hc & ->).
  rewrite (aggregate_unfold _ _ _ _ _ _ _ Hm Hiso). cbv zeta.
  destruct (drive candidate start_counters [] _) as [[st |] sent] eqn:Ed.
  - apply (drive_success _ _ _ _ _ _ Hc) in Ed as (_ & Hd & _).
    destruct (scroll_query_with_filter _ _ _ _).2 as [| [c |]]; cbn [fst].
    + split; [exact Hd | reflexivity].
    + left. repeat split; try exact Hd. exists c. reflexivity.
    + right. repeat split. right. reflexivity.
  - apply (drive_failure _ _ _ _ _ Hc) in Ed. cbn [fst]. right. repeat split. left. exact Ed.
Qed.

(** The store answers 503 to the first request: the aggregator answers 502. *)
Lemma aggregation_status_witness :
  (aggregate_volume 2024 3 "c" [Reply 503 None]).1 = HTTPException 502 QdrantError.
Proof.
  pose proof (aggregation_status_by_scroll_outcome aggregate_volume 2024 3 "c" [Reply 503 None]
                "2024-03-01T00:00:00Z" "2024-03-31T23:59:59Z" (or_intror eq_refl)) as H.
  destruct ((aggregate_volume 2024 3 "c" [Reply 503 None]).1) as [s | code d] eqn:E.
  - destruct H as [_ H]; [lia | vm_compute; reflexivity |]. vm_compute in H. discriminate.
  - destruct H as [(-> & -> & _) | (_ & _ & [H | H])];
      [lia | vm_compute; reflexivity | reflexivity | |]; vm_compute in H; discriminate.
Defined.

(** X4: the aggregators read the scroll as it goes: at the first payload
    that is not a dictionary (a point whose payload is null, say) they
    answer 500, and the requests posted are those made before that
    payload -- later pages are not asked for and no partial total is
    given. *)
Theorem aggregation_stops_at_first_bad_payload
    (agg : Z -> Z -> string -> list http_reply -> response * list json)
    (year month : Z) (collection : string) (replies : list http_reply)
    (start_iso end_iso : string) (evs1 evs2 : list event) (p : json) :
  agg = aggregate_sales \/ agg = aggregate_volume ->
  1 <= month <= 12 ->
  Calendar.iso_month_range year month = Some (start_iso, end_iso) ->
  (scroll_query_with_filter collection (month_filter start_iso end_iso) 500 replies).1
  = (evs1 ++ Yield p :: evs2)%list ->
  forallb is_dict (yielded evs1) = true ->
  is_dict p = false ->
  agg year month collection replies = (HTTPException 500 InternalError, posted evs1).
Proof.
  intros Hagg Hm Hiso Hrun Hd Hp. apply aggregators_are_aggregate in Hagg as (candidate & Hc & ->).
  rewrite (aggregate_unfold _ _ _ _ _ _ _ Hm Hiso). cbv zeta. rewrite Hrun.
  rewrite (drive_stops _ _ _ _ _ _ Hc Hd Hp). reflexivity.
Qed.

(** The first page holds a point whose payload is null, and a cursor: the
    second page is never asked for. *)
Lemma aggregation_stops_witness :
  aggregate_sales 2024 3 "c"
    [page [point (field "sales" (JStr "5")); JDict (<["payload" := JNull]> ∅)] (JInt 7);
     page [point (field "sales" (JStr "6"))] JNull]
  = (HTTPException 500 InternalError,
     [scroll_body 500 (month_filter "2024-03-01T00:00:00Z" "2024-03-31T23:59:59Z") JNull]).
Proof.
  apply (aggregation_stops_at_first_bad_payload aggregate_sales 2024 3 "c" _
           "2024-03-01T00:00:00Z" "2024-03-31T23:59:59Z"
           [Post "c" (scroll_body 500 (month_filter "2024-03-01T00:00:00Z" "2024-03-31T23:59:59Z")
                        JNull);
            Yield (JDict (field "sales" (JStr "5")))]
           [Post "c" (scroll_body 500 (month_filter "2024-03-01T00:00:00Z" "2024-03-31T23:59:59Z")
                        (JInt 7));
            Yield (JDict (field "sales" (JStr "6")))]
           JNull);
    first [lia | left; reflexivity | vm_compute; reflexivity].
Defined.

Lemma count_value_aggregated candidate st p v :
  candidate p = Some v ->
  count (count_value st v) = count st + (if aggregated candidate p then 1 else 0)
  /\ bad_rows (count_value st v) = bad_rows st + (if aggregated candidate p then 0 else 1).
Proof.
  intros Hc. unfold aggregated, count_value. rewrite Hc.
  destruct (is_none v); cbn [negb andb]; [cbn; lia |].
  destruct (parse_value v) as [val |]; [| cbn; lia].
  destruct (PyFloat.isfinite val); cbn; lia.
Qed.

Lemma tally_counts candidate payloads st st' :
  tally candidate st payloads = Some st' ->
  count st' = count st + Z.of_nat (length (List.filter (aggregated candidate) payloads))
  /\ count st' + bad_rows st' = count st + bad_rows st + Z.of_nat (length payloads)
  /\ Forall (fun p => is_Some (candidate p)) payloads.
Proof.
  revert st. induction payloads as [| p ps IH]; intros st; cbn [tally].
  - intros [= <-]. cbn. repeat split; try lia. constructor.
  - unfold loop_body. destruct (candidate p) as [v |] eqn:Ec; [| discriminate].
    intros H. apply IH in H as (H1 & H2 & H3).
    destruct (count_value_aggregated candidate st p v Ec) as [E1 E2].
    cbn [List.filter length]. destruct (aggregated candidate p); cbn [length];
      repeat split; try lia; constructor; eauto.
Qed.

Lemma tally_total candidate payloads st :
  Forall (fun p => is_Some (candidate p)) payloads ->
  is_Some (tally candidate st payloads).
Proof.
  intros H. revert st. induction H as [| p ps [v Hv] _ IH]; intros st; cbn [tally].
  - eauto.
  - unfold loop_body. rewrite Hv. apply IH.
Qed.

Lemma filter_length_permutation {A : Type} (f : A -> bool) (l1 l2 : list A) :
  l1 ≡ₚ l2 -> length (List.filter f l1) = length (List.filter f l2).
Proof.
  induction 1 as [| x l1 l2 _ IH | x y l | l1 l2 l3 _ IH1 _ IH2]; cbn [List.filter].
  - reflexivity.
  - destruct (f x); cbn [length]; congruence.
  - destruct (f x), (f y); reflexivity.
  - congruence.
Qed.

(** X5: the two counts of a summary do not depend on the order in which
    the store returns the points: the loop run on the same payloads in
    another order ends as well, with the same number of records aggregated
    and the same number skipped.  (The total is a sum of floats, added in
    the order of arrival.) *)
Theorem counts_do_not_depend_on_order (candidate : json -> option json)
    (payloads1 payloads2 : list json) (st st1 : counters) :
  payloads1 ≡ₚ payloads2 ->
  tally candidate st payloads1 = Some st1 ->
  exists st2,
    tally candidate st payloads2 = Some st2
    /\ count st2 = count st1 /\ bad_rows st2 = bad_rows st1.
Proof.
  intros Hp H1. apply tally_counts in H1 as (Hc1 & Hn1 & Hall).
  assert (Hall2 : Forall (fun p => is_Some (candidate p)) payloads2).
  { rewrite <- Hp. exact Hall. }
  destruct (tally_total candidate payloads2 st Hall2) as [st2 H2].
  exists st2. split; [exact H2 |].
  apply tally_counts in H2 as (Hc2 & Hn2 & _).
  rewrite (filter_length_permutation _ _ _ Hp) in Hc1.
  rewrite (Permutation_length Hp) in Hn1. lia.
Qed.

Lemma counts_order_witness :
  exists st2,
    tally sales_candidate start_counters
      [JDict (field "sales" (JStr "bad")); JDict (field "sales" (JStr "1,200"))] = Some st2
    /\ count st2 = 1 /\ bad_rows st2 = 1.
Proof.
  apply (counts_do_not_depend_on_order sales_candidate
           [JDict (field "sales" (JStr "1,200")); JDict (field "sales" (JStr "bad"))]
           [JDict (field "sales" (JStr "bad")); JDict (field "sales" (JStr "1,200"))]
           start_counters (mk_counters f1200 1 1)).
  - apply Permutation_swap.
  - vm_compute. reflexivity.
Defined.

End AggregateMoreFacts.

(** ** More on the router *)

Section IntentMoreFacts.
Import Regex Intent Service Checks.

Lemma lower_char_idempotent c : Text.lower_char (Text.lower_char c) = Text.lower_char c.
Proof. destruct c as [[] [] [] [] [] [] [] []]; reflexivity. Qed.

Lemma lower_idempotent s : Text.lower (Text.lower s) = Text.lower s.
Proof.
  induction s as [| c s IH]; [reflexivity |].
  cbn [Text.lower]. rewrite lower_char_idempotent, IH. reflexivity.
Qed.

Lemma chat_by_lower q1 q2 : Text.lower q1 = Text.lower q2 -> chat q1 = chat q2.
Proof.
  intros E. unfold chat, parse_year_month_from_text, is_revenue_aggregation,
    is_volume_aggregation. rewrite E. reflexivity.
Qed.

(** X6: the router does not look at the case of the letters: two
    questions that differ only in case go to the same pipeline with the
    same year and month, and a question goes where its lower-case form
    goes. *)
Theorem routing_ignores_case (q1 q2 : string) :
  Text.lower q1 = Text.lower q2 ->
  chat q1 = chat q2
  /\ parse_year_month_from_text q1 = parse_year_month_from_text q2
  /\ chat (Text.lower q1) = chat q2.
Proof.
  intros E. repeat split.
  - apply chat_by_lower. exact E.
  - unfold parse_year_month_from_text. rewrite E. reflexivity.
  - apply chat_by_lower. rewrite lower_idempotent. exact E.
Qed.

Lemma routing_ignores_case_witness :
  chat "TOTAL Sales in MARCH 2024" = chat "total sales in march 2024".
Proof.
  apply (routing_ignores_case "TOTAL Sales in MARCH 2024" "total sales in march 2024").
  vm_compute. reflexivity.
Defined.

Lemma lower_char_two c : Ascii.eqb "2" (Text.lower_char c) = Ascii.eqb "2" c.
Proof. destruct c as [[] [] [] [] [] [] [] []]; reflexivity. Qed.

Lemma lower_char_zero c : Ascii.eqb "0" (Text.lower_char c) = Ascii.eqb "0" c.
Proof. destruct c as [[] [] [] [] [] [] [] []]; reflexivity. Qed.

Lemma contains_20_lower s : Text.contains "20" (Text.lower s) = Text.contains "20" s.
Proof.
  induction s as [| a s IH]; [reflexivity |].
  cbn [Text.lower Text.contains]. rewrite IH. f_equal.
  cbn [Text.is_prefix]. rewrite lower_char_two.
  destruct (Ascii.eqb "2" a); [| reflexivity].
  destruct s as [| b s]; [reflexivity |].
  cbn [Text.lower]. rewrite lower_char_zero. reflexivity.
Qed.

Lemma year_text_20 d1 d2 rest :
  year_text d1 d2 +:+ rest = "20" +:+ String d1 (String d2 rest).
Proof. reflexivity. Qed.

Ltac open_seq :=
  repeat match goal with
         | M : Matches (Seq _ _) _ _ _ _ _ _ |- _ => inversion M; subst; clear M
         | M : Matches Bnd _ _ _ _ _ _ |- _ => inversion M; subst; clear M
         | M : Matches (year_group _) _ _ _ _ _ _ |- _ =>
             apply Matches_year_group in M as (? & ? & _ & _ & ? & _); subst
         | M : Matches (month_group _) _ _ _ _ _ _ |- _ =>
             apply Matches_month_group in M as (? & _ & ? & _); subst
         | M : Matches (Rep _ None _) _ _ _ _ _ _ |- _ =>
             apply Matches_prefix in M as (? & ? & _); subst
         end.

Lemma occurs_numeric_20 t : occurs numeric_pattern t -> Text.contains "20" t = true.
Proof.
  intros (before & after & p' & s' & g' & -> & HM). apply contains_spec.
  unfold numeric_pattern in HM. cbn [sequence] in HM.
  inversion HM; subst; clear HM. open_seq.
  exists before. eexists. rewrite year_text_20. reflexivity.
Qed.

Lemma occurs_month_year_20 t : occurs month_year_pattern t -> Text.contains "20" t = true.
Proof.
  intros (before & after & p' & s' & g' & -> & HM). apply contains_spec.
  unfold month_year_pattern in HM. cbn [sequence] in HM. open_seq.
  match goal with |- context [?name +:+ ?w +:+ year_text _ _ +:+ _] =>
    exists (before +:+ name +:+ w) end.
  eexists. rewrite year_text_20, !str_app_assoc. reflexivity.
Qed.

Lemma occurs_year_month_20 t : occurs year_month_pattern t -> Text.contains "20" t = true.
Proof.
  intros (before & after & p' & s' & g' & -> & HM). apply contains_spec.
  unfold year_month_pattern in HM. cbn [sequence] in HM.
  inversion HM; subst; clear HM. open_seq.
  exists before. eexists. rewrite year_text_20. reflexivity.
Qed.

Lemma parse_without_20 q :
  Text.contains "20" q = false -> parse_year_month_from_text q = NoDate.
Proof.
  intros H. rewrite <- contains_20_lower in H.
  assert (H1 : search numeric_pattern (Text.lower q) = None).
  { apply search_none. intros Ho. apply occurs_numeric_20 in Ho. congruence. }
  assert (H2 : search month_year_pattern (Text.lower q) = None).
  { apply search_none. intros Ho. apply occurs_month_year_20 in Ho. congruence. }
  assert (H3 : search year_month_pattern (Text.lower q) = None).
  { apply search_none. intros Ho. apply occurs_year_month_20 in Ho. congruence. }
  unfold parse_year_month_from_text, second_step, third_step. rewrite H1, H2, H3. reflexivity.
Qed.

(** X7: a question in which the digits 20 do not occur next to each other
    has no date for the router, whatever keywords it holds: it goes to
    retrieval, never to an aggregation. *)
Theorem question_without_20_goes_to_retrieval (question : string) :
  Text.contains "20" question = false ->
  parse_year_month_from_text question = NoDate /\ chat question = Retrieval.
Proof.
  intros H. apply parse_without_20 in H. split; [exact H |]. unfold chat. rewrite H. reflexivity.
Qed.

Lemma question_without_20_witness :
  parse_year_month_from_text "total revenue in March 1999" = NoDate
  /\ chat "total revenue in March 1999" = Retrieval.
Proof.
  apply (question_without_20_goes_to_retrieval "total revenue in March 1999").
  vm_compute. reflexivity.
Defined.

Lemma parses_to_spec y m text :
  parses_to y m text = true <-> parse_year_month_from_text text = Extracted y m.
Proof.
  unfold parses_to. destruct (parse_year_month_from_text text) as [y' m' | |].
  - rewrite andb_true_iff, !Z.eqb_eq. split; [intros [-> ->]; reflexivity | intros [= -> ->]; auto].
  - split; discriminate.
  - split; discriminate.
Qed.

Lemma in_century_years y : 2000 <= y <= 2099 -> In y century_years.
Proof.
  intros H. unfold century_years. apply in_map_iff. exists (Z.to_nat (y - 2000)).
  split; [lia | apply in_seq; lia].
Qed.

Lemma in_calendar_months m : 1 <= m <= 12 -> In m calendar_months.
Proof.
  intros H. unfold calendar_months. apply in_map_iff. exists (Z.to_nat (m - 1)).
  split; [lia | apply in_seq; lia].
Qed.

Lemma month_texts_parse_back_all :
  forallb (λ y, forallb (month_texts_parse_back y) calendar_months) century_years = true.
Proof. vm_compute. reflexivity. Qed.

(** X8: for every year and month the router can extract, the texts the
    service itself writes for that month are read back as that month: the
    label [year-month] of the fixed answer, and the two bounds of the
    month range sent to the store. *)
Theorem month_texts_round_trip (y m : Z) :
  2000 <= y <= 2099 -> 1 <= m <= 12 ->
  parse_year_month_from_text (year_month_text y m) = Extracted y m
  /\ exists start_iso end_iso,
       Calendar.iso_month_range y m = Some (start_iso, end_iso)
       /\ parse_year_month_from_text start_iso = Extracted y m
       /\ parse_year_month_from_text end_iso = Extracted y m.
Proof.
  intros Hy Hm. pose proof month_texts_parse_back_all as H.
  rewrite forallb_forall in H. specialize (H y (in_century_years y Hy)).
  rewrite forallb_forall in H. specialize (H m (in_calendar_months m Hm)).
  unfold month_texts_parse_back in H. apply andb_true_iff in H as [H1 H2].
  split; [apply parses_to_spec; exact H1 |].
  destruct (Calendar.iso_month_range y m) as [[start_iso end_iso] |]; [| discriminate].
  apply andb_true_iff in H2 as [H2 H3]. exists start_iso, end_iso.
  repeat split; apply parses_to_spec; assumption.
Qed.

Lemma month_texts_round_trip_witness :
  parse_year_month_from_text (year_month_text 2024 2) = Extracted 2024 2
  /\ exists start_iso end_iso,
       Calendar.iso_month_range 2024 2 = Some (start_iso, end_iso)
       /\ parse_year_month_from_text start_iso = Extracted 2024 2
       /\ parse_year_month_from_text end_iso = Extracted 2024 2.
Proof. apply (month_texts_round_trip 2024 2); lia. Defined.

Lemma contains_app_l (k more t : string) :
  Text.contains (k +:+ more) t = true -> Text.contains k t = true.
Proof.
  rewrite !contains_spec. intros (before & after & ->).
  exists before, (more +:+ after). rewrite str_app_assoc. reflexivity.
Qed.

Lemma contains_app_r (less k t : string) :
  Text.contains (less +:+ k) t = true -> Text.contains k t = true.
Proof.
  rewrite !contains_spec. intros (before & after & ->).
  exists (before +:+ less), after. rewrite !str_app_assoc. reflexivity.
Qed.

(** X9: the revenue keywords are looked for first, and two of them,
    "total sales" and "overall sales", begin the phrases "total sales
    volume" and "overall sales volume": a question that asks for the total
    sales volume of a month holds a volume keyword and is still sent to
    the revenue aggregation. *)
Theorem sales_volume_question_goes_to_revenue (question : string) (y m : Z) :
  Text.contains "total sales volume" (Text.lower question) = true
  \/ Text.contains "overall sales volume" (Text.lower question) = true ->
  parse_year_month_from_text question = Extracted y m ->
  is_volume_aggregation question = true
  /\ chat question = RevenueAggregation y m.
Proof.
  intros Hk Hp.
  assert (Hvol : Text.contains "sales volume" (Text.lower question) = true).
  { destruct Hk as [H | H].
    - apply (contains_app_r "total " "sales volume"). exact H.
    - apply (contains_app_r "overall " "sales volume"). exact H. }
  assert (Hrev : is_revenue_aggregation question = true).
  { unfold is_revenue_aggregation, any_in, revenue_keywords. cbn [existsb].
    destruct Hk as [H | H].
    - rewrite (contains_app_l "total sales" " volume" _ H). reflexivity.
    - rewrite (contains_app_l "overall sales" " volume" _ H). rewrite !orb_true_r. reflexivity. }
  split.
  - unfold is_volume_aggregation, any_in, volume_keywords. cbn [existsb].
    rewrite Hvol, !orb_true_r. reflexivity.
  - pose proof (parse_well_formed question) as Hwf. rewrite Hp in Hwf.
    unfold chat. rewrite Hp, Hrev, (well_formed_truthy _ _ Hwf). reflexivity.
Qed.

Lemma sales_volume_question_witness :
  is_volume_aggregation "What was the total sales volume in March 2024?" = true
  /\ chat "What was the total sales volume in March 2024?" = RevenueAggregation 2024 3.
Proof.
  apply (sales_volume_question_goes_to_revenue
           "What was the total sales volume in March 2024?" 2024 3).
  - left. vm_compute. reflexivity.
  - vm_compute. reflexivity.
Defined.

End IntentMoreFacts.

(** ** More on the search shim *)

Section SearchMoreFacts.
Import Search Samples Service.

Lemma make_hit_payload p :
  hit_payload (make_hit p) = empty_dict \/ truthy (hit_payload (make_hit p)) = true.
Proof.
  destruct p as [| | | | | | d]; try (left; reflexivity).
  cbn [make_hit hit_payload]. unfold py_or.
  destruct (truthy (dict_get "payload" d)) eqn:E; [right; exact E | left; reflexivity].
Qed.

Lemma search_points_flat resp ps :
  dict_get "result" resp = JList ps -> search_points resp = JList ps.
Proof. intros E. unfold search_points. rewrite E. reflexivity. Qed.

Lemma search_points_nested resp d ps :
  dict_get "result" resp = JDict d -> d !! "points" = Some (JList ps) ->
  search_points resp = JList ps.
Proof.
  intros E Hp. unfold search_points. rewrite E. cbn [is_dict has_key andb subscript].
  rewrite Hp. rewrite bool_decide_eq_true_2 by eauto. unfold dict_get. rewrite Hp. reflexivity.
Qed.

Lemma search_points_missing resp : resp !! "result" = None -> search_points resp = JList [].
Proof.
  intros E. unfold search_points, dict_get, dict_get_or. rewrite E. reflexivity.
Qed.

(** X10: the shim reads both shapes of a search response alike: a list
    under [result] and a list under [result.points] give the same hits,
    one for each point and in the order of the response, from whichever
    endpoint answers; no payload of a hit is null; and a response without
    [result] gives an empty list of hits without the second endpoint being
    called. *)
Theorem search_reads_both_envelopes (store : endpoint -> http_reply)
    (resp : gmap string json) (ps : list json) :
  store PointsSearch = Reply 200 (Some (JDict resp)) ->
  (dict_get "result" resp = JList ps
   \/ (exists d, dict_get "result" resp = JDict d /\ d !! "points" = Some (JList ps))
   \/ (resp !! "result" = None /\ ps = [])) ->
  http_search_collection store = (Hits (make_hit <$> ps), [PointsSearch])
  /\ length (make_hit <$> ps) = length ps
  /\ Forall (fun h => is_none (hit_payload h) = false) (make_hit <$> ps).
Proof.
  intros Hs Hshape.
  assert (Hp : search_points resp = JList ps).
  { destruct Hshape as [H | [(d & H1 & H2) | [H ->]]].
    - apply search_points_flat. exact H.
    - eapply search_points_nested; eassumption.
    - apply search_points_missing. exact H. }
  repeat split.
  - unfold http_search_collection, try_search, hits_of. rewrite Hs. cbn. rewrite Hp. reflexivity.
  - apply length_fmap.
  - apply Forall_fmap, Forall_forall. intros p _. cbn.
    destruct (make_hit_payload p) as [-> | H]; [reflexivity |].
    destruct (hit_payload (make_hit p)); try reflexivity. discriminate.
Qed.

Lemma search_reads_both_envelopes_witness :
  http_search_collection
    (fun _ => Reply 200 (Some (JDict (<["result" :=
                JList [JDict (<["id" := JInt 1]> (<["payload" := JNull]> ∅))]]> ∅))))
  = (Hits [mk_hit (JInt 1) JNull empty_dict], [PointsSearch]).
Proof.
  refine (proj1 (search_reads_both_envelopes _ _
                   [JDict (<["id" := JInt 1]> (<["payload" := JNull]> ∅))] eq_refl _)).
  left. vm_compute. reflexivity.
Defined.

End SearchMoreFacts.

(** ** The handlers of [main.py] *)

Section ServiceFacts.
Import Search Aggregate Samples Service Checks.

Lemma py_len_nonneg j n : py_len j = Some n -> 0 <= n.
Proof. destruct j; cbn; intros [= <-]; lia. Qed.

(** X11: the health check answers ok only to a reply without an error
    status whose body is JSON; the count is the length of what the body
    holds under [collections] at its top level, so a dictionary body
    without that key (one that nests the list under [result], say) is
    answered with the 500 error; a body that is not a dictionary counts as
    no collections. *)
Theorem health_reads_top_level_collections (r : http_reply) (n : Z) :
  health r = HealthOk n ->
  exists status body,
    r = Reply status (Some body)
    /\ is_error_status status = false
    /\ 0 <= n
    /\ match body with
       | JDict d => exists c, d !! "collections" = Some c /\ py_len c = Some n
       | _ => n = 0
       end.
Proof.
  unfold health. destruct r as [| status body]; [discriminate |].
  destruct (is_error_status status) eqn:Es; [discriminate |].
  destruct body as [data |]; [| discriminate].
  destruct (py_len _) as [k |] eqn:El; [| discriminate].
  intros [= ->]. exists status, data.
  split; [reflexivity |]. split; [exact Es |]. split.
  - eapply py_len_nonneg. eassumption.
  - destruct data as [| | | | | | d]; try (injection El as <-; reflexivity).
    unfold dict_get in El. destruct (d !! "collections") as [c |]; [eauto | discriminate].
Qed.

Lemma health_witness :
  exists c, (<["collections" := JList [JStr "a"; JStr "b"]]> ∅ : gmap string json)
            !! "collections" = Some c /\ py_len c = Some 2.
Proof.
  assert (H0 : health (Reply 200 (Some (JDict (<["collections" :=
                         JList [JStr "a"; JStr "b"]]> ∅)))) = HealthOk 2)
    by (vm_compute; reflexivity).
  destruct (health_reads_top_level_collections _ _ H0) as (status & body & [= <- <-] & _ & _ & H).
  exact H.
Defined.

(** The body of the store as it is: the list is nested under [result]. *)
Lemma health_nested_collections :
  health (Reply 200 (Some (JDict (<["result" :=
            JDict (<["collections" := JList [JStr "a"]]> ∅)]> (<["status" := JStr "ok"]> ∅)))))
  = HealthError.
Proof. vm_compute. reflexivity. Qed.



Lemma context_lines_length (repr : json -> string) hits ls :
  context_lines repr hits = Some ls -> length ls = length hits.
Proof.
  revert ls. induction hits as [| h hits IH]; intros ls; cbn [context_lines].
  - intros [= <-]. reflexivity.
  - destruct (context_line repr h); [| discriminate].
    destruct (context_lines repr hits) as [ls' |]; [| discriminate].
    intros [= <-]. cbn. f_equal. apply IH. reflexivity.
Qed.

Lemma chat_route_well_formed q :
  match Intent.chat q with
  | Intent.RevenueAggregation y m | Intent.VolumeAggregation y m =>
      2000 <= y <= 2099 /\ 1 <= m <= 12
  | Intent.Retrieval => True
  | Intent.Unhandled => False
  end.
Proof.
  pose proof (parse_well_formed q) as Hwf. unfold Intent.chat.
  destruct (Intent.parse_year_month_from_text q) as [y m | |]; [| exact I | exact Hwf].
  destruct (_ && _); [exact Hwf |]. destruct (_ && _); [exact Hwf | exact I].
Qed.

Lemma iso_month_range_century y m :
  2000 <= y <= 2099 -> 1 <= m <= 12 -> is_Some (Calendar.iso_month_range y m).
Proof.
  intros Hy Hm. pose proof month_texts_parse_back_all as H.
  rewrite forallb_forall in H. specialize (H y (in_century_years y Hy)).
  rewrite forallb_forall in H. specialize (H m (in_calendar_months m Hm)).
  unfold month_texts_parse_back in H. apply andb_true_iff in H as [_ H].
  destruct (Calendar.iso_month_range y m); [eauto | discriminate].
Qed.

Lemma drive_sent_grows candidate st sent evs :
  exists more, (drive candidate st sent evs).2 = (sent ++ more)%list.
Proof.
  revert st sent. induction evs as [| [c b | p] evs IH]; intros st sent; cbn [drive].
  - exists []. rewrite app_nil_r. reflexivity.
  - destruct (IH st (sent ++ [b])%list) as [more E]. exists (b :: more).
    rewrite E, <- app_assoc. reflexivity.
  - destruct (loop_body candidate st p) as [st' |]; [apply IH |].
    exists []. rewrite app_nil_r. reflexivity.
Qed.

(** What an aggregator gives to the router: never a 400, and at least one
    request to the store. *)
Lemma aggregate_in_century candidate y m collection replies :
  2000 <= y <= 2099 -> 1 <= m <= 12 ->
  (aggregate candidate y m collection replies).2 <> []
  /\ match (aggregate candidate y m collection replies).1 with
     | Returned _ => True
     | HTTPException code d =>
         (code = 502 /\ d = QdrantError) \/ (code = 500 /\ d = InternalError)
     end.
Proof.
  intros Hy Hm. destruct (iso_month_range_century y m Hy Hm) as [[start_iso end_iso] Hiso].
  rewrite (aggregate_unfold _ _ _ _ _ _ _ Hm Hiso). cbv zeta.
  unfold scroll_query_with_filter.
  destruct (scroll_from_head collection (month_filter start_iso end_iso) 500 JNull replies)
    as [evs Hhead].
  rewrite Hhead. cbn [drive app].
  destruct (drive_sent_grows candidate start_counters
              [scroll_body 500 (month_filter start_iso end_iso) JNull] evs) as [more Hsent].
  destruct (drive candidate start_counters _ evs) as [[st |] sent]; cbn [snd] in Hsent;
    subst sent.
  - destruct (scroll_from _ _ _ _ _).2 as [| [c |]]; cbn [fst snd]; split;
      try discriminate; auto.
  - cbn [fst snd]. split; [discriminate | auto].
Qed.



(** X13: the two pipelines of [/chat] do not mix: an aggregation posts at
    least one scroll request and calls no search endpoint; retrieval posts
    no scroll request, and calls the search endpoints, the legacy one
    first, exactly when the question could be embedded. *)
Theorem chat_keeps_pipelines_apart (repr : json -> string) (question collection : string) (replies : list http_reply)
    (embedding : option (list PyFloat.float)) (store : endpoint -> http_reply)
    (llm : option string) :
  match Intent.chat question with
  | Intent.RevenueAggregation _ _ | Intent.VolumeAggregation _ _ =>
      search_calls (chat_response repr question collection replies embedding store llm).2 = []
      /\ scroll_posts (chat_response repr question collection replies embedding store llm).2 <> []
  | Intent.Retrieval =>
      scroll_posts (chat_response repr question collection replies embedding store llm).2 = []
      /\ (embedding = None ->
          search_calls (chat_response repr question collection replies embedding store llm).2 = [])
      /\ (embedding <> None ->
          exists rest,
            search_calls (chat_response repr question collection replies embedding store llm).2
            = PointsSearch :: rest)
  | Intent.Unhandled => False
  end.
Proof.
  unfold chat_response. pose proof (chat_route_well_formed question) as Hwf.
  destruct (Intent.chat question) as [y m | y m | |].
  - destruct Hwf as [Hy Hm].
    destruct (aggregate_in_century sales_candidate y m collection replies Hy Hm) as [H _].
    unfold aggregate_sales.
    destruct (aggregate sales_candidate y m collection replies) as [[s | c d] sent];
      cbn [snd] in H; cbn; auto.
  - destruct Hwf as [Hy Hm].
    destruct (aggregate_in_century volume_candidate y m collection replies Hy Hm) as [H _].
    unfold aggregate_volume.
    destruct (aggregate volume_candidate y m collection replies) as [[s | c d] sent];
      cbn [snd] in H; cbn; auto.
  - assert (Hcalls : (embedding = None -> (retrieve_hits embedding store).2 = [])
                     /\ (embedding <> None ->
                         exists rest, (retrieve_hits embedding store).2 = PointsSearch :: rest)).
    { unfold retrieve_hits, http_search_collection. destruct embedding as [v |].
      - split; [discriminate | intros _].
        destruct (try_search _); [eauto |]. destruct (try_query _); eauto.
      - split; [reflexivity | intros H; contradiction]. }
    destruct (retrieve_hits embedding store) as [[| h hits] calls]; cbn [snd] in Hcalls.
    + cbn. split; [reflexivity | exact Hcalls].
    + destruct (build_context_from_hits repr (h :: hits)); cbn;
        (split; [reflexivity | exact Hcalls]).
  - exact Hwf.
Qed.



(** A hit whose payload is a text: the handler raises. *)
Lemma chat_escapes_sample :
  (chat_response (fun _ => "") "which product sold best" "c" [] (Some [])
     (fun _ => Reply 200 (Some (JDict (<["result" :=
                 JList [JDict (<["payload" := JStr "note"]> ∅)]]> ∅))))
     (Some "text")).1 = Escaped.
Proof. vm_compute. reflexivity. Qed.

End ServiceFacts.

(** ** Ingestion: batches, identifiers, a second normalization *)

Section IngestFacts.
Import Embed Ingest.

Lemma range_from_concat {A : Type} (rows : list A) (b : nat) :
  (1 <= b)%nat ->
  forall fuel start, (length rows - start <= fuel)%nat ->
  concat ((fun i => slice rows i b) <$> range_from fuel start (length rows) b)
  = drop start rows.
Proof.
  intros Hb. induction fuel as [| fuel IH]; intros start Hf; cbn [range_from].
  - cbn. symmetry. apply drop_ge. lia.
  - destruct (Nat.ltb_spec start (length rows)) as [Hlt | Hge].
    + cbn [fmap list_fmap concat]. rewrite IH by lia. unfold slice.
      rewrite <- (drop_drop rows b start). apply take_drop.
    + cbn. symmetry. apply drop_ge. lia.
Qed.

Lemma range_from_below fuel start stop b i :
  In i (range_from fuel start stop b) -> (i < stop)%nat.
Proof.
  revert start. induction fuel as [| fuel IH]; intros start; cbn [range_from]; [intros [] |].
  destruct (Nat.ltb_spec start stop) as [Hlt | Hge]; [| intros []].
  intros [<- | Hin]; [exact Hlt | eapply IH; eassumption].
Qed.

Lemma range_from_length (b : nat) :
  (1 <= b)%nat ->
  forall fuel start stop, (stop - start <= fuel)%nat ->
  Z.of_nat (length (range_from fuel start stop b))
  = (Z.of_nat (stop - start) + Z.of_nat b - 1) / Z.of_nat b.
Proof.
  intros Hb. induction fuel as [| fuel IH]; intros start stop Hf; cbn [range_from].
  - replace (stop - start)%nat with 0%nat by lia. cbn [length].
    symmetry. apply Z.div_small. lia.
  - destruct (Nat.ltb_spec start stop) as [Hlt | Hge].
    + cbn [length]. rewrite Nat2Z.inj_succ, IH by lia.
      destruct (Nat.le_gt_cases b (stop - start)) as [Hle | Hgt].
      * replace (Z.of_nat (stop - start) + Z.of_nat b - 1)
          with (Z.of_nat (stop - (start + b)) + Z.of_nat b - 1 + 1 * Z.of_nat b) by lia.
        rewrite Z.div_add by lia. lia.
      * replace (stop - (start + b))%nat with 0%nat by lia.
        rewrite (Z.div_small (Z.of_nat 0 + Z.of_nat b - 1)) by lia.
        apply Z.div_unique with (r := Z.of_nat (stop - start) - 1); lia.
    + replace (stop - start)%nat with 0%nat by lia. cbn [length].
      symmetry. apply Z.div_small. lia.
Qed.

(** X16: for a positive batch size the chunks that are embedded and
    stored, one after the other, are the rows: every row is in exactly one
    chunk, in the order of the table; no chunk is empty and none is longer
    than the batch size; and there are as many chunks as the progress bar
    is told. *)
Theorem batches_cover_every_row {A : Type} (rows : list A) (batch_size : Z) :
  0 < batch_size ->
  exists chunks,
    batches rows batch_size = Some chunks
    /\ concat chunks = rows
    /\ Forall (fun chunk => (1 <= length chunk)%nat /\ Z.of_nat (length chunk) <= batch_size)
              chunks
    /\ total_batches (length rows) batch_size = Some (Z.of_nat (length chunks)).
Proof.
  intros Hb. unfold batches, total_batches.
  destruct (Z.eqb_spec batch_size 0) as [-> | _]; [lia |].
  destruct (Z.ltb_spec batch_size 0) as [Hneg | _]; [lia |].
  assert (Hn : (1 <= Z.to_nat batch_size)%nat) by lia.
  eexists. split; [reflexivity |]. repeat split.
  - rewrite (range_from_concat rows _ Hn) by lia. reflexivity.
  - apply Forall_fmap, Forall_forall. intros i Hi. apply list_elem_of_In in Hi.
    apply range_from_below in Hi. cbn. unfold slice.
    rewrite length_take, length_drop. lia.
  - f_equal. rewrite length_fmap, (range_from_length _ Hn) by lia.
    rewrite Nat.sub_0_r, Z2Nat.id by lia. reflexivity.
Qed.

Lemma batches_cover_witness :
  exists chunks,
    batches [1; 2; 3; 4; 5] 2 = Some chunks
    /\ concat chunks = [1; 2; 3; 4; 5]
    /\ Forall (fun chunk => (1 <= length chunk)%nat /\ Z.of_nat (length chunk) <= 2) chunks
    /\ total_batches 5 2 = Some (Z.of_nat (length chunks)).
Proof. apply (batches_cover_every_row [1; 2; 3; 4; 5] 2). lia. Defined.


Lemma type_map_row_id class_name types :
  TYPE_MAP !! class_name = Some types -> is_Some (types !! "row_id") ->
  class_name = "transactions_main_staging".
Proof.
  unfold TYPE_MAP, build_type_map, SCHEMAS. cbn [foldl class properties snd].
  intros H [t Ht].
  repeat (apply lookup_insert_Some in H as [[<- <-] | [_ H]];
          [first [reflexivity | vm_compute in Ht; discriminate] |]).
  rewrite lookup_empty in H. discriminate.
Qed.

Lemma type_map_transactions_row_id :
  default ∅ (TYPE_MAP !! "transactions_main_staging") !! "row_id" = Some "int".
Proof. vm_compute. reflexivity. Qed.

(** X17: a row gets a fresh UUID as its identifier whenever its table is
    not the transactions table (no other schema has a [row_id]), or its
    [row_id] is missing or null. *)
Theorem rows_without_row_id_get_fresh_ids (float_repr : PyFloat.float -> string)
    (doc : gmap string value) (class_name fresh : string) :
  class_name <> "transactions_main_staging"
  \/ doc !! "row_id" = None \/ doc !! "row_id" = Some VNone ->
  normalize_metadata float_repr doc class_name !! "row_id" = None
  /\ point_id (normalize_metadata float_repr doc class_name) fresh = fresh.
Proof.
  intros H.
  assert (Hn : normalize_metadata float_repr doc class_name !! "row_id" = None).
  { unfold normalize_metadata. rewrite normalize_lookup.
    destruct H as [Hc | [-> | ->]]; [| reflexivity | reflexivity].
    destruct (doc !! "row_id") as [v |]; [| reflexivity].
    unfold normalize_item. destruct (is_none v); [reflexivity |].
    destruct (default ∅ (TYPE_MAP !! class_name) !! "row_id") as [t |] eqn:Er; [| reflexivity].
    exfalso. apply Hc.
    destruct (TYPE_MAP !! class_name) as [types |] eqn:Et;
      [| cbn in Er; rewrite lookup_empty in Er; discriminate].
    apply (type_map_row_id class_name types Et). exists t. exact Er. }
  split; [exact Hn |]. unfold point_id. rewrite Hn. reflexivity.
Qed.

Lemma rows_without_row_id_witness :
  point_id (normalize_metadata (fun _ => "") (<["row_id" := VInt 7]> ∅) "sales_vol_staging")
    "5b0c" = "5b0c".
Proof.
  apply (rows_without_row_id_get_fresh_ids (fun _ => "") (<["row_id" := VInt 7]> ∅)
           "sales_vol_staging" "5b0c").
  left. discriminate.
Defined.

(** X18: a row of the transactions table whose [row_id] is there and not
    null is identified by the decimal text of the normalized [row_id]; a
    [row_id] that cannot be read as a number is normalized to 0, so every
    such row gets the identifier "0". *)
Theorem transaction_rows_are_identified_by_row_id (float_repr : PyFloat.float -> string)
    (doc : gmap string value) (fresh : string) (v : value) :
  doc !! "row_id" = Some v -> v <> VNone ->
  match coerce float_repr "int" v with
  | Some x =>
      exists n, x = VInt n
                /\ normalize_metadata float_repr doc "transactions_main_staging" !! "row_id"
                   = Some (VInt n)
                /\ (Z.abs n < 10 ^ MAX_STR_DIGITS ->
                    point_id (normalize_metadata float_repr doc "transactions_main_staging")
                      fresh = pretty n)
  | None =>
      normalize_metadata float_repr doc "transactions_main_staging" !! "row_id" = Some (VInt 0)
      /\ point_id (normalize_metadata float_repr doc "transactions_main_staging") fresh = "0"
  end.
Proof.
  intros Hd Hv.
  assert (Hn : normalize_metadata float_repr doc "transactions_main_staging" !! "row_id"
               = Some (normalize_value float_repr "int" v)).
  { unfold normalize_metadata. rewrite normalize_lookup, Hd. unfold normalize_item.
    rewrite type_map_transactions_row_id. destruct v; try contradiction; reflexivity. }
  unfold normalize_value in Hn.
  destruct (coerce float_repr "int" v) as [x |] eqn:Ec.
  - assert (Hx : exists n, x = VInt n).
    { unfold coerce in Ec. cbn [String.eqb Ascii.eqb Bool.eqb] in Ec.
      destruct (py_float v) as [f |]; [| discriminate].
      destruct (PyFloat.to_int f) as [n |]; [| discriminate].
      injection Ec as <-. eauto. }
    destruct Hx as [n ->]. exists n. split; [reflexivity |]. split; [exact Hn |].
    intros Hb. unfold point_id. rewrite Hn. cbn [int_of_value]. unfold str_of_int.
    destruct (Z.ltb_spec (Z.abs n) (10 ^ MAX_STR_DIGITS)); [reflexivity | lia].
  - split; [exact Hn |]. unfold point_id. rewrite Hn. reflexivity.
Qed.

Lemma transaction_rows_witness :
  point_id (normalize_metadata (fun _ => "") (<["row_id" := VStr "n/a"]> ∅)
              "transactions_main_staging") "5b0c" = "0".
Proof.
  pose proof (transaction_rows_are_identified_by_row_id (fun _ => "")
                (<["row_id" := VStr "n/a"]> ∅) "5b0c" (VStr "n/a") eq_refl) as H.
  assert (Hc : coerce (fun _ => "") "int" (VStr "n/a") = None) by (vm_compute; reflexivity).
  rewrite Hc in H. apply H. discriminate.
Defined.

Lemma str_length_pad2 n : String.length (Text.pad2 n) = 2%nat.
Proof. reflexivity. Qed.

Lemma str_length_pad4 n : String.length (Text.pad4 n) = 4%nat.
Proof. reflexivity. Qed.

Lemma strftime_z_length d : String.length (strftime_z d) = 20%nat.
Proof.
  unfold strftime_z. rewrite !str_length_app, str_length_pad4, !str_length_pad2. reflexivity.
Qed.

Lemma normalize_date_length float_repr v :
  exists s, normalize_value float_repr "date" v = VStr s /\ String.length s = 20%nat.
Proof.
  unfold normalize_value, coerce, fallback. cbn [String.eqb Ascii.eqb Bool.eqb].
  destruct (coerce_date float_repr v) as [x |] eqn:Ec.
  - unfold coerce_date, excel_serial_to_date in Ec.
    repeat case_match; simplify_option_eq; eexists; (split; [reflexivity |]);
      apply strftime_z_length.
  - eexists. split; reflexivity.
Qed.

Lemma normalize_date_text float_repr s :
  String.length s = 20%nat -> normalize_value float_repr "date" (VStr s) = VStr FALLBACK_DATE.
Proof.
  intros Hl. unfold normalize_value, coerce, fallback. cbn [String.eqb Ascii.eqb Bool.eqb].
  unfold coerce_date. cbn [py_str]. rewrite strptime_ymd_long by lia. reflexivity.
Qed.

Lemma normalize_number_float float_repr v :
  exists f, normalize_value float_repr "number" v = VFloat f.
Proof.
  unfold normalize_value, coerce, fallback. cbn [String.eqb Ascii.eqb Bool.eqb].
  destruct (py_float v) as [f |]; eexists; reflexivity.
Qed.

(** X19: normalizing a normalized record again leaves its string and
    number fields as they are, and turns every date field into the
    fallback 1970-01-01T00:00:00Z: the dates the normalizer writes are not
    dates it reads. *)
Theorem second_normalization_resets_dates (float_repr : PyFloat.float -> string)
    (type_map : gmap string (gmap string string)) (doc : gmap string value)
    (class_name k expected : string) (x : value) :
  default ∅ (type_map !! class_name) !! k = Some expected ->
  normalize_with float_repr type_map doc class_name !! k = Some x ->
  (expected = "date" ->
     normalize_with float_repr type_map
       (normalize_with float_repr type_map doc class_name) class_name !! k
     = Some (VStr FALLBACK_DATE))
  /\ (expected = "string" \/ expected = "number" ->
        normalize_with float_repr type_map
          (normalize_with float_repr type_map doc class_name) class_name !! k
        = Some x).
Proof.
  intros Ht Hx.
  assert (Hv : exists v, x = normalize_value float_repr expected v).
  { rewrite normalize_lookup in Hx. destruct (doc !! k) as [v |]; [| discriminate].
    unfold normalize_item in Hx. rewrite Ht in Hx.
    destruct (is_none v); [discriminate |]. injection Hx as <-. eauto. }
  destruct Hv as [v ->].
  assert (Hn : is_none (normalize_value float_repr expected v) = false).
  { pose proof (normalize_value_not_none float_repr expected v) as H.
    destruct (normalize_value float_repr expected v); try reflexivity. contradiction. }
  rewrite normalize_lookup, Hx. unfold normalize_item. rewrite Hn, Ht. split.
  - intros ->. destruct (normalize_date_length float_repr v) as (s & -> & Hl).
    rewrite normalize_date_text by exact Hl. reflexivity.
  - intros [-> | ->]; f_equal.
    destruct (normalize_number_float float_repr v) as [f ->]. reflexivity.
Qed.

Lemma second_normalization_witness :
  normalize_with (fun _ => "") TYPE_MAP
    (normalize_with (fun _ => "") TYPE_MAP (<["month_year" := VStr "2023-05-01"]> ∅)
       "sales_vol_staging") "sales_vol_staging" !! "month_year"
  = Some (VStr FALLBACK_DATE).
Proof.
  refine (proj1 (second_normalization_resets_dates (fun _ => "") TYPE_MAP
                   (<["month_year" := VStr "2023-05-01"]> ∅) "sales_vol_staging"
                   "month_year" "date" (VStr "2023-05-01T00:00:00Z") _ _) eq_refl);
    vm_compute; reflexivity.
Defined.

Lemma type_map_unknown_class class_name :
  ~ In class_name ((fun tc => class tc.2) <$> SCHEMAS) -> TYPE_MAP !! class_name = None.
Proof.
  unfold TYPE_MAP, build_type_map, SCHEMAS. cbn [fmap list_fmap foldl class properties snd In].
  intros Hn. rewrite !lookup_insert_ne by (intros <-; apply Hn; tauto).
  apply lookup_empty.
Qed.

(** X20: the type map is keyed by the class of a schema (the name of its
    collection), not by the name of its table: for a class name that no
    schema has -- the table names among them -- every field is left out,
    and the normalized record is empty. *)
Theorem only_schema_classes_are_normalized (float_repr : PyFloat.float -> string)
    (doc : gmap string value) (class_name : string) :
  ~ In class_name ((fun tc => class tc.2) <$> SCHEMAS) ->
  normalize_metadata float_repr doc class_name = ∅.
Proof.
  intros Hn. apply map_eq. intros k. unfold normalize_metadata.
  rewrite normalize_lookup, (type_map_unknown_class _ Hn), lookup_empty.
  destruct (doc !! k) as [v |]; [| reflexivity].
  unfold normalize_item. cbn [default]. rewrite lookup_empty. destruct (Embed.is_none v); reflexivity.
Qed.

Lemma only_schema_classes_witness :
  normalize_metadata (fun _ => "") (<["product_name" := VStr "chair"]> ∅) "sales_vol" = ∅.
Proof.
  apply (only_schema_classes_are_normalized (fun _ => "")
           (<["product_name" := VStr "chair"]> ∅) "sales_vol").
  cbn. intros H. repeat (destruct H as [H | H]; [discriminate H |]). exact H.
Defined.

Lemma zip_points_spec ids vectors payloads :
  length ids = length payloads ->
  point_ident <$> zip_points ids vectors payloads = take (length vectors) ids
  /\ point_vector <$> zip_points ids vectors payloads = take (length ids) vectors
  /\ point_meta <$> zip_points ids vectors payloads = take (length vectors) payloads.
Proof.
  revert vectors payloads. induction ids as [| pid ids IH]; intros vectors payloads Hl.
  - destruct payloads; [| discriminate]. cbn. rewrite !take_nil. auto.
  - destruct payloads as [| pl payloads]; [discriminate |].
    destruct vectors as [| vec vectors]; [cbn; auto |].
    injection Hl as Hl. destruct (IH vectors payloads Hl) as (H1 & H2 & H3).
    cbn. rewrite H1, H2, H3. auto.
Qed.

(** X21: a batch is stored only when every vector the embedder gave back
    has 1536 components; the points stored then pair the identifiers, the
    vectors and the payloads position by position, and there are as many
    as there are vectors, at most one for each row: rows for which no
    vector came back are left out without an error. *)
Theorem batch_points_follow_the_vectors (ids : list string)
    (vectors : list (list PyFloat.float)) (payloads : list (gmap string value)) :
  length ids = length payloads ->
  match batch_points ids vectors payloads with
  | Some points =>
      length points = Nat.min (length ids) (length vectors)
      /\ point_ident <$> points = take (length vectors) ids
      /\ point_vector <$> points = take (length ids) vectors
      /\ point_meta <$> points = take (length vectors) payloads
      /\ Forall (fun p => Z.of_nat (length (point_vector p)) = VECTOR_SIZE) points
  | None => Exists (fun vec => Z.of_nat (length vec) <> VECTOR_SIZE) vectors
  end.
Proof.
  intros Hl. unfold batch_points.
  destruct (forallb _ vectors) eqn:Hf.
  - destruct (zip_points_spec ids vectors payloads Hl) as (H1 & H2 & H3).
    repeat match goal with |- _ /\ _ => split end; try assumption.
    + rewrite <- (length_fmap point_ident), H1, length_take. lia.
    + assert (Hv : Forall (fun v => Z.of_nat (length v) = VECTOR_SIZE)
                     (point_vector <$> zip_points ids vectors payloads)).
      { rewrite H2. apply Forall_take.
        apply Forall_forall. intros vec Hin. apply list_elem_of_In in Hin.
        pose proof (proj1 (List.forallb_forall _ _) Hf vec Hin) as H. cbv beta in H. lia. }
      apply Forall_fmap in Hv. exact Hv.
  - apply Exists_exists.
    assert (He : existsb (fun vec => negb (Z.of_nat (length vec) =? VECTOR_SIZE)) vectors = true).
    { clear -Hf. induction vectors as [| vec vectors IH]; [discriminate |].
      cbn in *. destruct (Z.eqb_spec (Z.of_nat (length vec)) VECTOR_SIZE); cbn in *; auto. }
    apply existsb_exists in He as (vec & Hin & Hv). exists vec.
    split; [apply list_elem_of_In; exact Hin |]. apply negb_true_iff in Hv. lia.
Qed.

Lemma batch_points_witness :
  Exists (fun vec => Z.of_nat (length vec) <> VECTOR_SIZE) [[PyFloat.zero]].
Proof.
  pose proof (batch_points_follow_the_vectors ["a"] [[PyFloat.zero]] [∅] eq_refl) as H.
  exact H.
Defined.

End IngestFacts.

(** ** Dates from serial numbers *)

Section SerialFacts.
Import Calendar Embed Checks.

Lemma ordinal_digits n :
  1 <= n ->
  exists a b c e k,
    0 <= a /\ 0 <= b < 4 /\ 0 <= c < 25 /\ 0 <= e < 4
    /\ 0 <= k < 365 + (if (e =? 3) && (negb (c =? 24) || (b =? 3)) then 1 else 0)
    /\ n = DI400Y * a + DI100Y * b + DI4Y * c + 365 * e + k + 1.
Proof.
  intros Hn. unfold DI400Y, DI100Y, DI4Y.
  set (a := (n - 1) / 146097). set (r := (n - 1) mod 146097).
  assert (Hr : 0 <= r < 146097 /\ n - 1 = 146097 * a + r).
  { unfold a, r. Z.div_mod_to_equations. lia. }
  assert (Ha : 0 <= a) by (unfold a; Z.div_mod_to_equations; lia).
  set (b := Z.min (r / 36524) 3). set (r2 := r - 36524 * b).
  assert (Hb : 0 <= b < 4 /\ 0 <= r2 /\ (b < 3 -> r2 < 36524) /\ (b = 3 -> r2 < 36525)).
  { unfold r2, b. Z.div_mod_to_equations. lia. }
  set (c := r2 / 1461). set (r3 := r2 mod 1461).
  assert (Hc : 0 <= c < 25 /\ 0 <= r3 < 1461 /\ r2 = 1461 * c + r3
               /\ (c = 24 -> b < 3 -> r3 < 1460)).
  { unfold c, r3. Z.div_mod_to_equations. lia. }
  set (e := Z.min (r3 / 365) 3). set (k := r3 - 365 * e).
  assert (He : 0 <= e < 4 /\ 0 <= k /\ (e < 3 -> k < 365) /\ (e = 3 -> k < 366)).
  { unfold k, e. Z.div_mod_to_equations. lia. }
  exists a, b, c, e, k.
  repeat match goal with |- _ /\ _ => split end; try lia.
  destruct (Z.eqb_spec e 3), (Z.eqb_spec c 24), (Z.eqb_spec b 3); cbn [andb orb negb]; lia.
Qed.

Lemma in_year_days k : 0 <= k < 366 -> In k year_days.
Proof.
  intros H. unfold year_days. apply in_map_iff. exists (Z.to_nat k).
  split; [lia | apply in_seq; lia].
Qed.

Lemma month_day_ok_all :
  forallb (fun k => month_day_ok false k || (364 <? k)) year_days
  && forallb (month_day_ok true) year_days = true.
Proof. vm_compute. reflexivity. Qed.

Lemma month_day_spec (leap : bool) (k : Z) :
  0 <= k < 365 + (if leap then 1 else 0) -> month_day_ok leap k = true.
Proof.
  intros Hk. pose proof month_day_ok_all as H. apply andb_true_iff in H as [H0 H1].
  pose proof (proj1 (List.forallb_forall _ _) H0) as H0'.
  pose proof (proj1 (List.forallb_forall _ _) H1) as H1'.
  destruct leap.
  - apply H1', in_year_days. lia.
  - assert (Hin : In k year_days) by (apply in_year_days; lia).
    specialize (H0' k Hin). cbv beta in H0'. apply orb_true_iff in H0' as [H | H];
      [exact H | lia].
Qed.

(** [ord2ymd] gives the date that has the ordinal. *)
Lemma ord2ymd_spec n :
  1 <= n <= MAXORDINAL ->
  exists y m d,
    ord2ymd n = (y, m, d)
    /\ 1 <= y <= 9999 /\ 1 <= m <= 12 /\ 1 <= d <= days_in_month y m
    /\ ymd2ord y m d = n.
Proof.
  intros [Hlo Hhi].
  destruct (ordinal_digits n Hlo) as (a & b & c & e & k & Ha & Hb & Hc & He & Hk & ->).
  rewrite ord2ymd_digits by assumption.
  pose proof (month_day_spec _ k Hk) as Hok. unfold month_day_ok in Hok.
  destruct (month_day _ k) as [m d].
  repeat (apply andb_true_iff in Hok as [Hok ?]).
  exists (400 * a + 100 * b + 4 * c + e + 1), m, d. split; [reflexivity |].
  unfold ymd2ord, days_before_month, days_in_month.
  rewrite days_before_year_split, is_leap_split by assumption.
  unfold MAXORDINAL, DI400Y, DI100Y, DI4Y in *.
  assert (Hd : d <= (if (m =? 2) && ((e =? 3) && (negb (c =? 24) || (b =? 3)))
                     then 29 else DAYS_IN_MONTH m)).
  { destruct ((m =? 2) && _) eqn:E.
    - apply andb_true_iff in E as [E _]. apply Z.eqb_eq in E. subst m. cbn in *. lia.
    - lia. }
  repeat match goal with |- _ /\ _ => split end; try lia.
Qed.

(** X22: a serial number is read as a count of days from 1899-12-30: for
    every serial whose day is in the range of [datetime], the text written
    is midnight of a date of the calendar -- year 1..9999, month 1..12, a
    day of that month -- and that date is [serial] days after 1899-12-30;
    for any other serial the conversion raises. *)
Theorem excel_serial_counts_days_from_base (serial : Z) :
  (0 < ymd2ord 1899 12 30 + serial <= MAXORDINAL ->
   exists y m d,
     excel_serial_to_date serial = Some (strftime_z (mk_datetime y m d 0 0 0))
     /\ make_datetime y m d = Some (mk_datetime y m d 0 0 0)
     /\ ymd2ord y m d = ymd2ord 1899 12 30 + serial)
  /\ (ymd2ord 1899 12 30 + serial <= 0 \/ MAXORDINAL < ymd2ord 1899 12 30 + serial ->
      excel_serial_to_date serial = None).
Proof.
  unfold excel_serial_to_date. split.
  - intros [Hlo Hhi].
    destruct (Z.ltb_spec 0 (ymd2ord 1899 12 30 + serial)); [| lia].
    destruct (Z.leb_spec (ymd2ord 1899 12 30 + serial) MAXORDINAL); [| lia].
    cbn [andb].
    destruct (ord2ymd_spec (ymd2ord 1899 12 30 + serial)) as (y & m & d & -> & Hy & Hm & Hd & Ho);
      [lia |].
    exists y, m, d. split; [reflexivity |]. split; [| exact Ho].
    unfold make_datetime, MINYEAR, MAXYEAR.
    repeat match goal with
           | |- context [?a <=? ?b] => destruct (Z.leb_spec a b); [| lia]
           end.
    reflexivity.
  - intros [H | H].
    + destruct (Z.ltb_spec 0 (ymd2ord 1899 12 30 + serial)); [lia | reflexivity].
    + destruct (Z.leb_spec (ymd2ord 1899 12 30 + serial) MAXORDINAL); [lia |].
      rewrite andb_false_r. reflexivity.
Qed.

(** The serial of the first of March 2024. *)
Lemma excel_serial_witness :
  exists y m d,
    excel_serial_to_date 45352 = Some (strftime_z (mk_datetime y m d 0 0 0))
    /\ make_datetime y m d = Some (mk_datetime y m d 0 0 0)
    /\ ymd2ord y m d = ymd2ord 1899 12 30 + 45352.
Proof.
  apply (proj1 (excel_serial_counts_days_from_base 45352)). vm_compute.
  split; [reflexivity | discriminate].
Defined.

End SerialFacts.
